(** * Watcher: the React pages and the watcher runtime

    A shallow embedding of the parts of the watcher application that its
    specification makes claims about, and the proofs of those claims.

    - [JS], [JSNumber], [JSValue]: the JavaScript strings, Numbers
      (IEEE 754 binary64) and values that the pages compute with
    - [Types]: the record types that the pages declare
    - [Watchers]: [frontend/src/pages/Watchers.tsx], the latest event per
      watcher, the rule form and the Config column
    - [WatcherCreate]: [frontend/src/pages/WatcherCreate.tsx], the numeric
      fields, the rule form and [submit]
    - [Events]: [frontend/src/pages/Events.tsx], [formatMetadataValue] and
      the filters
    - [JSString], [PatternEditor], [RuleRow], [WatchersFields],
      [EventsView], [Users], [Auth]: the other handlers of the pages, the
      list editors, the controls of the rule row, the metadata card, the
      users page and the token
    - [WatcherEdit]: [frontend/src/pages/WatcherEdit.tsx], the JSON
      editors and [save]
    - [Runtime]: the pattern matcher, the filter, the validation engine, the
      session and the manager of the server, modelled from the
      specification
*)

From Stdlib Require Import ZArith QArith String Ascii List Bool Lia DecimalString.
From Stdlib Require Import Sorting.Sorted.
From Stdlib Require Import Floats.SpecFloat.
From stdpp Require Import base option list gmap strings.

Local Open Scope string_scope.

(** ** JavaScript strings

  A string is a sequence of code units; the model takes the code units
  below 256 ([ascii]), which covers every key and literal of the pages. *)
Module JS.

Definition code (c : ascii) : N := N_of_ascii c.

(** [String.prototype.toLowerCase] on the Latin-1 range: A-Z, and the
    accented capitals U+00C0-U+00DE without the multiplication sign. *)
Definition lower_char (c : ascii) : ascii :=
  let n := code c in
  if ((65 <=? n) && (n <=? 90))%N then ascii_of_N (n + 32)
  else if ((192 <=? n) && (n <=? 222) && negb (n =? 215))%N
       then ascii_of_N (n + 32)
  else c.

Fixpoint toLowerCase (s : string) : string :=
  match s with
  | EmptyString => EmptyString
  | String c s' => String (lower_char c) (toLowerCase s')
  end.

(** [s.includes(sub)]: [sub] occurs in [s] as a contiguous substring. *)
Fixpoint includes (s sub : string) : bool :=
  String.prefix sub s ||
  match s with
  | EmptyString => false
  | String _ s' => includes s' sub
  end.

(** White space of [String.prototype.trim] below 256: TAB, LF, VT, FF,
    CR, SPACE and the no-break space. *)
Definition is_space (c : ascii) : bool :=
  let n := code c in
  (((9 <=? n) && (n <=? 13)) || (n =? 32) || (n =? 160))%N.

Fixpoint trimStart (s : string) : string :=
  match s with
  | EmptyString => EmptyString
  | String c s' => if is_space c then trimStart s' else s
  end.

(** [trimEnd] keeps a character when it is not a space or when something
    that is kept follows it. *)
Fixpoint trimEnd (s : string) : string :=
  match s with
  | EmptyString => EmptyString
  | String c s' =>
      match trimEnd s' with
      | EmptyString => if is_space c then EmptyString else String c EmptyString
      | t => String c t
      end
  end.

Definition trim (s : string) : string := trimEnd (trimStart s).

(** [s.split(sep)] for a one-character separator: never empty, the empty
    string splits into one empty field. *)
Fixpoint split (sep : ascii) (s : string) : list string :=
  match s with
  | EmptyString => [EmptyString]
  | String c s' =>
      if Ascii.eqb c sep then EmptyString :: split sep s'
      else match split sep s' with
           | f :: fs => String c f :: fs
           | [] => [String c EmptyString]
           end
  end.

(** Truthiness of a string: the empty string is the only falsy one. *)
Definition truthy (s : string) : bool :=
  match s with EmptyString => false | _ => true end.

End JS.

(** ** JavaScript numbers

    A Number is an IEEE 754 binary64 value: [spec_float] at precision 53
    and maximal exponent 1024, with its NaN, its two infinities and its two
    zeros.  Comparison and division are those of the standard; the two
    printing methods follow ECMA-262 on the exact value of the float. *)
Module JSNumber.

Definition number : Type := spec_float.

Definition prec : Z := 53.
Definition emax : Z := 1024.
Definition emin : Z := -1074.

Definition valid (x : number) : bool := valid_binary prec emax x.

(** The Number denoted by an integer literal. *)
Definition of_Z (z : Z) : number := binary_normalize prec emax z 0 false.

Definition lt (x y : number) : bool := SFltb x y.
Definition gt (x y : number) : bool := SFltb y x.
Definition div (x y : number) : number := SFdiv prec emax x y.

Definition isNaN (x : number) : bool :=
  match x with S754_nan => true | _ => false end.

Definition isFinite (x : number) : bool :=
  match x with S754_nan | S754_infinity _ => false | _ => true end.

(** Decimal digits of a natural number, ["0"] for zero. *)
Definition digits (n : Z) : string :=
  NilZero.string_of_uint (N.to_uint (Z.to_N n)).

Fixpoint zeros (n : nat) : string :=
  match n with O => "" | S k => String "0" (zeros k) end.

(** Positive rationals as fractions, compared by cross multiplication. *)
Definition frac : Type := Z * Z.

Definition dyadic (m e : Z) : frac :=
  if (0 <=? e)%Z then (m * 2 ^ e, 1)%Z else (m, 2 ^ (- e))%Z.

Definition pow10 (n : Z) : frac :=
  if (0 <=? n)%Z then (10 ^ n, 1)%Z else (1, 10 ^ (- n))%Z.

Definition fmul (a b : frac) : frac := (fst a * fst b, snd a * snd b)%Z.
Definition fle (a b : frac) : bool := (fst a * snd b <=? fst b * snd a)%Z.
Definition flt (a b : frac) : bool := (fst a * snd b <? fst b * snd a)%Z.

(** *** [Number.prototype.toString] (radix 10)

    The digits are the shortest decimal [s * 10^(n-k)], with [k] digits,
    that reads back as the same float; among several, the closest one. *)

(** The reals that round to [m * 2^e]: between the midpoints to the two
    neighbouring floats, the midpoints included when [m] is even. *)
Definition upper_mid (m e : Z) : frac := dyadic (2 * m + 1) (e - 1).
Definition lower_mid (m e : Z) : frac :=
  if ((m =? 2 ^ 52) && (emin <? e))%Z then dyadic (4 * m - 1) (e - 2)
  else dyadic (2 * m - 1) (e - 1).

Definition reads_back (m e : Z) (c : frac) : bool :=
  if Z.even m then fle (lower_mid m e) c && fle c (upper_mid m e)
  else flt (lower_mid m e) c && flt c (upper_mid m e).

(** The [n] with [10^(n-1) <= v < 10^n]. *)
Fixpoint dec_exp_from (fuel : nat) (n : Z) (v : frac) : Z :=
  match fuel with
  | O => n
  | S fuel' => if flt v (pow10 n) then n else dec_exp_from fuel' (n + 1)%Z v
  end.
Definition dec_exp (v : frac) : Z := dec_exp_from 640 (-324) v.

(** Search for the least number of digits [k]; the result is [(s, k, n)]. *)
Fixpoint shortest_from (fuel : nat) (k : Z) (m e n0 : Z) : Z * Z * Z :=
  let v := dyadic m e in
  let t := fmul v (pow10 (k - n0)) in
  let s1 := (fst t / snd t)%Z in
  let s2 := (s1 + 1)%Z in
  let at_k (s : Z) := fmul (s, 1%Z) (pow10 (n0 - k)) in
  let carry (s : Z) : Z * Z * Z :=
    if (s =? 10 ^ k)%Z then (10 ^ (k - 1), k, n0 + 1)%Z else (s, k, n0) in
  let upper_closer :=
    match (2 * fst t ?= (s1 + s2) * snd t)%Z with
    | Gt => true
    | Eq => Z.even s2
    | Lt => false
    end in
  match fuel with
  | O => (s1, k, n0)
  | S fuel' =>
      match reads_back m e (at_k s1), reads_back m e (at_k s2) with
      | true, true => if upper_closer then carry s2 else (s1, k, n0)
      | true, false => (s1, k, n0)
      | false, true => carry s2
      | false, false => shortest_from fuel' (k + 1)%Z m e n0
      end
  end.

Definition shortest (m e : Z) : Z * Z * Z :=
  shortest_from 17 1 m e (dec_exp (dyadic m e)).

Definition layout (s k n : Z) : string :=
  let ds := digits s in
  if ((k <=? n) && (n <=? 21))%Z then ds +:+ zeros (Z.to_nat (n - k)%Z)
  else if ((0 <? n) && (n <=? 21))%Z then
    substring 0 (Z.to_nat n) ds +:+ "."
    +:+ substring (Z.to_nat n) (Z.to_nat (k - n)%Z) ds
  else if ((-6 <? n) && (n <=? 0))%Z then "0." +:+ zeros (Z.to_nat (- n)%Z) +:+ ds
  else
    let e := (n - 1)%Z in
    let es := (if (e <? 0)%Z then "-" else "+") +:+ digits (Z.abs e) in
    if (k =? 1)%Z then ds +:+ "e" +:+ es
    else substring 0 1 ds +:+ "." +:+ substring 1 (Z.to_nat (k - 1)%Z) ds
         +:+ "e" +:+ es.

Definition toString (x : number) : string :=
  match x with
  | S754_nan => "NaN"
  | S754_zero _ => "0"
  | S754_infinity s => if s then "-Infinity" else "Infinity"
  | S754_finite s m e =>
      let '(d, k, n) := shortest (Zpos m) e in
      (if s then "-" else "") +:+ layout d k n
  end.

(** *** [Number.prototype.toFixed]

    The integer [n] closest to [x * 10^f], the larger one of two, printed
    with [f] digits after the point. *)
Definition round_half_up (num den : Z) : Z := ((2 * num + den) / (2 * den))%Z.

Definition fixed_string (n : Z) (f : nat) : string :=
  let m := digits n in
  match f with
  | O => m
  | _ =>
      let m := if (String.length m <=? f)%nat
               then zeros (f + 1 - String.length m) +:+ m else m in
      let k := String.length m in
      substring 0 (k - f) m +:+ "." +:+ substring (k - f) f m
  end.

Definition toFixed (x : number) (f : nat) : string :=
  match x with
  | S754_nan => "NaN"
  | S754_infinity s => if s then "-Infinity" else "Infinity"
  | S754_zero _ => fixed_string 0 f
  | S754_finite s m e =>
      let v := dyadic (Zpos m) e in
      if fle (pow10 21) v then toString x
      else (if s then "-" else "")
           +:+ fixed_string (round_half_up (fst v * 10 ^ Z.of_nat f) (snd v)) f
  end.

(** The real value of [x] is above the natural number [n]. *)
Definition exceeds (x : number) (n : Z) : Prop :=
  match x with
  | S754_infinity false => True
  | S754_finite false m e =>
      (n * snd (dyadic (Zpos m) e) < fst (dyadic (Zpos m) e))%Z
  | _ => False
  end.

(** *** Stand-ins for the parsing built-ins

    [parseInt] and [parseFloat] on plain decimal text (leading white space,
    a sign, digits, and for [parseFloat] a fraction); the pages are
    verified for any pair of parsing functions, and these two serve to run
    them on examples. *)
Fixpoint leading_digits (s : string) : string :=
  match s with
  | EmptyString => EmptyString
  | String c s' =>
      if ((48 <=? JS.code c) && (JS.code c <=? 57))%N
      then String c (leading_digits s') else EmptyString
  end.

Fixpoint digits_to_Z (acc : Z) (s : string) : Z :=
  match s with
  | EmptyString => acc
  | String c s' => digits_to_Z (10 * acc + Z.of_N (JS.code c - 48)) s'
  end.

Definition signed (s : string) : bool * string :=
  match JS.trimStart s with
  | String "-" s' => (true, s')
  | String "+" s' => (false, s')
  | s' => (false, s')
  end.

Definition parseInt10 (s : string) : number :=
  let '(neg, body) := signed s in
  match leading_digits body with
  | EmptyString => S754_nan
  | ds => binary_normalize prec emax
            (if neg then - digits_to_Z 0 ds else digits_to_Z 0 ds) 0 neg
  end.

Definition parseFloat10 (s : string) : number :=
  let '(neg, body) := signed s in
  let whole := leading_digits body in
  let rest := substring (String.length whole)
                (String.length body - String.length whole) body in
  let frac := match rest with
              | String "." r => leading_digits r
              | _ => EmptyString
              end in
  match whole +:+ frac with
  | EmptyString => S754_nan
  | ds =>
      div (binary_normalize prec emax
             (if neg then - digits_to_Z 0 ds else digits_to_Z 0 ds) 0 neg)
          (of_Z (10 ^ Z.of_nat (String.length frac)))
  end.

End JSNumber.

(** ** JavaScript values that the pages handle: metadata scalars, rule
    values and [null]/[undefined]. *)
Module JSValue.

Import JSNumber.

Inductive jsvalue :=
| JNull
| JUndefined
| JBool (b : bool)
| JNumber (x : number)
| JString (s : string)
| JArray (l : list string).

Fixpoint join (sep : string) (l : list string) : string :=
  match l with
  | [] => ""
  | [x] => x
  | x :: rest => x +:+ sep +:+ join sep rest
  end.

(** [typeof v === 'number'] and [Array.isArray(v)]. *)
Definition is_number (v : jsvalue) : bool :=
  match v with JNumber _ => true | _ => false end.
Definition isArray (v : jsvalue) : bool :=
  match v with JArray _ => true | _ => false end.

End JSValue.

(** ** The record types that the pages declare *)
Module Types.

Import JSValue.

(** [type ValidationRule]; [value] is [any], [description] is optional. *)
Record ValidationRule := {
  field : string;
  operator : string;
  value : jsvalue;
  action : string;
  description : option string
}.

(** [type WatcherConfig] of [WatcherCreate.tsx]. *)
Record WatcherConfig := {
  recursive : bool;
  include_patterns : list string;
  exclude_patterns : list string;
  event_types : list string;
  auto_delete_excluded : option bool
}.

(** The rule form, [Partial<ValidationRule>]: a field that was never set is
    [undefined] ([None]); a field that was set holds the text of its input. *)
Record RuleForm := {
  form_field : option string;
  form_operator : option string;
  form_value : option string;
  form_action : option string;
  form_description : option string
}.

(** [{ field: '', operator: '>', value: '', action: 'reject', description: '' }] *)
Definition empty_form : RuleForm :=
  {| form_field := Some ""; form_operator := Some ">"; form_value := Some "";
     form_action := Some "reject"; form_description := Some "" |}.

(** [!x] and [x || d] on an optional string. *)
Definition falsy (x : option string) : bool :=
  match x with Some s => negb (JS.truthy s) | None => true end.

Definition or_else (x : option string) (d : string) : string :=
  match x with Some s => if JS.truthy s then s else d | None => d end.

(** [String(raw)] for a raw form value. *)
Definition String_of_raw (raw : option string) : string :=
  match raw with Some s => s | None => "undefined" end.

Definition is_list_operator (op : string) : bool :=
  String.eqb op "in" || String.eqb op "not_in".

(** [String(raw).split(',').map(v => v.trim())] *)
Definition split_trim (raw : string) : list string :=
  map JS.trim (JS.split "," raw).

(** [l.filter((_, i) => i !== idx)] on an array without holes. *)
Fixpoint remove_at {A : Type} (idx : nat) (l : list A) : list A :=
  match l, idx with
  | [], _ => []
  | _ :: rest, O => rest
  | x :: rest, S i => x :: remove_at i rest
  end.

(** The three lists that [toggleVideoField] accepts as its category. *)
Inductive category := video_category | audio_category | general_category.

(** [l.includes(f) ? l.filter(x => x !== f) : [...l, f]] *)
Definition toggle (f : string) (l : list string) : list string :=
  if existsb (String.eqb f) l
  then List.filter (fun x => negb (String.eqb x f)) l
  else (l ++ [f])%list.

(** The invariant of a stored rule: a list, split from the text of the
    input, under [in] and [not_in]; a scalar under every other operator. *)
Definition well_formed (r : ValidationRule) : Prop :=
  if is_list_operator (operator r)
  then exists raw, value r = JArray (split_trim raw)
  else isArray (value r) = false.

End Types.

(** ** [Watchers.tsx] *)
Module Watchers.

Import JSNumber JSValue Types.

(** [type EventItem]. Ids are integers; [created_at] is optional. *)
Record EventItem := {
  id : Z;
  watcher_id : Z;
  event_type : string;
  file_path : string;
  created_at : option string
}.

(** The loop of [load] that fills [latestByWatcher]:
<<
    const map: Record<number, EventItem> = {};
    for (const e of events) {
      if (map[e.watcher_id]) continue; // events are returned newest-first
      map[e.watcher_id] = e;
    }
>>
    [map[k]] is an event object when the key is present, hence truthy,
    and [undefined] otherwise. *)
Definition latest_step (map : gmap Z EventItem) (e : EventItem)
  : gmap Z EventItem :=
  match map !! watcher_id e with
  | Some _ => map
  | None => <[watcher_id e := e]> map
  end.

Definition latestByWatcher (events : list EventItem) : gmap Z EventItem :=
  foldl latest_step ∅ events.

(** Newest first: no event is older than the one that follows it, for the
    time [stamp] at which the server recorded it. *)
Definition newest_first (stamp : EventItem -> Z) (events : list EventItem)
  : Prop :=
  Sorted (fun a b => (stamp b <= stamp a)%Z) events.

(** *** The rule form of the page

    [validation_rules] is a JavaScript array.  [saveEditRule] assigns at an
    index that may have gone stale, which extends the array and leaves
    holes; a spread turns a hole into [undefined], [filter] skips holes. *)
Inductive slot :=
| Hole
| Undefined
| Item (r : ValidationRule).

Definition spread (a : list slot) : list slot :=
  map (fun s => match s with Hole => Undefined | _ => s end) a.

(** [a[i] = x] *)
Definition assign (a : list slot) (i : nat) (x : slot) : list slot :=
  if (i <? length a)%nat then <[i := x]> a
  else (a ++ replicate (i - length a) Hole ++ [x])%list.

(** [a.filter((_, i) => i !== index)] *)
Fixpoint filter_from (i index : nat) (a : list slot) : list slot :=
  match a with
  | [] => []
  | s :: rest =>
      match s with
      | Hole => filter_from (S i) index rest
      | _ => if (i =? index)%nat then filter_from (S i) index rest
             else s :: filter_from (S i) index rest
      end
  end.
Definition filter_index (index : nat) (a : list slot) : list slot :=
  filter_from 0 index a.

(** Every rule that the array holds is well formed. *)
Definition slots_ok (a : list slot) : Prop :=
  forall r, In (Item r) a -> well_formed r.

Record VideoMetadataConfig := {
  extract_video_metadata : bool;
  video_fields : list string;
  audio_fields : list string;
  general_fields : list string;
  custom_fields : list string;
  enable_validation : bool;
  validation_rules : list slot
}.

Definition set_rules (vc : VideoMetadataConfig) (rules : list slot)
  : VideoMetadataConfig :=
  {| extract_video_metadata := extract_video_metadata vc;
     video_fields := video_fields vc;
     audio_fields := audio_fields vc;
     general_fields := general_fields vc;
     custom_fields := custom_fields vc;
     enable_validation := enable_validation vc;
     validation_rules := rules |}.

(** The state of the component that the rule form reads and writes. *)
Record State := {
  videoConfig : VideoMetadataConfig;
  newRule : RuleForm;
  editingIndex : option nat;
  editRule : option RuleForm
}.

Definition initial : State :=
  {| videoConfig :=
       {| extract_video_metadata := false;
          video_fields := ["width"; "height"; "codec_name"; "bit_rate";
                           "frame_rate"; "duration"];
          audio_fields := ["codec_name"; "channels"; "sample_rate"; "bit_rate"];
          general_fields := ["format_name"; "file_size"; "duration";
                             "overall_bit_rate"];
          custom_fields := [];
          enable_validation := false;
          validation_rules := [] |};
     newRule := empty_form;
     editingIndex := None;
     editRule := None |}.

(** What a handler did besides updating the state. *)
Inductive outcome :=
| Done
| Alert (message : string)
| Threw.

Section RuleForm.

(** The built-ins [parseInt], [parseFloat] and the conversion of a string to
    a Number (which the global [isNaN] applies to a value that is not one). *)
Variable parseInt : string -> number.
Variable parseFloat : string -> number.
Variable ToNumber : string -> number.

(** The global [isNaN(v)]: [v] converted to a Number is NaN. *)
Definition global_isNaN (v : jsvalue) : bool :=
  match v with
  | JNull => false
  | JUndefined => true
  | JBool _ => false
  | JNumber x => isNaN x
  | JString s => isNaN (ToNumber s)
  | JArray l => isNaN (ToNumber (join "," l))
  end.

(** [parseRuleValue(operator, raw)] *)
Definition parseRuleValue (operator : string) (raw : option string) : jsvalue :=
  if is_list_operator operator then JArray (split_trim (String_of_raw raw))
  else match raw with
       | Some s => if JS.includes s "." then JNumber (parseFloat s)
                   else JNumber (parseInt s)
       | None => JUndefined
       end.

Definition rule_of_form (f : RuleForm) (parsed : jsvalue) : ValidationRule :=
  {| field := or_else (form_field f) "";
     operator := or_else (form_operator f) "";
     value := parsed;
     action := or_else (form_action f) "reject";
     description := Some (or_else (form_description f) "") |}.

(** [addValidationRule] *)
Definition addValidationRule (st : State) : State * outcome :=
  let f := newRule st in
  if falsy (form_field f) || falsy (form_operator f)
     || bool_decide (form_value f = Some "")
  then (st, Alert "Please fill in all required fields")
  else
    let op := or_else (form_operator f) "" in
    let parsedValue := parseRuleValue op (form_value f) in
    if global_isNaN parsedValue && negb (String.eqb op "in")
       && negb (String.eqb op "not_in")
    then (st, Alert "Invalid value. Please enter a valid number.")
    else
      ({| videoConfig :=
            set_rules (videoConfig st)
              (spread (validation_rules (videoConfig st))
               ++ [Item (rule_of_form f parsedValue)])%list;
          newRule := empty_form;
          editingIndex := editingIndex st;
          editRule := editRule st |}, Done).

(** [removeValidationRule(index)] *)
Definition removeValidationRule (index : nat) (st : State) : State :=
  {| videoConfig :=
       set_rules (videoConfig st)
         (filter_index index (validation_rules (videoConfig st)));
     newRule := newRule st;
     editingIndex := editingIndex st;
     editRule := editRule st |}.

(** [String(v)] and the text that [startEditRule] puts in the form. *)
Definition String_of_value (v : jsvalue) : string :=
  match v with
  | JNull => "null"
  | JUndefined => "undefined"
  | JBool b => if b then "true" else "false"
  | JNumber x => JSNumber.toString x
  | JString s => s
  | JArray l => join "," l
  end.

Definition edit_text (v : jsvalue) : string :=
  match v with
  | JArray l => join ", " l
  | _ => String_of_value v
  end.

(** [startEditRule(index)].  It calls [setEditingIndex(index)] and then
    builds the form from the slot; reading a field of [undefined] throws,
    after the index was set. *)
Definition startEditRule (index : nat) (st : State) : State * outcome :=
  match validation_rules (videoConfig st) !! index with
  | Some (Item r) =>
      ({| videoConfig := videoConfig st;
          newRule := newRule st;
          editingIndex := Some index;
          editRule :=
            Some {| form_field := Some (field r);
                    form_operator := Some (operator r);
                    form_value := Some (edit_text (value r));
                    form_action := Some (action r);
                    form_description :=
                      Some (match description r with Some d => d | None => "" end)
                 |} |}, Done)
  | _ =>
      ({| videoConfig := videoConfig st;
          newRule := newRule st;
          editingIndex := Some index;
          editRule := editRule st |}, Threw)
  end.

(** [cancelEditRule] *)
Definition cancelEditRule (st : State) : State :=
  {| videoConfig := videoConfig st; newRule := newRule st;
     editingIndex := None; editRule := None |}.

(** [saveEditRule] *)
Definition saveEditRule (st : State) : State * outcome :=
  match editingIndex st, editRule st with
  | Some index, Some f =>
      if falsy (form_field f) || falsy (form_operator f)
         || bool_decide (form_value f = None)
      then (st, Alert "Please fill all required fields")
      else
        let op := or_else (form_operator f) "" in
        let parsedValue := parseRuleValue op (form_value f) in
        if global_isNaN parsedValue && negb (String.eqb op "in")
           && negb (String.eqb op "not_in")
        then (st, Alert "Invalid value. Please enter a valid number.")
        else
          ({| videoConfig :=
                set_rules (videoConfig st)
                  (assign (spread (validation_rules (videoConfig st))) index
                     (Item (rule_of_form f parsedValue)));
              newRule := newRule st;
              editingIndex := None;
              editRule := None |}, Done)
  | _, _ => (st, Done)
  end.

(** The handlers of the page that write [videoConfig] or the two forms.
    The inputs call [setNewRule] and [setEditRule] with the form they
    build; a writer of another field of [videoConfig] copies the rules
    unchanged. *)
Inductive action :=
| SetNewRule (f : RuleForm)
| SetEditRule (f : RuleForm)
| AddValidationRule
| RemoveValidationRule (index : nat)
| StartEditRule (index : nat)
| CancelEditRule
| SaveEditRule
| SetExtract (b : bool)
| SetEnableValidation (b : bool)
| ToggleVideoField (c : category) (f : string)
| AddCustomField (f : string)
| RemoveCustomField (index : nat).

Definition step (st : State) (a : action) : State :=
  let vc := videoConfig st in
  let other extract enable video audio general custom :=
    {| videoConfig :=
         {| extract_video_metadata := extract;
            video_fields := video;
            audio_fields := audio;
            general_fields := general;
            custom_fields := custom;
            enable_validation := enable;
            validation_rules := validation_rules vc |};
       newRule := newRule st;
       editingIndex := editingIndex st;
       editRule := editRule st |} in
  match a with
  | SetExtract b =>
      other b (enable_validation vc) (video_fields vc) (audio_fields vc)
        (general_fields vc) (custom_fields vc)
  | SetEnableValidation b =>
      other (extract_video_metadata vc) b (video_fields vc) (audio_fields vc)
        (general_fields vc) (custom_fields vc)
  | ToggleVideoField video_category f =>
      other (extract_video_metadata vc) (enable_validation vc)
        (toggle f (video_fields vc)) (audio_fields vc) (general_fields vc)
        (custom_fields vc)
  | ToggleVideoField audio_category f =>
      other (extract_video_metadata vc) (enable_validation vc)
        (video_fields vc) (toggle f (audio_fields vc)) (general_fields vc)
        (custom_fields vc)
  | ToggleVideoField general_category f =>
      other (extract_video_metadata vc) (enable_validation vc)
        (video_fields vc) (audio_fields vc) (toggle f (general_fields vc))
        (custom_fields vc)
  | AddCustomField f =>
      other (extract_video_metadata vc) (enable_validation vc)
        (video_fields vc) (audio_fields vc) (general_fields vc)
        (if JS.truthy f then (custom_fields vc ++ [f])%list
         else custom_fields vc)
  | RemoveCustomField index =>
      other (extract_video_metadata vc) (enable_validation vc)
        (video_fields vc) (audio_fields vc) (general_fields vc)
        (remove_at index (custom_fields vc))
  | SetNewRule f =>
      {| videoConfig := videoConfig st; newRule := f;
         editingIndex := editingIndex st; editRule := editRule st |}
  | SetEditRule f =>
      {| videoConfig := videoConfig st; newRule := newRule st;
         editingIndex := editingIndex st; editRule := Some f |}
  | AddValidationRule => fst (addValidationRule st)
  | RemoveValidationRule index => removeValidationRule index st
  | StartEditRule index => fst (startEditRule index st)
  | CancelEditRule => cancelEditRule st
  | SaveEditRule => fst (saveEditRule st)
  end.

Definition run (actions : list action) : State := foldl step initial actions.

End RuleForm.

(** *** The Config column of the table *)

(** [type Watcher]; [config] and [video_config] are [any], and the summary
    reads the fields below, each possibly missing. *)
Record ListedConfig := {
  recursive : bool;
  event_types : option (list string);
  include_patterns : option (list string)
}.

Record ListedVideoConfig := {
  listed_extract_video_metadata : bool;
  listed_enable_validation : bool;
  listed_validation_rules : option (list ValidationRule)
}.

Record Watcher := {
  watcher_key : Z;
  name : string;
  path : string;
  config : option ListedConfig;
  video_config : option ListedVideoConfig
}.

Definition String_of_nat (n : nat) : string :=
  NilZero.string_of_uint (Nat.to_uint n).

(** [x?.length] as a condition: a missing or empty list is falsy. *)
Definition has_items (l : option (list string)) : bool :=
  match l with Some (_ :: _) => true | _ => false end.

Definition joined (l : option (list string)) : string :=
  match l with Some xs => join ", " xs | None => "" end.

(** The parts that [configSummary] collects. *)
Definition summary_parts (w : Watcher) : list string :=
  (match config w with
   | Some c =>
       [if recursive c then "Recursive" else "Non-recursive"]
       ++ (if has_items (event_types c)
           then ["Events: " +:+ joined (event_types c)] else [])
       ++ (if has_items (include_patterns c)
           then ["Patterns: " +:+ joined (include_patterns c)] else [])
   | None => []
   end
   ++
   match video_config w with
   | Some vc =>
       if listed_extract_video_metadata vc then
         ["Video: on" +:+
          (if listed_enable_validation vc then
             ", rules: " +:+
             String_of_nat (match listed_validation_rules vc with
                            | Some rs => length rs
                            | None => 0
                            end)
           else "")]
       else []
   | None => []
   end)%list.

(** [parts.join(' | ') || dash]; [None] is the dash of an empty summary. *)
Definition configSummary (w : Watcher) : option string :=
  let s := join " | " (summary_parts w) in
  if JS.truthy s then Some s else None.

End Watchers.

(** ** [WatcherCreate.tsx] *)
Module WatcherCreate.

Import JSNumber JSValue Types.

(** [type VideoMetadataConfig] of this page; its rules array is only ever
    extended by a spread and shortened by [filter], so it has no holes. *)
Record VideoMetadataConfig := {
  extract_video_metadata : bool;
  video_fields : list string;
  audio_fields : list string;
  general_fields : list string;
  custom_fields : list string;
  enable_validation : bool;
  validation_rules : list ValidationRule;
  reject_handling : option string;
  reject_move_to_dir : option string
}.

Definition videoFieldOptions : list string :=
  ["width"; "height"; "duration"; "codec_name"; "codec_long_name"; "profile";
   "level"; "pix_fmt"; "bit_rate"; "frame_rate"; "display_aspect_ratio";
   "pixel_aspect_ratio"; "color_space"; "color_primaries"; "color_transfer";
   "bit_depth"; "scan_type"; "language"].

Definition audioFieldOptions : list string :=
  ["codec_name"; "codec_long_name"; "channels"; "channel_layout";
   "sample_rate"; "bit_rate"; "bit_depth"; "language"].

Definition generalFieldOptions : list string :=
  ["format_name"; "format_long_name"; "file_size"; "duration";
   "overall_bit_rate"; "overall_bit_rate_mode"; "count_of_video_streams";
   "count_of_audio_streams"; "title"; "album"; "track"].

Record State := {
  name : string;
  path : string;
  config : WatcherConfig;
  videoConfig : VideoMetadataConfig;
  newRule : RuleForm
}.

Definition initial : State :=
  {| name := "";
     path := "";
     config :=
       {| recursive := true;
          include_patterns := ["*"];
          exclude_patterns := [];
          event_types := ["created"; "modified"; "deleted"; "rejected"];
          auto_delete_excluded := Some true |};
     videoConfig :=
       {| extract_video_metadata := false;
          video_fields := videoFieldOptions;
          audio_fields := audioFieldOptions;
          general_fields := generalFieldOptions;
          custom_fields := [];
          enable_validation := false;
          validation_rules := [];
          reject_handling := Some "delete";
          reject_move_to_dir := Some "" |};
     newRule := empty_form |}.

Definition numericHints : list string :=
  ["duration"; "width"; "height"; "bit_rate"; "overall_bit_rate";
   "sample_rate"; "frame_rate"; "count"; "file_size"; "level"; "bit_depth";
   "channels"].

(** [isNumericField(fieldKey)]; a missing key is passed as the empty
    string, which [!fieldKey] rejects in the same way. *)
Definition isNumericField (fieldKey : string) : bool :=
  if negb (JS.truthy fieldKey) then false
  else
    let k := JS.toLowerCase fieldKey in
    existsb (fun h => JS.includes k h) numericHints.

Definition raw_value (raw : option string) : jsvalue :=
  match raw with Some s => JString s | None => JUndefined end.

(** The hints without [overall_bit_rate], which [bit_rate] covers. *)
Definition numeric_names : list string :=
  ["duration"; "width"; "height"; "bit_rate"; "frame_rate"; "sample_rate";
   "channels"; "file_size"; "bit_depth"; "level"; "count"].

Section RuleForm.

Variable parseInt : string -> number.
Variable parseFloat : string -> number.

(** [parseRuleValue(field, operator, raw)] *)
Definition parseRuleValue (field operator : string) (raw : option string)
  : jsvalue :=
  if is_list_operator operator then JArray (split_trim (String_of_raw raw))
  else if isNumericField field then
    let s := String_of_raw raw in
    let num := if JS.includes s "." then parseFloat s else parseInt s in
    if isNaN num then raw_value raw else JNumber num
  else raw_value raw.

Definition set_rules (vc : VideoMetadataConfig) (rules : list ValidationRule)
  : VideoMetadataConfig :=
  {| extract_video_metadata := extract_video_metadata vc;
     video_fields := video_fields vc;
     audio_fields := audio_fields vc;
     general_fields := general_fields vc;
     custom_fields := custom_fields vc;
     enable_validation := enable_validation vc;
     validation_rules := rules;
     reject_handling := reject_handling vc;
     reject_move_to_dir := reject_move_to_dir vc |}.

Definition with_videoConfig (st : State) (vc : VideoMetadataConfig) : State :=
  {| name := name st; path := path st; config := config st;
     videoConfig := vc; newRule := newRule st |}.

(** What [addValidationRule] did besides updating the state. *)
Inductive outcome :=
| Done
| Alert (message : string).

(** [addValidationRule] *)
Definition addValidationRule (st : State) : State * outcome :=
  let f := newRule st in
  if falsy (form_field f) || falsy (form_operator f)
     || bool_decide (form_value f = Some "")
  then (st, Alert "Fill all fields")
  else
    let fld := or_else (form_field f) "" in
    let op := or_else (form_operator f) "" in
    let parsedValue := parseRuleValue fld op (form_value f) in
    if isNumericField fld && negb (is_number parsedValue)
    then (st, Alert "Please enter a numeric value for the selected field.")
    else
      ({| name := name st; path := path st; config := config st;
          videoConfig :=
            set_rules (videoConfig st)
              (validation_rules (videoConfig st)
               ++ [ {| field := fld; operator := op; value := parsedValue;
                       action := or_else (form_action f) "reject";
                       description := Some (or_else (form_description f) "") |} ])%list;
          newRule := empty_form |}, Done).

(** The Remove button: [prev.validation_rules.filter((_, i) => i !== idx)] *)
Definition removeRule (idx : nat) (st : State) : State :=
  with_videoConfig st
    (set_rules (videoConfig st) (remove_at idx (validation_rules (videoConfig st)))).

(** The handlers that write [videoConfig] or the rule form.  Each writer of
    another field of [videoConfig] copies the rules unchanged. *)
Inductive action :=
| SetNewRule (f : RuleForm)
| AddValidationRule
| RemoveRule (idx : nat)
| SetExtract (b : bool)
| SetEnableValidation (b : bool)
| SetRejectHandling (h : string)
| SetRejectDir (d : string)
| ToggleVideoField (c : category) (f : string)
| AddCustomField (f : string)
| RemoveCustomField (idx : nat).

Definition step (st : State) (a : action) : State :=
  let vc := videoConfig st in
  let other extract enable handling dir custom :=
    with_videoConfig st
      {| extract_video_metadata := extract;
         video_fields := video_fields vc;
         audio_fields := audio_fields vc;
         general_fields := general_fields vc;
         custom_fields := custom;
         enable_validation := enable;
         validation_rules := validation_rules vc;
         reject_handling := handling;
         reject_move_to_dir := dir |} in
  let lists video audio general :=
    with_videoConfig st
      {| extract_video_metadata := extract_video_metadata vc;
         video_fields := video;
         audio_fields := audio;
         general_fields := general;
         custom_fields := custom_fields vc;
         enable_validation := enable_validation vc;
         validation_rules := validation_rules vc;
         reject_handling := reject_handling vc;
         reject_move_to_dir := reject_move_to_dir vc |} in
  match a with
  | SetNewRule f =>
      {| name := name st; path := path st; config := config st;
         videoConfig := vc; newRule := f |}
  | AddValidationRule => fst (addValidationRule st)
  | RemoveRule idx => removeRule idx st
  | SetExtract b =>
      other b (enable_validation vc) (reject_handling vc)
        (reject_move_to_dir vc) (custom_fields vc)
  | SetEnableValidation b =>
      other (extract_video_metadata vc) b (reject_handling vc)
        (reject_move_to_dir vc) (custom_fields vc)
  | SetRejectHandling h =>
      other (extract_video_metadata vc) (enable_validation vc) (Some h)
        (reject_move_to_dir vc) (custom_fields vc)
  | SetRejectDir d =>
      other (extract_video_metadata vc) (enable_validation vc)
        (reject_handling vc) (Some d) (custom_fields vc)
  | ToggleVideoField video_category f =>
      lists (toggle f (video_fields vc)) (audio_fields vc) (general_fields vc)
  | ToggleVideoField audio_category f =>
      lists (video_fields vc) (toggle f (audio_fields vc)) (general_fields vc)
  | ToggleVideoField general_category f =>
      lists (video_fields vc) (audio_fields vc) (toggle f (general_fields vc))
  | AddCustomField f =>
      other (extract_video_metadata vc) (enable_validation vc)
        (reject_handling vc) (reject_move_to_dir vc)
        (if JS.truthy f then (custom_fields vc ++ [f])%list else custom_fields vc)
  | RemoveCustomField idx =>
      other (extract_video_metadata vc) (enable_validation vc)
        (reject_handling vc) (reject_move_to_dir vc)
        (remove_at idx (custom_fields vc))
  end.

Definition run (st : State) (actions : list action) : State :=
  foldl step st actions.

End RuleForm.

(** The body that [submit] posts to [/watchers/create]:
    [video_config: videoConfig.extract_video_metadata ? videoConfig : null]. *)
Record Payload := {
  payload_name : string;
  payload_path : string;
  payload_config : WatcherConfig;
  payload_video_config : option VideoMetadataConfig
}.

Definition submit (st : State) : Payload :=
  {| payload_name := name st;
     payload_path := path st;
     payload_config := config st;
     payload_video_config :=
       if extract_video_metadata (videoConfig st) then Some (videoConfig st)
       else None |}.

End WatcherCreate.

(** ** [Events.tsx] *)
Module Events.

Import JSNumber JSValue.

(** [type Event]; the two [any] payloads are not read by the filter. *)
Record Event := {
  id : Z;
  watcher_id : Z;
  event_type : string;
  file_path : string;
  created_at : option string
}.

(** The [filters] state, six strings. *)
Record Filters := {
  filter_id : string;
  filter_watcher : string;
  filter_type : string;
  filter_path : string;
  filter_start : string;
  filter_end : string
}.

(** [String(n)] for an integer id. *)
Definition String_of_Z (n : Z) : string := NilZero.string_of_int (Z.to_int n).

(** [formatMetadataValue] *)
Definition formatMetadataValue (value : jsvalue) : string :=
  match value with
  | JNull | JUndefined => "N/A"
  | JNumber x =>
      if gt x (of_Z 1000000) then toFixed (div x (of_Z 1000000)) 2 +:+ "M"
      else if gt x (of_Z 1000) then toFixed (div x (of_Z 1000)) 2 +:+ "K"
      else JSNumber.toString x
  | JBool b => if b then "true" else "false"
  | JString s => s
  | JArray l => join "," l
  end.

Section Filter.

(** [new Date(s).getTime()]: a time in milliseconds, NaN for a string that
    is not a date. *)
Variable getTime : string -> number.

(** The predicate of [filteredItems], one early [return false] per filter. *)
Definition keep (filters : Filters) (e : Event) : bool :=
  if JS.truthy (JS.trim (filter_id filters))
     && negb (JS.includes (String_of_Z (id e)) (JS.trim (filter_id filters)))
  then false
  else if JS.truthy (JS.trim (filter_watcher filters))
     && negb (JS.includes (String_of_Z (watcher_id e))
                (JS.trim (filter_watcher filters)))
  then false
  else if JS.truthy (JS.trim (filter_type filters))
     && negb (String.eqb (JS.toLowerCase (event_type e))
                (JS.toLowerCase (JS.trim (filter_type filters))))
  then false
  else if JS.truthy (JS.trim (filter_path filters))
     && negb (JS.includes (JS.toLowerCase (file_path e))
                (JS.toLowerCase (JS.trim (filter_path filters))))
  then false
  else if JS.truthy (filter_start filters) || JS.truthy (filter_end filters)
  then
    match created_at e with
    | None => false
    | Some c =>
        if negb (JS.truthy c) then false
        else
          let eventTs := getTime c in
          if JS.truthy (filter_start filters)
             && (isFinite (getTime (filter_start filters))
                 && lt eventTs (getTime (filter_start filters)))
          then false
          else if JS.truthy (filter_end filters)
             && (isFinite (getTime (filter_end filters))
                 && gt eventTs (getTime (filter_end filters)))
          then false
          else true
    end
  else true.

Definition filteredItems (filters : Filters) (items : list Event) : list Event :=
  List.filter (keep filters) items.

(** The five filters, each on its own. *)
Definition id_filter (filters : Filters) (e : Event) : bool :=
  negb (JS.truthy (JS.trim (filter_id filters)))
  || JS.includes (String_of_Z (id e)) (JS.trim (filter_id filters)).

Definition watcher_filter (filters : Filters) (e : Event) : bool :=
  negb (JS.truthy (JS.trim (filter_watcher filters)))
  || JS.includes (String_of_Z (watcher_id e)) (JS.trim (filter_watcher filters)).

Definition type_filter (filters : Filters) (e : Event) : bool :=
  negb (JS.truthy (JS.trim (filter_type filters)))
  || String.eqb (JS.toLowerCase (event_type e))
       (JS.toLowerCase (JS.trim (filter_type filters))).

Definition path_filter (filters : Filters) (e : Event) : bool :=
  negb (JS.truthy (JS.trim (filter_path filters)))
  || JS.includes (JS.toLowerCase (file_path e))
       (JS.toLowerCase (JS.trim (filter_path filters))).

(** A bound that is unset, or is not a date, bounds nothing. *)
Definition not_before (bound : string) (ts : number) : bool :=
  negb (JS.truthy bound) || negb (isFinite (getTime bound))
  || negb (lt ts (getTime bound)).

Definition not_after (bound : string) (ts : number) : bool :=
  negb (JS.truthy bound) || negb (isFinite (getTime bound))
  || negb (gt ts (getTime bound)).

Definition date_filter (filters : Filters) (e : Event) : bool :=
  if JS.truthy (filter_start filters) || JS.truthy (filter_end filters)
  then match created_at e with
       | Some c =>
           JS.truthy c
           && not_before (filter_start filters) (getTime c)
           && not_after (filter_end filters) (getTime c)
       | None => false
       end
  else true.

End Filter.

End Events.

(** ** Further string methods: [startsWith] and [replace] *)
Module JSString.

(** [s.startsWith(p)] *)
Definition startsWith (s p : string) : bool := String.prefix p s.

Fixpoint drop (n : nat) (s : string) : string :=
  match n, s with
  | S n', String _ s' => drop n' s'
  | _, _ => s
  end.

(** [s.replace(pat, rep)] for a string pattern and a replacement without
    [$]: the first occurrence of [pat] is replaced, the rest is kept. *)
Fixpoint replace (pat rep s : string) : string :=
  if String.prefix pat s then rep +:+ drop (String.length pat) s
  else match s with
       | EmptyString => EmptyString
       | String c s' => String c (replace pat rep s')
       end.

(** The number of occurrences of a character. *)
Fixpoint count (c : ascii) (s : string) : nat :=
  match s with
  | EmptyString => 0
  | String a s' => (if Ascii.eqb a c then 1 else 0) + count c s'
  end.

End JSString.

(** ** The pattern editors and the event-type check boxes of
    [WatcherCreate.tsx] *)
Module PatternEditor.

Import Types.

Inductive kind := include | exclude.

(** [config] and the two inputs of the inline editors. *)
Record State := {
  config : WatcherConfig;
  newIncludePattern : string;
  newExcludePattern : string
}.

Definition patterns (k : kind) (c : WatcherConfig) : list string :=
  match k with
  | include => include_patterns c
  | exclude => exclude_patterns c
  end.

(** [{ ...prev, include_patterns: l }] or [{ ...prev, exclude_patterns: l }] *)
Definition set_patterns (k : kind) (c : WatcherConfig) (l : list string)
  : WatcherConfig :=
  {| recursive := recursive c;
     include_patterns := match k with include => l | exclude => include_patterns c end;
     exclude_patterns := match k with include => exclude_patterns c | exclude => l end;
     event_types := event_types c;
     auto_delete_excluded := auto_delete_excluded c |}.

Definition input (k : kind) (st : State) : string :=
  match k with
  | include => newIncludePattern st
  | exclude => newExcludePattern st
  end.

(** [addPattern(type)] *)
Definition addPattern (k : kind) (st : State) : State :=
  let pattern := JS.trim (input k st) in
  if negb (JS.truthy pattern) then st
  else
    {| config := set_patterns k (config st)
                   (patterns k (config st) ++ [pattern])%list;
       newIncludePattern :=
         match k with include => "" | exclude => newIncludePattern st end;
       newExcludePattern :=
         match k with include => newExcludePattern st | exclude => "" end |}.

(** [l.filter((_, i) => i !== index)], as the handlers write it: the
    elements are paired with their index and the pair at [index] is
    dropped. *)
Definition filter_not_index {A : Type} (index : nat) (l : list A) : list A :=
  map snd (List.filter (fun ip => negb (fst ip =? index)%nat) (imap pair l)).

(** [removePattern(type, index)] *)
Definition removePattern (k : kind) (index : nat) (st : State) : State :=
  {| config := set_patterns k (config st)
                 (filter_not_index index (patterns k (config st)));
     newIncludePattern := newIncludePattern st;
     newExcludePattern := newExcludePattern st |}.

(** [updatePattern(type, index, value)]:
    [prev.include_patterns.map((p, i) => i === index ? value : p)] *)
Definition updatePattern (k : kind) (index : nat) (value : string) (st : State)
  : State :=
  {| config := set_patterns k (config st)
                 (imap (fun i p => if (i =? index)%nat then value else p)
                    (patterns k (config st)));
     newIncludePattern := newIncludePattern st;
     newExcludePattern := newExcludePattern st |}.

(** [toggleEventType(eventType)] *)
Definition toggleEventType (eventType : string) (st : State) : State :=
  {| config :=
       {| recursive := recursive (config st);
          include_patterns := include_patterns (config st);
          exclude_patterns := exclude_patterns (config st);
          event_types := toggle eventType (event_types (config st));
          auto_delete_excluded := auto_delete_excluded (config st) |};
     newIncludePattern := newIncludePattern st;
     newExcludePattern := newExcludePattern st |}.

(** [l.includes(x)], the [checked] of a check box. *)
Definition includes (l : list string) (x : string) : bool :=
  existsb (String.eqb x) l.

End PatternEditor.

(** ** The controls of the rule row of [WatcherCreate.tsx]

    The row has a field select, an operator select whose options depend on
    the field, a value input, an action select and the Add button; the
    form is only written through them.  A select reports the value of one
    of the options it renders, which the model takes by its position. *)
Module RuleRow.

Import JSNumber JSValue Types WatcherCreate.

Definition comparisons : list string := [">"; "<"; ">="; "<="; "=="; "!="].
Definition equalities : list string := ["=="; "!="].

(** [isNumericField(f) ? ['>','<','>=','<=','==','!='] : ['==','!=']] *)
Definition validOps (fieldKey : string) : list string :=
  if isNumericField fieldKey then comparisons else equalities.

Definition actionOptions : list string := ["reject"; "accept"].
Definition rejectOptions : list string := ["delete"; "move"].

(** [newRule.field!] where a key is read: a missing field is [undefined],
    which [isNumericField] treats as the empty string. *)
Definition field_key (f : RuleForm) : string :=
  match form_field f with Some s => s | None => "" end.

(** The [onChange] of the field select. *)
Definition selectField (fieldVal : string) (f : RuleForm) : RuleForm :=
  let numeric := isNumericField fieldVal in
  let currentOp := or_else (form_operator f) "==" in
  let validOps := if numeric then comparisons else equalities in
  let nextOp :=
    if existsb (String.eqb currentOp) validOps then currentOp else "==" in
  {| form_field := Some fieldVal; form_operator := Some nextOp;
     form_value := form_value f; form_action := form_action f;
     form_description := form_description f |}.

(** The [onChange] of the operator select, for the option at a position. *)
Definition selectOperator (option_index : nat) (f : RuleForm) : RuleForm :=
  match validOps (field_key f) !! option_index with
  | Some op =>
      {| form_field := form_field f; form_operator := Some op;
         form_value := form_value f; form_action := form_action f;
         form_description := form_description f |}
  | None => f
  end.

Definition typeValue (text : string) (f : RuleForm) : RuleForm :=
  {| form_field := form_field f; form_operator := form_operator f;
     form_value := Some text; form_action := form_action f;
     form_description := form_description f |}.

Definition selectAction (option_index : nat) (f : RuleForm) : RuleForm :=
  match actionOptions !! option_index with
  | Some a =>
      {| form_field := form_field f; form_operator := form_operator f;
         form_value := form_value f; form_action := Some a;
         form_description := form_description f |}
  | None => f
  end.

(** What the user does on the video card of the page. *)
Inductive input :=
| SelectField (fieldVal : string)
| SelectOperator (option_index : nat)
| TypeValue (text : string)
| SelectAction (option_index : nat)
| ClickAddRule
| ClickRemove (idx : nat)
| CheckExtract (b : bool)
| CheckEnableValidation (b : bool)
| SelectRejectHandling (option_index : nat)
| TypeRejectDir (d : string).

(** The handler that a control calls, as an action of the page. *)
Definition handler (st : State) (i : input) : action :=
  match i with
  | SelectField fieldVal => SetNewRule (selectField fieldVal (newRule st))
  | SelectOperator k => SetNewRule (selectOperator k (newRule st))
  | TypeValue text => SetNewRule (typeValue text (newRule st))
  | SelectAction k => SetNewRule (selectAction k (newRule st))
  | ClickAddRule => AddValidationRule
  | ClickRemove idx => RemoveRule idx
  | CheckExtract b => SetExtract b
  | CheckEnableValidation b => SetEnableValidation b
  | SelectRejectHandling k =>
      match rejectOptions !! k with
      | Some h => SetRejectHandling h
      | None => SetNewRule (newRule st)
      end
  | TypeRejectDir d => SetRejectDir d
  end.

Section Controls.

Variable parseInt : string -> number.
Variable parseFloat : string -> number.

Definition control (st : State) (i : input) : State :=
  step parseInt parseFloat st (handler st i).

(** The page after a sequence of inputs, from its initial state. *)
Definition use (inputs : list input) : State := foldl control initial inputs.

End Controls.

End RuleRow.

(** ** The rule-field select of [Watchers.tsx] *)
Module WatchersFields.

Import Watchers JSString.

(** [getAvailableFields()] *)
Definition getAvailableFields (vc : VideoMetadataConfig) : list string :=
  (map (fun f => "video_" +:+ f) (video_fields vc)
   ++ map (fun f => "audio_" +:+ f) (audio_fields vc)
   ++ map (fun f => "general_" +:+ f) (general_fields vc)
   ++ map (fun f => "custom_" +:+ f) (custom_fields vc))%list.

(** The text of an option or of a check box: [field.replace('_', ' ')] *)
Definition option_label (field : string) : string := replace "_" " " field.

End WatchersFields.

(** ** The rest of [Events.tsx]: the expanded rows, the Clear buttons and
    the metadata card *)
Module EventsView.

Import JSValue Events JSString.

(** [toggleEventExpansion(eventId)] on the set [expandedEvents]. *)
Definition toggleEventExpansion (eventId : Z) (expandedEvents : gset Z)
  : gset Z :=
  if bool_decide (eventId ∈ expandedEvents)
  then expandedEvents ∖ {[eventId]}
  else expandedEvents ∪ {[eventId]}.

(** The label of the button of a row: [expandedEvents.has(id) ? 'Hide' : 'Show'] *)
Definition button (expandedEvents : gset Z) (eventId : Z) : string :=
  if bool_decide (eventId ∈ expandedEvents) then "Hide" else "Show".

(** The Clear button of the time range:
    [setFilters({ ...filters, start: '', end: '' })] *)
Definition clearRange (f : Filters) : Filters :=
  {| filter_id := filter_id f; filter_watcher := filter_watcher f;
     filter_type := filter_type f; filter_path := filter_path f;
     filter_start := ""; filter_end := "" |}.

(** The Clear button of the column filters:
    [setFilters({ id: '', watcher: '', type: '', path: '',
                  start: filters.start, end: filters.end })] *)
Definition clearColumns (f : Filters) : Filters :=
  {| filter_id := ""; filter_watcher := ""; filter_type := "";
     filter_path := ""; filter_start := filter_start f;
     filter_end := filter_end f |}.

(** [metadata] is an object; its keys come in insertion order. *)
Definition metadata := list (string * jsvalue).

Definition keys (m : metadata) : list string := map fst m.

(** [metadata[field]] *)
Fixpoint get (m : metadata) (field : string) : jsvalue :=
  match m with
  | [] => JUndefined
  | (k, v) :: rest => if String.eqb k field then v else get rest field
  end.

(** The object [categories] of [renderVideoMetadata]. *)
Definition categories (m : metadata) : list (string * list string) :=
  [ ("Video", List.filter (fun key => startsWith key "video_") (keys m));
    ("Audio", List.filter (fun key => startsWith key "audio_") (keys m));
    ("General", List.filter (fun key => startsWith key "general_") (keys m));
    ("Custom", List.filter (fun key => startsWith key "custom_") (keys m)) ].

(** One line of the card: the React key, the label and the value shown. *)
Record line := {
  line_key : string;
  label : string;
  shown : string
}.

(** [renderVideoMetadata(metadata)] for a metadata object: the categories
    that have fields, each with its lines. *)
Definition renderVideoMetadata (m : metadata) : list (string * list line) :=
  flat_map
    (fun '(category, fields) =>
       match fields with
       | [] => []
       | _ =>
           [ (category,
              map (fun field =>
                     let cleanField :=
                       replace (JS.toLowerCase category +:+ "_") "" field in
                     {| line_key := field;
                        label := replace "_" " " cleanField;
                        shown := formatMetadataValue (get m field) |})
                fields) ]
       end)
    (categories m).

End EventsView.

(** ** [Users.tsx]: the edit row and the body of the update request *)
Module Users.

(** [interface User] *)
Record User := {
  id : Z;
  username : string;
  email : string;
  role : string
}.

(** [interface UserUpdate]: an object whose four keys are optional. *)
Abbreviation UserUpdate := (gmap string string).

Record State := {
  editingUser : option User;
  updateForm : UserUpdate
}.

(** [startEdit(user)] *)
Definition startEdit (user : User) : State :=
  {| editingUser := Some user;
     updateForm := <["username" := username user]>
                     (<["email" := email user]>
                        (<["role" := role user]> ∅)) |}.

(** [cancelEdit] *)
Definition cancelEdit : State := {| editingUser := None; updateForm := ∅ |}.

Definition roleOptions : list string := ["user"; "admin"].

(** The inputs of the edit row; the role select reports one of its
    options. *)
Inductive input :=
| TypeUsername (text : string)
| TypeEmail (text : string)
| SelectRole (option_index : nat).

Definition change (st : State) (i : input) : State :=
  {| editingUser := editingUser st;
     updateForm :=
       match i with
       | TypeUsername text => <["username" := text]> (updateForm st)
       | TypeEmail text => <["email" := text]> (updateForm st)
       | SelectRole k =>
           match roleOptions !! k with
           | Some r => <["role" := r]> (updateForm st)
           | None => updateForm st
           end
       end |}.

(** [Object.keys(o)]; the order is that of the model, and what follows
    does not depend on it. *)
Definition Object_keys (o : UserUpdate) : list string := (map_to_list o).*1.

(** [if (updateData[key] === '') delete updateData[key]] *)
Definition removeEmpty (updateData : UserUpdate) (key : string) : UserUpdate :=
  if bool_decide (updateData !! key = Some "") then delete key updateData
  else updateData.

(** The body that [updateUser] sends: a copy of the form without its empty
    fields. *)
Definition updateData (form : UserUpdate) : UserUpdate :=
  foldl removeEmpty form (Object_keys form).

(** [updateUser]: the id of the request and its body; no request when no
    user is being edited. *)
Definition updateUser (st : State) : option (Z * UserUpdate) :=
  match editingUser st with
  | None => None
  | Some user => Some (id user, updateData (updateForm st))
  end.

End Users.

(** ** The token: [auth.ts], [api.ts], [Protected.tsx], [App.tsx] and
    [Login.tsx] *)
Module Auth.

(** What the browser holds: the item [token] of [localStorage], which
    outlives a page load, and
    [api.defaults.headers.common\['Authorization'\]], which does not. *)
Record Browser := {
  stored : option string;
  authorization : option string
}.

Definition fresh : Browser := {| stored := None; authorization := None |}.

(** Truthiness of [string | null]. *)
Definition truthy (v : option string) : bool :=
  match v with Some s => JS.truthy s | None => false end.

Definition bearer (token : string) : string := "Bearer " +:+ token.

(** The setter of [auth.token]. *)
Definition set_auth_token (v : option string) (b : Browser) : Browser :=
  {| stored := if truthy v then v else None;
     authorization := authorization b |}.

(** [setToken(token)] *)
Definition setToken (token : option string) (b : Browser) : Browser :=
  {| stored := stored b;
     authorization :=
       match token with
       | Some t => if JS.truthy t then Some (bearer t) else None
       | None => None
       end |}.

(** The request interceptor, on the [Authorization] header of a request. *)
Definition interceptor (b : Browser) (header : option string) : option string :=
  match stored b with
  | Some t => if JS.truthy t then Some (bearer t) else header
  | None => header
  end.

(** The [Authorization] header that a request of the pages goes out with:
    none of them sets one, so it is the default, passed through the
    interceptor. *)
Definition request (b : Browser) : option string :=
  interceptor b (authorization b).

(** A load of the application: the defaults of [api] are new, and the
    effect of [App] runs. *)
Definition load (b : Browser) : Browser :=
  let b0 := {| stored := stored b; authorization := None |} in
  if truthy (stored b0) then setToken (stored b0) b0 else b0.

(** [submit] of [Login.tsx] when the server answered with a token. *)
Definition login (access_token : option string) (b : Browser) : Browser :=
  setToken access_token (set_auth_token access_token b).

(** [handleLogout] *)
Definition handleLogout (b : Browser) : Browser :=
  {| stored := None; authorization := authorization b |}.

(** [Protected]: [true] when it renders its children, [false] when it
    navigates to the login page. *)
Definition Protected (b : Browser) : bool := truthy (stored b).

Inductive event :=
| PageLoad
| Login (access_token : option string)
| Logout.

Definition step (b : Browser) (e : event) : Browser :=
  match e with
  | PageLoad => load b
  | Login access_token => login access_token b
  | Logout => handleLogout b
  end.

Definition run (events : list event) : Browser := foldl step fresh events.

End Auth.

(** ** [WatcherEdit.tsx]: the page with the two JSON editors *)
Module WatcherEdit.

Import JSNumber JSValue.

(** A value of JSON, which is what [JSON.parse] returns. *)
#[warnings="-register-all"]
Inductive json :=
| Null
| Bool (b : bool)
| Num (x : number)
| Str (s : string)
| Arr (items : list json)
| Obj (members : list (string * json)).

(** [type Watcher]: [config] and [video_config] are [any], and
    [video_config] may be missing. *)
Record Watcher := {
  id : Z;
  name : string;
  path : string;
  config : json;
  video_config : option json
}.

(** The state of the component: [watcher], [saving], [error]. *)
Record State := {
  watcher : option Watcher;
  saving : bool;
  error : string
}.

Definition initial : State :=
  {| watcher := None; saving := false; error := "" |}.

(** [setWatcher(data)] of [load], once the request has answered. *)
Definition loaded (data : Watcher) (st : State) : State :=
  {| watcher := Some data; saving := saving st; error := error st |}.

(** [e.target.value || '{}'] *)
Definition or_empty_object (text : string) : string :=
  if JS.truthy text then text else "{}".

(** The inputs Name and Path; the form is rendered only once [watcher] is
    set. *)
Definition changeName (text : string) (st : State) : State :=
  match watcher st with
  | None => st
  | Some w =>
      {| watcher := Some {| id := id w; name := text; path := path w;
                            config := config w;
                            video_config := video_config w |};
         saving := saving st; error := error st |}
  end.

Definition changePath (text : string) (st : State) : State :=
  match watcher st with
  | None => st
  | Some w =>
      {| watcher := Some {| id := id w; name := name w; path := text;
                            config := config w;
                            video_config := video_config w |};
         saving := saving st; error := error st |}
  end.

Section Page.

(** [JSON.parse]; [None] is the [SyntaxError] that it throws. *)
Variable JSON_parse : string -> option json.

(** [onChange] of the text area Config (JSON). *)
Definition changeConfig (text : string) (st : State) : State :=
  match watcher st with
  | None => st
  | Some w =>
      match JSON_parse (or_empty_object text) with
      | Some v =>
          {| watcher := Some {| id := id w; name := name w; path := path w;
                                config := v;
                                video_config := video_config w |};
             saving := saving st; error := "" |}
      | None =>
          {| watcher := watcher st; saving := saving st;
             error := "Invalid JSON in Config" |}
      end
  end.

(** [onChange] of the text area Video Config (JSON): what parses is stored
    as it is. *)
Definition changeVideoConfig (text : string) (st : State) : State :=
  match watcher st with
  | None => st
  | Some w =>
      match JSON_parse (or_empty_object text) with
      | Some v =>
          {| watcher := Some {| id := id w; name := name w; path := path w;
                                config := config w;
                                video_config := Some v |};
             saving := saving st; error := "" |}
      | None =>
          {| watcher := watcher st; saving := saving st;
             error := "Invalid JSON in Video Config" |}
      end
  end.

Inductive input :=
| Loaded (data : Watcher)
| ChangeName (text : string)
| ChangePath (text : string)
| ChangeConfig (text : string)
| ChangeVideoConfig (text : string).

Definition handler (st : State) (i : input) : State :=
  match i with
  | Loaded data => loaded data st
  | ChangeName text => changeName text st
  | ChangePath text => changePath text st
  | ChangeConfig text => changeConfig text st
  | ChangeVideoConfig text => changeVideoConfig text st
  end.

Definition run (inputs : list input) : State := foldl handler initial inputs.

End Page.

(** The body of the request of [save]: [PUT /watchers/:id]. *)
Record Body := {
  body_name : string;
  body_path : string;
  body_config : json;
  body_video_config : option json
}.

(** [save]; without a watcher it returns before any request. *)
Definition save (st : State) : option Body :=
  match watcher st with
  | None => None
  | Some w =>
      Some {| body_name := name w; body_path := path w;
              body_config := config w;
              body_video_config := video_config w |}
  end.

(** *** Reading a stored configuration *)

(** [o[k]] on the members of an object; of two members of one name
    [JSON.parse] keeps the later. *)
Fixpoint member (k : string) (ms : list (string * json)) : option json :=
  match ms with
  | [] => None
  | (k', v) :: rest =>
      match member k rest with
      | Some later => Some later
      | None => if String.eqb k' k then Some v else None
      end
  end.

Definition property (k : string) (v : json) : option json :=
  match v with Obj ms => member k ms | _ => None end.

Definition text_property (k : string) (v : json) : option string :=
  match property k v with Some (Str s) => Some s | _ => None end.

(** The rules of a video configuration. *)
Definition rules_of (vc : json) : list json :=
  match property "validation_rules" vc with
  | Some (Arr items) => items
  | _ => []
  end.

(** The rules of the body that [save] sends. *)
Definition sent_rules (st : State) : list json :=
  match save st with
  | Some body =>
      match body_video_config body with
      | Some vc => rules_of vc
      | None => []
      end
  | None => []
  end.

Definition as_text (v : json) : option string :=
  match v with Str s => Some s | _ => None end.

Fixpoint all_texts (l : list (option string)) : option (list string) :=
  match l with
  | [] => Some []
  | Some s :: rest => ss ← all_texts rest; Some (s :: ss)
  | None :: _ => None
  end.

(** A value of a rule as the pages type it: a scalar, or a list of
    strings. *)
Definition as_value (v : json) : option jsvalue :=
  match v with
  | Null => Some JNull
  | Bool b => Some (JBool b)
  | Num x => Some (JNumber x)
  | Str s => Some (JString s)
  | Arr items => ss ← all_texts (map as_text items); Some (JArray ss)
  | Obj _ => None
  end.

(** A JSON object as a [ValidationRule]. *)
Definition as_rule (v : json) : option Types.ValidationRule :=
  f ← text_property "field" v;
  op ← text_property "operator" v;
  x ← property "value" v;
  val ← as_value x;
  act ← text_property "action" v;
  Some {| Types.field := f; Types.operator := op; Types.value := val;
          Types.action := act;
          Types.description := text_property "description" v |}.

(** *** A stand-in for [JSON.parse]

    It reads the texts of JSON whose strings have no escape and whose
    numbers are integers; on every other text it answers [None]. *)

Definition is_ws (c : ascii) : bool :=
  let n := JS.code c in
  ((n =? 32) || (n =? 9) || (n =? 10) || (n =? 13))%N.

Fixpoint skip (s : string) : string :=
  match s with
  | String c s' => if is_ws c then skip s' else s
  | EmptyString => s
  end.

(** The characters of a string after its opening quote, and what follows
    the closing one. *)
Fixpoint chars (s : string) : option (string * string) :=
  match s with
  | EmptyString => None
  | String c s' =>
      let n := JS.code c in
      if (n =? 34)%N then Some ("", s')
      else if ((n =? 92) || (n <? 32))%N then None
      else '(t, rest) ← chars s'; Some (String c t, rest)
  end.

Definition is_digit (c : ascii) : bool :=
  let n := JS.code c in ((48 <=? n) && (n <=? 57))%N.

Fixpoint digits (acc : Z) (s : string) : Z * string :=
  match s with
  | String c s' =>
      if is_digit c then digits (10 * acc + Z.of_N (JS.code c - 48)) s'
      else (acc, s)
  | EmptyString => (acc, s)
  end.

Definition integer (s : string) : option (json * string) :=
  match s with
  | String "-" (String c s') =>
      if is_digit c
      then let '(z, rest) := digits 0 (String c s') in
           Some (Num (of_Z (- z)), rest)
      else None
  | String c _ =>
      if is_digit c
      then let '(z, rest) := digits 0 s in Some (Num (of_Z z), rest)
      else None
  | EmptyString => None
  end.

Definition literal (word : string) (v : json) (s : string)
  : option (json * string) :=
  if String.prefix word s
  then Some (v, JSString.drop (String.length word) s)
  else None.

Section Items.

Variable value : string -> option (json * string).

(** The elements of an array after the first bracket, and the members of
    an object after the first brace. *)
Fixpoint elements (n : nat) (s : string) : option (list json * string) :=
  match n with
  | O => None
  | S n' =>
      '(v, rest) ← value s;
      match skip rest with
      | String "," rest' =>
          '(vs, rest'') ← elements n' rest'; Some (v :: vs, rest'')
      | String "]" rest' => Some ([v], rest')
      | _ => None
      end
  end.

Fixpoint members (n : nat) (s : string)
  : option (list (string * json) * string) :=
  match n with
  | O => None
  | S n' =>
      match skip s with
      | String c rest =>
          if (JS.code c =? 34)%N then
            '(k, rest1) ← chars rest;
            match skip rest1 with
            | String ":" rest2 =>
                '(v, rest3) ← value rest2;
                match skip rest3 with
                | String "," rest4 =>
                    '(ms, rest5) ← members n' rest4;
                    Some ((k, v) :: ms, rest5)
                | String "}" rest4 => Some ([(k, v)], rest4)
                | _ => None
                end
            | _ => None
            end
          else None
      | EmptyString => None
      end
  end.

End Items.

Fixpoint value (fuel : nat) (s : string) : option (json * string) :=
  match fuel with
  | O => None
  | S k =>
      match skip s with
      | String c rest =>
          let n := JS.code c in
          if (n =? 34)%N then
            '(t, rest') ← chars rest; Some (Str t, rest')
          else if (n =? 91)%N then
            match skip rest with
            | String "]" rest' => Some (Arr [], rest')
            | _ => '(vs, rest') ← elements (value k) k rest;
                   Some (Arr vs, rest')
            end
          else if (n =? 123)%N then
            match skip rest with
            | String "}" rest' => Some (Obj [], rest')
            | _ => '(ms, rest') ← members (value k) k rest;
                   Some (Obj ms, rest')
            end
          else if is_digit c || (n =? 45)%N then integer (String c rest)
          else
            match literal "true" (Bool true) (String c rest) with
            | Some r => Some r
            | None =>
                match literal "false" (Bool false) (String c rest) with
                | Some r => Some r
                | None => literal "null" Null (String c rest)
                end
            end
      | EmptyString => None
      end
  end.

Definition parse (text : string) : option json :=
  match value (S (String.length text)) text with
  | Some (v, rest) =>
      match skip rest with EmptyString => Some v | _ => None end
  | None => None
  end.

End WatcherEdit.

(** ** The watcher runtime

    The runtime (pattern matcher, filter, validation engine, session and
    manager) is the server side of the application; its code is not among
    the files of the front end, so it is modelled from the specification,
    section by section. *)
Module Runtime.

(** *** Data model (specification, section 3) *)

Inductive Scalar :=
| SNum (q : Q)
| SStr (s : string).

Inductive RuleValue :=
| Single (v : Scalar)
| Many (l : list string).

Inductive Operator := OpGt | OpLt | OpGe | OpLe | OpEq | OpNe | OpIn | OpNotIn.

Inductive Action := Reject | Accept.

Record ValidationRule := {
  field : string;
  operator : Operator;
  value : RuleValue;
  action : Action;
  description : option string
}.

Inductive EventType := created | modified | deleted | rejected.

Inductive RejectHandling := HandleDelete | HandleMove.

Record Config := {
  recursive : bool;
  include_patterns : list string;
  exclude_patterns : list string;
  event_types : list EventType;
  auto_delete_excluded : bool
}.

Record VideoConfig := {
  extract_metadata : bool;
  video_fields : list string;
  audio_fields : list string;
  general_fields : list string;
  custom_fields : list string;
  enable_validation : bool;
  validation_rules : list ValidationRule;
  reject_handling : RejectHandling;
  reject_move_to_dir : option string
}.

Record Watcher := {
  id : nat;
  name : string;
  path : string;
  config : Config;
  video_config : option VideoConfig
}.

Record RuleOutcome := {
  outcome_field : string;
  outcome_operator : Operator;
  outcome_value : RuleValue;
  actual_value : Scalar;
  outcome_action : Action;
  outcome_description : option string
}.

Record ValidationResult := {
  valid : bool;
  rules_checked : nat;
  failed_rules : list RuleOutcome
}.

Record Event := {
  watcher_id : nat;
  event_type : EventType;
  file_path : string;
  video_metadata : option (gmap string Scalar);
  validation_result : option ValidationResult
}.

Definition EventType_eqb (a b : EventType) : bool :=
  match a, b with
  | created, created | modified, modified
  | deleted, deleted | rejected, rejected => true
  | _, _ => false
  end.

(** *** PatternMatcher (specification, section 4.1) *)

(** One glob without braces against a path: [*] stands for any run of
    characters, [?] for one character. *)
Fixpoint glob (p s : list ascii) : bool :=
  match p with
  | [] => match s with [] => true | _ => false end
  | c :: p' =>
      if Ascii.eqb c "*" then
        (fix star (s : list ascii) : bool :=
           glob p' s || match s with [] => false | _ :: s' => star s' end) s
      else
        match s with
        | [] => false
        | d :: s' => (Ascii.eqb c "?" || Ascii.eqb c d) && glob p' s'
        end
  end.

(** The text before the first [stop] and the text after it. *)
Fixpoint cut (stop : ascii) (s : string) : option (string * string) :=
  match s with
  | EmptyString => None
  | String c s' =>
      if Ascii.eqb c stop then Some (EmptyString, s')
      else match cut stop s' with
           | Some (a, b) => Some (String c a, b)
           | None => None
           end
  end.

(** Brace alternation: [pre{a,b}post] becomes [preapost] and [prebpost],
    and so on for the braces that remain.  Each round removes a pair of
    braces, so the length of the pattern is enough fuel. *)
Fixpoint expand (fuel : nat) (p : string) : list string :=
  match fuel with
  | O => [p]
  | S fuel' =>
      match cut "{" p with
      | None => [p]
      | Some (pre, rest) =>
          match cut "}" rest with
          | None => [p]
          | Some (body, post) =>
              flat_map (fun alt => expand fuel' (pre +:+ alt +:+ post))
                (JS.split "," body)
          end
      end
  end.

(** Modelled from the spec: [PatternMatcher.matches] (4.1), whose code is
    not in the front end's files: true if any pattern matches, without
    regard to case, after brace expansion. *)
Definition matches (path : string) (patterns : list string) : bool :=
  existsb
    (fun pat =>
       existsb
         (fun g => glob (list_ascii_of_string g)
                     (list_ascii_of_string (JS.toLowerCase path)))
         (expand (String.length pat) (JS.toLowerCase pat)))
    patterns.

(** An empty include list is the default [['*']]. *)
Definition isIncluded (c : Config) (path : string) : bool :=
  matches path (match include_patterns c with [] => ["*"] | ps => ps end).

Definition isExcluded (c : Config) (path : string) : bool :=
  matches path (exclude_patterns c).

(** *** The disk

    The files that exist, and those whose removal fails (a permission that
    was revoked, a file that is held open). *)
Record FileSystem := {
  files : gset string;
  undeletable : gset string
}.

Definition file_exists (fs : FileSystem) (p : string) : bool :=
  bool_decide (p ∈ files fs).

(** Removal either succeeds or raises an error, [None]. *)
Definition unlink (fs : FileSystem) (p : string) : option FileSystem :=
  if bool_decide (p ∈ files fs) && negb (bool_decide (p ∈ undeletable fs))
  then Some {| files := files fs ∖ {[p]}; undeletable := undeletable fs |}
  else None.

(** *** FileEventFilter (specification, section 4.2) *)

Inductive Kind := KCreated | KModified | KDeleted.

Definition type_of_kind (k : Kind) : EventType :=
  match k with KCreated => created | KModified => modified | KDeleted => deleted end.

Inductive Verdict := Drop | Pass.

Record Filtered := {
  verdict : Verdict;
  disk : FileSystem;
  logged : list string
}.

(** Modelled from the spec: the decision algorithm of [FileEventFilter]
    (4.2, steps 1 to 5), whose code is not in the front end's files. *)
Definition file_event_filter (c : Config) (fs : FileSystem)
    (path : string) (kind : Kind) : Filtered :=
  if negb (existsb (EventType_eqb (type_of_kind kind)) (event_types c))
  then {| verdict := Drop; disk := fs; logged := [] |}
  else if negb (isIncluded c path) || isExcluded c path then
    if auto_delete_excluded c
       && negb (EventType_eqb (type_of_kind kind) deleted)
       && file_exists fs path
    then match unlink fs path with
         | Some fs' => {| verdict := Drop; disk := fs'; logged := [] |}
         | None => {| verdict := Drop; disk := fs;
                      logged := ["could not delete " +:+ path] |}
         end
    else {| verdict := Drop; disk := fs; logged := [] |}
  else {| verdict := Pass; disk := fs; logged := [] |}.

(** *** ValidationEngine (specification, section 4.4) *)

(** The fields that the specification lists as numeric. *)
Definition known_numeric_fields : list string :=
  ["duration"; "width"; "height"; "bit_rate"; "frame_rate"; "sample_rate";
   "channels"; "file_size"; "bit_depth"; "count"].

Definition known_numeric_field (f : string) : bool :=
  existsb (fun k => JS.includes f k) known_numeric_fields.

Definition is_duration_field (f : string) : bool := JS.includes f "duration".

(** A decimal literal: an optional sign, digits, and an optional fraction. *)
Fixpoint digits_value (acc : Z) (s : string) : option Z :=
  match s with
  | EmptyString => Some acc
  | String c s' =>
      let n := JS.code c in
      if ((48 <=? n) && (n <=? 57))%N
      then digits_value (10 * acc + Z.of_N (n - 48)) s'
      else None
  end.

Definition unsigned_number (s : string) : option Q :=
  match cut "." s with
  | None =>
      match s with
      | EmptyString => None
      | _ => z ← digits_value 0 s; Some (inject_Z z)
      end
  | Some (whole, frac) =>
      match whole, frac with
      | EmptyString, EmptyString => None
      | _, _ =>
          w ← digits_value 0 whole;
          f ← digits_value 0 frac;
          Some (Qmake (w * 10 ^ Z.of_nat (String.length frac) + f)
                  (Z.to_pos (10 ^ Z.of_nat (String.length frac))))
      end
  end.

Definition parse_number (s : string) : option Q :=
  match s with
  | String "-" s' => q ← unsigned_number s'; Some (- q)%Q
  | String "+" s' => unsigned_number s'
  | _ => unsigned_number s
  end.

Definition to_number (v : Scalar) : option Q :=
  match v with SNum q => Some q | SStr s => parse_number s end.

(** The digits of the fraction [r / d], by long division, as many as
    [fuel]. *)
Fixpoint fraction_digits (fuel : nat) (r d : Z) : string :=
  match fuel with
  | O => ""
  | S k =>
      if (r =? 0)%Z then ""
      else String (ascii_of_N (48 + Z.to_N (10 * r / d)))
             (fraction_digits k (10 * r mod d) d)
  end.

(** The decimal text of a number: 51 is "51", a half is "0.5"; at most
    twenty digits of the fraction are written. *)
Definition number_text (q : Q) : string :=
  let n := Z.abs (Qnum q) in
  let d := Z.pos (Qden q) in
  (if (Qnum q <? 0)%Z then "-" else "")
  +:+ NilZero.string_of_uint (N.to_uint (Z.to_N (n / d)))
  +:+ (if (n mod d =? 0)%Z then ""
       else "." +:+ fraction_digits 20 (n mod d) d).

(** Under a field that is not numeric every value is compared as a string:
    a string as it is, a number as its decimal text. *)
Definition to_text (v : Scalar) : string :=
  match v with SStr s => s | SNum q => number_text q end.

Definition compare_numbers (op : Operator) (a b : Q) : bool :=
  match op with
  | OpGt => negb (Qle_bool a b)
  | OpLt => negb (Qle_bool b a)
  | OpGe => Qle_bool b a
  | OpLe => Qle_bool a b
  | OpEq | OpIn => Qeq_bool a b
  | OpNe | OpNotIn => negb (Qeq_bool a b)
  end.

Definition compare_strings (op : Operator) (a b : string) : bool :=
  match op with
  | OpGt => String.ltb b a
  | OpLt => String.ltb a b
  | OpGe => String.leb b a
  | OpLe => String.leb a b
  | OpEq | OpIn => String.eqb a b
  | OpNe | OpNotIn => negb (String.eqb a b)
  end.

Definition is_membership (op : Operator) : bool :=
  match op with OpIn | OpNotIn => true | _ => false end.

(** All of a list of optional values, or nothing. *)
Fixpoint all_some {A : Type} (l : list (option A)) : option (list A) :=
  match l with
  | [] => Some []
  | Some x :: rest => xs ← all_some rest; Some (x :: xs)
  | None :: _ => None
  end.

(** A value of the metadata as the engine receives it.  The specification
    normalizes a duration "if the raw value is expressed in smaller units":
    the unit belongs to the value, so a raw value that is expressed in
    milliseconds reaches the engine as such, and every other value plain. *)
Inductive Measured :=
| Plain (v : Scalar)
| Milliseconds (v : Scalar).

(** The raw value, which the failed rules record. *)
Definition raw (m : Measured) : Scalar :=
  match m with Plain v => v | Milliseconds v => v end.

(** The number of an actual value under field [f]: a duration that is
    expressed in milliseconds is brought to seconds, every other value is
    parsed as it is; [None] is a value that is not a number. *)
Definition normalize (f : string) (m : Measured) : option Q :=
  match m with
  | Plain v => to_number v
  | Milliseconds v =>
      q ← to_number v;
      Some (if is_duration_field f then (q / 1000)%Q else q)
  end.

(** The operator on a numeric field.  The specification does not say what
    an actual value that is not a number compares to, and section 7 skips
    a rule for its own value only: the rule is evaluated, and such a value
    is equal to no number and is not ordered with any. *)
Definition numeric (op : Operator) (a : option Q) (b : Q) : bool :=
  match a with
  | Some a => compare_numbers op a b
  | None => match op with OpNe | OpNotIn => true | _ => false end
  end.

(** A malformed rule value (section 7): one that breaks the invariant of
    the data model (a scalar under [in] or [not_in], a list under another
    operator), or one that is not a number under a numeric field. *)
Definition malformed (f : string) (op : Operator) (v : RuleValue) : bool :=
  match v with
  | Single x =>
      is_membership op
      || (known_numeric_field f && negb (bool_decide (is_Some (to_number x))))
  | Many l =>
      negb (is_membership op)
      || (known_numeric_field f
          && negb (forallb (fun s => bool_decide (is_Some (parse_number s))) l))
  end.

(** Modelled from the spec: steps 2 and 3 of the engine (4.4), whose code
    is not in the front end's files.  [Some b] is the outcome of the
    comparison; [None] is a rule whose value is malformed, which section 7
    has skipped. *)
Definition condition (f : string) (op : Operator) (v : RuleValue)
    (actual : Measured) : option bool :=
  match v with
  | Single x =>
      if is_membership op then None
      else if known_numeric_field f then
        b ← to_number x;
        Some (numeric op (normalize f actual) b)
      else
        Some (compare_strings op (to_text (raw actual)) (to_text x))
  | Many l =>
      if negb (is_membership op) then None
      else
        found ←
          (if known_numeric_field f then
             bs ← all_some (map parse_number l);
             Some (existsb (fun b => numeric OpEq (normalize f actual) b) bs)
           else
             Some (existsb (String.eqb (to_text (raw actual))) l));
        Some (match op with OpNotIn => negb found | _ => found end)
  end.

Definition outcome_of (r : ValidationRule) (actual : Measured) : RuleOutcome :=
  {| outcome_field := field r;
     outcome_operator := operator r;
     outcome_value := value r;
     actual_value := raw actual;
     outcome_action := action r;
     outcome_description := description r |}.

(** Step 4: a reject rule fails the file when its condition holds, an
    accept rule when it does not. *)
Definition fails (a : Action) (holds : bool) : bool :=
  match a with Reject => holds | Accept => negb holds end.

(** One round of the loop over the rules. *)
Definition check (metadata : gmap string Measured) (acc : ValidationResult)
    (r : ValidationRule) : ValidationResult :=
  match metadata !! field r with
  | None => acc
  | Some actual =>
      match condition (field r) (operator r) (value r) actual with
      | Some holds =>
          if fails (action r) holds then
            {| valid := false;
               rules_checked := S (rules_checked acc);
               failed_rules := failed_rules acc ++ [outcome_of r actual] |}
          else
            {| valid := valid acc;
               rules_checked := S (rules_checked acc);
               failed_rules := failed_rules acc |}
      | None =>
          {| valid := valid acc;
             rules_checked := S (rules_checked acc);
             failed_rules := failed_rules acc |}
      end
  end.

(** Modelled from the spec: [ValidationEngine.evaluate] (4.4), whose code is
    not in the front end's files: every rule is evaluated in order, none
    short-circuits. *)
Definition evaluate (metadata : gmap string Measured)
    (rules : list ValidationRule) : ValidationResult :=
  foldl (check metadata)
    {| valid := true; rules_checked := 0; failed_rules := [] |} rules.

(** The comparison of a rule against a metadata map, when there is one. *)
Definition comparison (metadata : gmap string Measured) (r : ValidationRule)
  : option bool :=
  actual ← metadata !! field r;
  condition (field r) (operator r) (value r) actual.

(** The scenario of the specification: a file whose format is MOV under the
    rule that accepts MP4, AVI and MKV. *)
Definition mov_metadata : gmap string Measured :=
  {[ "general_format_name" := Plain (SStr "MOV") ]}.

Definition accepted_formats : ValidationRule :=
  {| field := "general_format_name"; operator := OpIn;
     value := Many ["MP4"; "AVI"; "MKV"]; action := Accept;
     description := None |}.

(** Whether a rule fails the file, and the entry it then adds. *)
Definition rule_fails (metadata : gmap string Measured) (r : ValidationRule)
  : bool :=
  match comparison metadata r with
  | Some holds => fails (action r) holds
  | None => false
  end.

Definition failure (metadata : gmap string Measured) (r : ValidationRule)
  : list RuleOutcome :=
  match metadata !! field r with
  | Some actual => if rule_fails metadata r then [outcome_of r actual] else []
  | None => []
  end.

Definition resolvable (metadata : gmap string Measured) (r : ValidationRule)
  : bool :=
  bool_decide (is_Some (metadata !! field r)).

(** *** WatcherSession (specification, section 4.5) *)

Section WatcherSession.

(** Whether the extractor's tool expresses a raw duration in milliseconds,
    which the specification leaves to the tool. *)
Variable in_milliseconds : Q -> bool.

(** The value of field [f] as the session hands it to the engine. *)
Definition measure (f : string) (v : Scalar) : Measured :=
  match to_number v with
  | Some q =>
      if is_duration_field f && in_milliseconds q then Milliseconds v
      else Plain v
  | None => Plain v
  end.

Definition measured (md : gmap string Scalar) : gmap string Measured :=
  map_imap (fun f v => Some (measure f v)) md.

(** The extractor, which reads the file with an external tool; [None] is
    [ExtractionFailure]. *)
Variable extract : string -> VideoConfig -> option (gmap string Scalar).

(** The move of a rejected file into a directory, which chooses the new
    name; [None] is a move that failed. *)
Variable relocate : FileSystem -> string -> option string
                    -> option (FileSystem * string).

Record Processed := {
  disk_after : FileSystem;
  log : list string;
  recorded : list Event
}.

Definition emit (w : Watcher) (fs : FileSystem) (lg : list string)
    (t : EventType) (p : string) (md : option (gmap string Scalar))
    (res : option ValidationResult) : Processed :=
  {| disk_after := fs; log := lg;
     recorded := [ {| watcher_id := id w; event_type := t; file_path := p;
                      video_metadata := md; validation_result := res |} ] |}.

(** What a session records for a file that it does not enrich. *)
Definition plain_event (w : Watcher) (kind : Kind) (p : string) : Event :=
  {| watcher_id := id w; event_type := type_of_kind kind; file_path := p;
     video_metadata := None; validation_result := None |}.

(** A watcher whose stored [enable_validation] is [b]. *)
Definition set_enable_validation (b : bool) (w : Watcher) : Watcher :=
  {| id := id w; name := name w; path := path w; config := config w;
     video_config :=
       match video_config w with
       | Some vc =>
           Some {| extract_metadata := extract_metadata vc;
                   video_fields := video_fields vc;
                   audio_fields := audio_fields vc;
                   general_fields := general_fields vc;
                   custom_fields := custom_fields vc;
                   enable_validation := b;
                   validation_rules := validation_rules vc;
                   reject_handling := reject_handling vc;
                   reject_move_to_dir := reject_move_to_dir vc |}
       | None => None
       end |}.

(** Validation applies to extracted metadata only. *)
Definition validation_enabled (vc : VideoConfig) : bool :=
  extract_metadata vc && enable_validation vc.

(** The reject-handling policy, reached when the result is not valid. *)
Definition reject (w : Watcher) (vc : VideoConfig) (fs : FileSystem)
    (p : string) (md : gmap string Scalar) (res : ValidationResult)
  : Processed :=
  match reject_handling vc with
  | HandleDelete =>
      match unlink fs p with
      | Some fs' => emit w fs' [] rejected p (Some md) (Some res)
      | None => emit w fs ["could not delete " +:+ p] rejected p
                  (Some md) (Some res)
      end
  | HandleMove =>
      match relocate fs p (reject_move_to_dir vc) with
      | Some (fs', p') => emit w fs' [] rejected p' (Some md) (Some res)
      | None => emit w fs ["could not move " +:+ p] rejected p
                  (Some md) (Some res)
      end
  end.

(** Modelled from the spec: what a running session does with one
    notification (4.5, with the edge case of 4.2 and the failure rule of
    4.3); its code is not in the front end's files. *)
Definition process (w : Watcher) (fs : FileSystem) (p : string) (kind : Kind)
  : Processed :=
  let f := file_event_filter (config w) fs p kind in
  match verdict f with
  | Drop => {| disk_after := disk f; log := logged f; recorded := [] |}
  | Pass =>
      match kind with
      | KDeleted => emit w (disk f) [] deleted p None None
      | _ =>
          match video_config w with
          | None => emit w (disk f) [] (type_of_kind kind) p None None
          | Some vc =>
              if extract_metadata vc then
                match extract p vc with
                | None => emit w (disk f) [] (type_of_kind kind) p None None
                | Some md =>
                    if validation_enabled vc then
                      let res := evaluate (measured md) (validation_rules vc) in
                      if valid res
                      then emit w (disk f) [] (type_of_kind kind) p
                             (Some md) (Some res)
                      else reject w vc (disk f) p md res
                    else emit w (disk f) [] (type_of_kind kind) p
                           (Some md) None
                end
              else emit w (disk f) [] (type_of_kind kind) p None None
          end
      end
  end.

End WatcherSession.

(** *** WatcherManager (specification, section 4.6) *)

(** A session serves one watcher id and holds the snapshot of the
    configuration taken at its start; [handle] tells two sessions apart. *)
Record Session := {
  handle : nat;
  serves : nat;
  snapshot : Watcher
}.

(** The stored watchers, the registry of running sessions by watcher id, the
    sessions that are alive, and the number of sessions created so far. *)
Record Manager := {
  storage : gmap nat Watcher;
  registry : gmap nat Session;
  live : list Session;
  created_sessions : nat
}.

Inductive Status :=
| Success
| Failed (why : string).

Definition isRunning (m : Manager) (i : nat) : bool :=
  bool_decide (is_Some (registry m !! i)).

Definition listRunning (m : Manager) : gset nat := dom (registry m).

Definition sessions_of (i : nat) (m : Manager) : list Session :=
  List.filter (fun s => Nat.eqb (serves s) i) (live m).

Section Manager.

(** Whether a path exists and is readable when a session starts. *)
Variable readable : string -> bool.

(** Modelled from the spec: [WatcherManager.start] (4.6 and the [Starting]
    state of 4.5), whose code is not in the front end's files. *)
Definition start (i : nat) (m : Manager) : Manager * Status :=
  if isRunning m i then (m, Success)
  else
    match storage m !! i with
    | None => (m, Failed "no such watcher")
    | Some w =>
        if readable (path w) then
          let s := {| handle := created_sessions m; serves := i;
                      snapshot := w |} in
          ({| storage := storage m;
              registry := <[i := s]> (registry m);
              live := live m ++ [s];
              created_sessions := S (created_sessions m) |}, Success)
        else (m, Failed "path is not readable")
    end.

(** Modelled from the spec: [WatcherManager.stop] (4.6), whose code is not
    in the front end's files. *)
Definition stop (i : nat) (m : Manager) : Manager * Status :=
  match registry m !! i with
  | None => (m, Success)
  | Some s =>
      ({| storage := storage m;
          registry := delete i (registry m);
          live := List.filter (fun s' => negb (Nat.eqb (handle s') (handle s)))
                    (live m);
          created_sessions := created_sessions m |}, Success)
  end.

End Manager.

(** A manager whose registry and live sessions agree: the sessions of a
    watcher are the one that the registry holds for it, handles are unique
    and below the counter. *)
Definition coherent (m : Manager) : Prop :=
  (forall i, sessions_of i m =
             match registry m !! i with Some s => [s] | None => [] end)
  /\ (forall s, In s (live m) -> (handle s < created_sessions m)%nat)
  /\ (forall s s', In s (live m) -> In s' (live m) ->
                   handle s = handle s' -> s = s').

Definition empty_manager (watchers : gmap nat Watcher) : Manager :=
  {| storage := watchers; registry := ∅; live := []; created_sessions := 0 |}.

(** *** A watcher for the examples

    It keeps MP4 and MKV files, subscribes to creations only, and deletes
    what it excludes. *)
Definition clips_config : Config :=
  {| recursive := true;
     include_patterns := ["*.{mp4,mkv}"];
     exclude_patterns := ["*.part.mp4"];
     event_types := [created];
     auto_delete_excluded := true |}.

Definition clips_watcher : Watcher :=
  {| id := 3; name := "clips"; path := "/in"; config := clips_config;
     video_config :=
       Some {| extract_metadata := false;
               video_fields := ["height"];
               audio_fields := [];
               general_fields := ["format_name"];
               custom_fields := [];
               enable_validation := true;
               validation_rules := [accepted_formats];
               reject_handling := HandleDelete;
               reject_move_to_dir := None |} |}.

Definition clips_disk : FileSystem :=
  {| files := {[ "/in/notes.txt"; "/in/clip.MP4"; "/in/held.txt" ]};
     undeletable := {[ "/in/held.txt" ]} |}.

(** An extractor that finds no media, and a move that always fails. *)
Definition no_metadata (p : string) (vc : VideoConfig)
  : option (gmap string Scalar) := None.

Definition no_move (fs : FileSystem) (p : string) (dir : option string)
  : option (FileSystem * string) := None.

End Runtime.

(** * Properties

    ** The string and Number operations on examples *)

Example includes_substring :
  JS.includes "video_bit_rate" "bit_rate" = true
  /\ JS.includes "video_codec" "bit_rate" = false
  /\ JS.includes "" "" = true.
Proof. repeat split. Qed.

Example trim_and_split :
  JS.trim "  MP4 " = "MP4"
  /\ JS.split "," "MP4, AVI,,MKV" = ["MP4"; " AVI"; ""; "MKV"]
  /\ JS.split "," "" = [""]
  /\ Types.split_trim " MP4 , AVI,MKV " = ["MP4"; "AVI"; "MKV"].
Proof. repeat split. Qed.

Example toLowerCase_mixed : JS.toLowerCase "Video_Height" = "video_height".
Proof. reflexivity. Qed.

Example number_toString_samples :
  JSNumber.toString (JSNumber.of_Z 1000) = "1000"
  /\ JSNumber.toString (JSNumber.div (JSNumber.of_Z 2997) (JSNumber.of_Z 100))
     = "29.97"
  /\ JSNumber.toString (JSNumber.div (JSNumber.of_Z 1) (JSNumber.of_Z 3))
     = "0.3333333333333333"
  /\ JSNumber.toString (JSNumber.of_Z (10 ^ 21)) = "1e+21"
  /\ JSNumber.toString (S754_finite false 1 (-1074)) = "5e-324".
Proof. repeat split; vm_compute; reflexivity. Qed.

Example number_toFixed_samples :
  JSNumber.toFixed (JSNumber.div (JSNumber.of_Z 1005) (JSNumber.of_Z 1000)) 2
  = "1.00"
  /\ JSNumber.toFixed (JSNumber.div (JSNumber.of_Z 12345678) (JSNumber.of_Z 1000)) 2
     = "12345.68"
  /\ JSNumber.toFixed (JSNumber.div (JSNumber.of_Z (-1)) (JSNumber.of_Z 1000)) 2
     = "-0.00"
  /\ JSNumber.toFixed (JSNumber.div (JSNumber.of_Z 5) (JSNumber.of_Z 2)) 0 = "3".
Proof. repeat split; vm_compute; reflexivity. Qed.

Example glob_patterns :
  Runtime.matches "/in/Clip.MP4" ["*.{mp4,mkv}"] = true
  /\ Runtime.matches "/in/clip.mov" ["*.{mp4,mkv}"] = false
  /\ Runtime.matches "/in/a1.log" ["*/a?.log"] = true
  /\ Runtime.matches "/in/clip.mp4" [] = false
  /\ Runtime.expand 11 "*.{mp4,mkv}" = ["*.mp4"; "*.mkv"].
Proof. repeat split; vm_compute; reflexivity. Qed.

(** ** The latest event of each watcher ([Watchers.tsx]) *)
Section LatestEvent.

Import Watchers.

Lemma latest_step_present (map : gmap Z EventItem) e w x :
  map !! w = Some x -> latest_step map e !! w = Some x.
Proof.
  intros Hw. unfold latest_step.
  destruct (map !! watcher_id e) eqn:He; [exact Hw|].
  rewrite lookup_insert_ne; [exact Hw|]. intros Heq. rewrite Heq in He. congruence.
Qed.

Lemma latest_step_absent (map : gmap Z EventItem) e w :
  map !! w = None ->
  latest_step map e !! w = if (watcher_id e =? w)%Z then Some e else None.
Proof.
  intros Hw. unfold latest_step.
  destruct (Z.eqb_spec (watcher_id e) w) as [->|Hne].
  - rewrite Hw. apply lookup_insert_eq.
  - destruct (map !! watcher_id e); [exact Hw|].
    rewrite lookup_insert_ne; [exact Hw|exact Hne].
Qed.

Lemma foldl_latest_present events : forall (map : gmap Z EventItem) w x,
  map !! w = Some x -> foldl latest_step map events !! w = Some x.
Proof.
  induction events as [|e events IH]; intros map w x Hw; simpl; [exact Hw|].
  apply IH. now apply latest_step_present.
Qed.

Lemma foldl_latest_absent events : forall (map : gmap Z EventItem) w,
  map !! w = None ->
  foldl latest_step map events !! w
  = List.find (fun e => (watcher_id e =? w)%Z) events.
Proof.
  induction events as [|e events IH]; intros map w Hw; simpl; [exact Hw|].
  pose proof (latest_step_absent map e w Hw) as Hs.
  destruct (watcher_id e =? w)%Z.
  - now apply foldl_latest_present.
  - now apply IH.
Qed.

Lemma latest_is_first events w :
  latestByWatcher events !! w
  = List.find (fun e => (watcher_id e =? w)%Z) events.
Proof. apply foldl_latest_absent. apply lookup_empty. Qed.

Lemma find_newest (stamp : EventItem -> Z) events w e :
  StronglySorted (fun a b => (stamp b <= stamp a)%Z) events ->
  List.find (fun e => (watcher_id e =? w)%Z) events = Some e ->
  forall e', In e' events -> watcher_id e' = w -> (stamp e' <= stamp e)%Z.
Proof.
  induction 1 as [|a l Hl IH Ha]; simpl; [discriminate|].
  destruct (Z.eqb_spec (watcher_id a) w) as [Heq|Hne].
  - intros [= <-] e' [<-|Hin] _; [lia|].
    rewrite Forall_forall in Ha. rewrite <- list_elem_of_In in Hin. now apply Ha.
  - intros Hf e' [<-|Hin] Hw; [contradiction|]. now apply IH.
Qed.

(** C8. The map that [load] builds gives each watcher id the first event of
    the list that carries it; when the list is newest first, that event is
    the most recent of the watcher; a watcher without an event in the list
    has no entry. *)
Theorem latestByWatcher_newest (events : list EventItem) (w : Z) :
  latestByWatcher events !! w
  = List.find (fun e => (watcher_id e =? w)%Z) events
  /\ (latestByWatcher events !! w = None
      <-> forall e, In e events -> watcher_id e <> w)
  /\ forall stamp e,
       newest_first stamp events ->
       latestByWatcher events !! w = Some e ->
       In e events /\ watcher_id e = w
       /\ forall e', In e' events -> watcher_id e' = w ->
                     (stamp e' <= stamp e)%Z.
Proof.
  rewrite latest_is_first. split; [reflexivity|]. split.
  - split.
    + intros Hnone e Hin Hw.
      apply (find_none _ _ Hnone) in Hin. apply Z.eqb_neq in Hin. contradiction.
    + intros Hall.
      destruct (List.find _ events) as [e|] eqn:Hf; [|reflexivity].
      apply find_some in Hf as [Hin Hw]. apply Z.eqb_eq in Hw.
      now destruct (Hall e Hin).
  - intros stamp e Hsorted Hf.
    pose proof (find_some _ _ Hf) as [Hin Hw]. apply Z.eqb_eq in Hw.
    split; [exact Hin|]. split; [exact Hw|].
    apply (find_newest stamp events w e); [|exact Hf].
    apply Sorted_StronglySorted; [|exact Hsorted].
    intros a b c Hab Hbc. lia.
Qed.

End LatestEvent.

(** Three events, newest first by id: the entry of watcher 1 is event 9. *)
Definition sample_events : list Watchers.EventItem :=
  [ {| Watchers.id := 9; Watchers.watcher_id := 1;
       Watchers.event_type := "modified"; Watchers.file_path := "/in/a.mp4";
       Watchers.created_at := Some "2024-05-02T10:00:00" |};
    {| Watchers.id := 7; Watchers.watcher_id := 2;
       Watchers.event_type := "created"; Watchers.file_path := "/out/b.mkv";
       Watchers.created_at := Some "2024-05-01T18:30:00" |};
    {| Watchers.id := 4; Watchers.watcher_id := 1;
       Watchers.event_type := "created"; Watchers.file_path := "/in/a.mp4";
       Watchers.created_at := None |} ].

Lemma latestByWatcher_newest_witness :
  Watchers.newest_first Watchers.id sample_events
  /\ forall e, Watchers.latestByWatcher sample_events !! 1%Z = Some e ->
       In e sample_events /\ Watchers.watcher_id e = 1%Z
       /\ forall e', In e' sample_events -> Watchers.watcher_id e' = 1%Z ->
                     (Watchers.id e' <= Watchers.id e)%Z.
Proof.
  assert (Hs : Watchers.newest_first Watchers.id sample_events).
  { unfold Watchers.newest_first, sample_events. repeat constructor; simpl; lia. }
  split; [exact Hs|].
  intros e He.
  exact (proj2 (proj2 (latestByWatcher_newest sample_events 1)) Watchers.id e Hs He).
Defined.

Example latestByWatcher_sample :
  Watchers.id <$> Watchers.latestByWatcher sample_events !! 1%Z = Some 9%Z
  /\ Watchers.id <$> Watchers.latestByWatcher sample_events !! 2%Z = Some 7%Z
  /\ Watchers.latestByWatcher sample_events !! 3%Z = None.
Proof. repeat split; vm_compute; reflexivity. Qed.

(** ** The filters of the Events page ([Events.tsx]) *)
Section EventFilter.

Import JSNumber Events.

Variable getTime : string -> number.

Lemma lt_irrefl (x : number) : lt x x = false.
Proof.
  unfold lt, SFltb, SFcompare.
  destruct x as [[|]|[|]| |[|] m e]; try reflexivity;
    rewrite Z.compare_refl, Pos.compare_cont_refl; reflexivity.
Qed.

Lemma truthy_empty (s : string) : JS.truthy s = false <-> s = "".
Proof. destruct s; simpl; split; congruence. Qed.

(** The early returns of [keep] amount to the conjunction of the filters. *)
Lemma keep_conjunction (filters : Filters) (e : Event) :
  keep getTime filters e
  = id_filter filters e && watcher_filter filters e && type_filter filters e
    && path_filter filters e && date_filter getTime filters e.
Proof.
  unfold keep, id_filter, watcher_filter, type_filter, path_filter,
    date_filter, not_before, not_after.
  repeat match goal with
    | |- context [JS.truthy ?s] => destruct (JS.truthy s); simpl
    | |- context [JS.includes ?a ?b] => destruct (JS.includes a b); simpl
    | |- context [String.eqb ?a ?b] => destruct (String.eqb a b); simpl
    | |- context [created_at e] => destruct (created_at e); simpl
    | |- context [isFinite ?a] => destruct (isFinite a); simpl
    | |- context [lt ?a ?b] => destruct (lt a b); simpl
    | |- context [gt ?a ?b] => destruct (gt a b); simpl
    end; reflexivity.
Qed.

Lemma not_before_boundary (bound c : string) :
  getTime c = getTime bound -> not_before getTime bound (getTime c) = true.
Proof.
  intros ->. unfold not_before. rewrite lt_irrefl.
  now rewrite !orb_true_r.
Qed.

Lemma not_after_boundary (bound c : string) :
  getTime c = getTime bound -> not_after getTime bound (getTime c) = true.
Proof.
  intros ->. unfold not_after, gt. fold (lt (getTime bound) (getTime bound)).
  rewrite lt_irrefl. now rewrite !orb_true_r.
Qed.

(** C9. The filters combine conjunctively; with a start or an end set, an
    event without [created_at] is excluded; an event whose time equals the
    start or the end bound passes that bound, so the range is inclusive at
    both ends. *)
Theorem filteredItems_date_range (filters : Filters) (items : list Event)
    (e : Event) :
  (In e (filteredItems getTime filters items)
   <-> In e items
       /\ id_filter filters e = true /\ watcher_filter filters e = true
       /\ type_filter filters e = true /\ path_filter filters e = true
       /\ date_filter getTime filters e = true)
  /\ (filter_start filters <> "" \/ filter_end filters <> "" ->
      created_at e = None \/ created_at e = Some "" ->
      keep getTime filters e = false)
  /\ (forall c,
        created_at e = Some c -> c <> "" ->
        id_filter filters e = true -> watcher_filter filters e = true ->
        type_filter filters e = true -> path_filter filters e = true ->
        (getTime c = getTime (filter_start filters) ->
         not_after getTime (filter_end filters) (getTime c) = true ->
         keep getTime filters e = true)
        /\ (getTime c = getTime (filter_end filters) ->
            not_before getTime (filter_start filters) (getTime c) = true ->
            keep getTime filters e = true)).
Proof.
  split; [|split].
  - unfold filteredItems. rewrite filter_In, keep_conjunction.
    rewrite !andb_true_iff. tauto.
  - intros Hset Hmissing. rewrite keep_conjunction.
    assert (Hd : date_filter getTime filters e = false).
    { unfold date_filter.
      assert (Hb : JS.truthy (filter_start filters)
                   || JS.truthy (filter_end filters) = true).
      { destruct Hset as [H|H].
        - destruct (JS.truthy (filter_start filters)) eqn:E; [reflexivity|].
          apply truthy_empty in E. contradiction.
        - destruct (JS.truthy (filter_end filters)) eqn:E;
            [apply orb_true_r|].
          apply truthy_empty in E. contradiction. }
      rewrite Hb. destruct Hmissing as [-> | ->]; reflexivity. }
    rewrite Hd. apply andb_false_r.
  - intros c Hc Hne Hi Hw Ht Hp.
    assert (Htc : JS.truthy c = true).
    { destruct (JS.truthy c) eqn:E; [reflexivity|].
      apply truthy_empty in E. contradiction. }
    split; intros Heq Hother; rewrite keep_conjunction, Hi, Hw, Ht, Hp; simpl;
      unfold date_filter; rewrite Hc, Htc;
      destruct (JS.truthy (filter_start filters) || JS.truthy (filter_end filters));
      try reflexivity; simpl.
    + rewrite (not_before_boundary _ _ Heq), Hother. reflexivity.
    + rewrite (not_after_boundary _ _ Heq), Hother. reflexivity.
Qed.

End EventFilter.

(** The dates of an example, as [new Date(s).getTime()] reads them. *)
Definition sample_getTime (s : string) : JSNumber.number :=
  if String.eqb s "2024-05-02T10:00" then JSNumber.of_Z 1714644000000
  else if String.eqb s "2024-05-02T10:00:00" then JSNumber.of_Z 1714644000000
  else if String.eqb s "2024-05-03T00:00" then JSNumber.of_Z 1714694400000
  else S754_nan.

Definition sample_filters : Events.Filters :=
  {| Events.filter_id := ""; Events.filter_watcher := "1";
     Events.filter_type := "created"; Events.filter_path := ".MP4";
     Events.filter_start := "2024-05-02T10:00";
     Events.filter_end := "2024-05-03T00:00" |}.

Definition sample_event : Events.Event :=
  {| Events.id := 12; Events.watcher_id := 1; Events.event_type := "created";
     Events.file_path := "/in/Clip.mp4";
     Events.created_at := Some "2024-05-02T10:00:00" |}.

Lemma filteredItems_date_range_witness :
  Events.keep sample_getTime sample_filters sample_event = true.
Proof.
  refine (proj1 (proj2 (proj2 (filteredItems_date_range sample_getTime
            sample_filters [sample_event] sample_event))
            "2024-05-02T10:00:00" eq_refl _ eq_refl eq_refl eq_refl eq_refl)
            eq_refl eq_refl).
  discriminate.
Defined.

Example filteredItems_sample :
  Events.filteredItems sample_getTime sample_filters
    [ sample_event;
      {| Events.id := 13; Events.watcher_id := 1;
         Events.event_type := "created"; Events.file_path := "/in/late.mp4";
         Events.created_at := None |};
      {| Events.id := 14; Events.watcher_id := 1;
         Events.event_type := "created"; Events.file_path := "/in/old.mp4";
         Events.created_at := Some "not a date" |} ]
  = [ sample_event;
      {| Events.id := 14; Events.watcher_id := 1;
         Events.event_type := "created"; Events.file_path := "/in/old.mp4";
         Events.created_at := Some "not a date" |} ].
Proof. vm_compute. reflexivity. Qed.

(** ** [formatMetadataValue] ([Events.tsx]) *)
Section FormatMetadataValue.

Import JSNumber JSValue Events.

Local Open Scope Z_scope.

Lemma digits2_bounds (m : positive) :
  2 ^ (Zpos (digits2_pos m) - 1) <= Zpos m < 2 ^ Zpos (digits2_pos m).
Proof.
  induction m as [m IH|m IH|]; simpl digits2_pos.
  - rewrite Pos2Z.inj_succ.
    replace (Z.succ (Zpos (digits2_pos m)) - 1)
      with (Z.succ (Zpos (digits2_pos m) - 1)) by lia.
    rewrite !Z.pow_succ_r by lia. lia.
  - rewrite Pos2Z.inj_succ.
    replace (Z.succ (Zpos (digits2_pos m)) - 1)
      with (Z.succ (Zpos (digits2_pos m) - 1)) by lia.
    rewrite !Z.pow_succ_r by lia. lia.
  - simpl. lia.
Qed.

(** A valid finite float: the exponent is in range, the mantissa has at most
    53 bits, and exactly 53 unless the float is subnormal. *)
Lemma valid_finite (s : bool) (m : positive) (e : Z) :
  valid (S754_finite s m e) = true ->
  -1074 <= e <= 971 /\ Zpos m < 2 ^ 53 /\ (-1074 < e -> 2 ^ 52 <= Zpos m).
Proof.
  unfold valid, valid_binary, bounded, canonical_mantissa, fexp,
    SpecFloat.emin, prec, emax.
  rewrite andb_true_iff, Z.eqb_eq, Z.leb_le.
  intros [Hc He]. pose proof (digits2_bounds m) as [Hlo Hhi].
  set (d := Zpos (digits2_pos m)) in *.
  assert (Hd : 1 <= d) by (unfold d; lia).
  assert (Hd53 : d <= 53) by lia.
  split; [lia|]. split.
  - apply Z.lt_le_trans with (2 ^ d); [exact Hhi|].
    apply Z.pow_le_mono_r; lia.
  - intros Hnorm. assert (d = 53) as Heq by lia.
    rewrite Heq in Hlo. exact Hlo.
Qed.

(** [x > c] decides that the real value of [x] is above [n], for a
    constant [c = n * 2^k * 2^(-k)] with a 53-bit mantissa. *)
Lemma gt_constant (x : number) (n k : Z) (mc : positive) :
  valid x = true -> 0 < n -> 0 < k -> Zpos mc = n * 2 ^ k ->
  2 ^ 52 <= Zpos mc < 2 ^ 53 ->
  (gt x (S754_finite false mc (- k)) = true <-> exceeds x n).
Proof.
  intros Hv Hn Hk Hmc Hbits.
  assert (Hk53 : k < 53).
  { destruct (Z_lt_le_dec k 53) as [H|H]; [exact H|].
    assert (2 ^ 53 <= 2 ^ k) by (apply Z.pow_le_mono_r; lia). nia. }
  destruct x as [sz|[|]| |[|] m e]; unfold gt, SFltb, SFcompare, exceeds.
  - split; [discriminate|contradiction].
  - split; [discriminate|contradiction].
  - split; [intros _; exact I|reflexivity].
  - split; [discriminate|contradiction].
  - split; [discriminate|contradiction].
  - apply valid_finite in Hv as (Hrange & Hlt & Hnormal).
    unfold dyadic.
    destruct (Z.compare_spec (- k) e) as [Heq|Hlt'|Hgt].
    + subst e. replace (0 <=? - k) with false by (symmetry; apply Z.leb_gt; lia).
      simpl fst; simpl snd. rewrite Z.opp_involutive, <- Hmc.
      rewrite Pos.compare_cont_spec. simpl.
      destruct (Pos.compare_spec mc m) as [E|E|E]; simpl;
        (split; [try discriminate; try (intros _; lia)
                |try reflexivity; intros; lia]).
    + split; [intros _|reflexivity].
      assert (Hm : 2 ^ 52 <= Zpos m) by (apply Hnormal; lia).
      destruct (Z.leb_spec 0 e) as [He|He]; simpl fst; simpl snd.
      * assert (1 <= 2 ^ e) by (apply (Z.pow_le_mono_r 2 0 e); lia).
        assert (2 <= 2 ^ k) by (apply (Z.pow_le_mono_r 2 1 k); lia).
        nia.
      * assert (Hp : 2 * 2 ^ (- e) <= 2 ^ k).
        { rewrite <- Z.pow_succ_r by lia. apply Z.pow_le_mono_r; lia. }
        assert (0 < 2 ^ (- e)) by (apply Z.pow_pos_nonneg; lia).
        nia.
    + split; [discriminate|].
      replace (0 <=? e) with false by (symmetry; apply Z.leb_gt; lia).
      simpl fst; simpl snd. intros H.
      assert (Hp : 2 * 2 ^ k <= 2 ^ (- e)).
      { rewrite <- Z.pow_succ_r by lia. apply Z.pow_le_mono_r; lia. }
      nia.
Qed.

Lemma gt_1000 (x : number) :
  valid x = true -> (gt x (of_Z 1000) = true <-> exceeds x 1000).
Proof.
  intros Hv.
  apply (gt_constant x 1000 43 8796093022208000 Hv); [lia|lia|reflexivity|].
  split; [vm_compute; discriminate|reflexivity].
Qed.

Lemma gt_1000000 (x : number) :
  valid x = true -> (gt x (of_Z 1000000) = true <-> exceeds x 1000000).
Proof.
  intros Hv.
  apply (gt_constant x 1000000 33 8589934592000000 Hv); [lia|lia|reflexivity|].
  split; [vm_compute; discriminate|reflexivity].
Qed.

Lemma exceeds_mono (x : number) (a b : Z) :
  a <= b -> exceeds x b -> exceeds x a.
Proof.
  intros Hab. destruct x as [|[|]| |[|] m e]; simpl; try tauto.
  unfold dyadic. destruct (Z.leb_spec 0 e) as [He|He]; simpl; intros H.
  - nia.
  - assert (0 < 2 ^ (- e)) by (apply Z.pow_pos_nonneg; lia).
    nia.
Qed.

Local Close Scope Z_scope.

(** C10. [null] and [undefined] give "N/A"; a number above 1,000,000 is
    divided by 1,000,000 and printed with two decimals and "M"; a number
    above 1,000 and not above 1,000,000 is divided by 1,000 and printed
    with two decimals and "K"; every other value is printed as it is.
    So 1000 gives "1000" and 1000000 gives "1000.00K". *)
Theorem formatMetadataValue_cases :
  formatMetadataValue JNull = "N/A"
  /\ formatMetadataValue JUndefined = "N/A"
  /\ (forall x, valid x = true -> exceeds x 1000000 ->
        formatMetadataValue (JNumber x)
        = toFixed (div x (of_Z 1000000)) 2 +:+ "M")
  /\ (forall x, valid x = true -> exceeds x 1000 -> ~ exceeds x 1000000 ->
        formatMetadataValue (JNumber x)
        = toFixed (div x (of_Z 1000)) 2 +:+ "K")
  /\ (forall x, valid x = true -> ~ exceeds x 1000 ->
        formatMetadataValue (JNumber x) = JSNumber.toString x)
  /\ (forall s, formatMetadataValue (JString s) = s)
  /\ (forall b, formatMetadataValue (JBool b) = if b then "true" else "false")
  /\ (forall l, formatMetadataValue (JArray l) = join "," l)
  /\ formatMetadataValue (JNumber (of_Z 1000)) = "1000"
  /\ formatMetadataValue (JNumber (of_Z 1000000)) = "1000.00K".
Proof.
  repeat split; try reflexivity.
  - intros x Hv Hx. unfold formatMetadataValue.
    apply (gt_1000000 x Hv) in Hx. now rewrite Hx.
  - intros x Hv Hx Hnot. unfold formatMetadataValue.
    destruct (gt x (of_Z 1000000)) eqn:Hbig.
    + apply (gt_1000000 x Hv) in Hbig. contradiction.
    + apply (gt_1000 x Hv) in Hx. now rewrite Hx.
  - intros x Hv Hnot. unfold formatMetadataValue.
    destruct (gt x (of_Z 1000000)) eqn:Hbig.
    + apply (gt_1000000 x Hv) in Hbig.
      destruct Hnot. apply (exceeds_mono x 1000 1000000); [lia|exact Hbig].
    + destruct (gt x (of_Z 1000)) eqn:Hmid; [|reflexivity].
      apply (gt_1000 x Hv) in Hmid. contradiction.
Qed.

End FormatMetadataValue.

Lemma formatMetadataValue_cases_witness :
  Events.formatMetadataValue (JSValue.JNumber (JSNumber.of_Z 2500000)) = "2.50M"
  /\ Events.formatMetadataValue (JSValue.JNumber (JSNumber.of_Z 1500)) = "1.50K"
  /\ Events.formatMetadataValue (JSValue.JNumber (JSNumber.of_Z 640)) = "640".
Proof.
  destruct formatMetadataValue_cases as (_ & _ & HM & HK & Hplain & _).
  split; [|split].
  - rewrite (HM (JSNumber.of_Z 2500000) eq_refl); [reflexivity|].
    vm_compute. reflexivity.
  - rewrite (HK (JSNumber.of_Z 1500) eq_refl); [reflexivity| |].
    + vm_compute. reflexivity.
    + vm_compute. discriminate.
  - rewrite (Hplain (JSNumber.of_Z 640) eq_refl); [reflexivity|].
    vm_compute. discriminate.
Defined.

Example formatMetadataValue_samples :
  Events.formatMetadataValue (JSValue.JNumber (JSNumber.of_Z 1005)) = "1.00K"
  /\ Events.formatMetadataValue
       (JSValue.JNumber (JSNumber.div (JSNumber.of_Z 2997) (JSNumber.of_Z 100)))
     = "29.97"
  /\ Events.formatMetadataValue (JSValue.JNumber (JSNumber.of_Z (-5000))) = "-5000"
  /\ Events.formatMetadataValue (JSValue.JNumber S754_nan) = "NaN"
  /\ Events.formatMetadataValue (JSValue.JNumber (S754_infinity false))
     = "InfinityM".
Proof. repeat split; vm_compute; reflexivity. Qed.

(** ** The rules that the two rule forms store *)
Section StoredRules.

Import JSNumber JSValue Types.

Variable parseInt : string -> number.
Variable parseFloat : string -> number.
Variable ToNumber : string -> number.

(** *** [Watchers.tsx] *)

Lemma spread_items (a : list Watchers.slot) (r : ValidationRule) :
  In (Watchers.Item r) (Watchers.spread a) -> In (Watchers.Item r) a.
Proof.
  unfold Watchers.spread. rewrite in_map_iff.
  intros ([| |r'] & Heq & Hin); try discriminate. now rewrite <- Heq.
Qed.

Lemma assign_items (a : list Watchers.slot) (i : nat) (x : Watchers.slot)
    (r : ValidationRule) :
  In (Watchers.Item r) (Watchers.assign a i x) ->
  In (Watchers.Item r) a \/ Watchers.Item r = x.
Proof.
  unfold Watchers.assign. destruct (i <? length a)%nat.
  - revert i. induction a as [|s a IH]; intros [|i]; simpl; try tauto.
    + intros [H|H]; auto.
    + intros [H|H]; auto. destruct (IH i H); auto.
  - rewrite !in_app_iff. intros [H|[H|H]]; auto.
    + apply list_elem_of_In, elem_of_replicate in H as [H _]. discriminate.
    + destruct H as [H|[]]. auto.
Qed.

Lemma filter_from_items (a : list Watchers.slot) (r : ValidationRule) :
  forall i index,
    In (Watchers.Item r) (Watchers.filter_from i index a) ->
    In (Watchers.Item r) a.
Proof.
  induction a as [|s a IH]; intros i index; simpl; [tauto|].
  destruct s; try (intros H; right; now apply (IH _ _ H));
    destruct (i =? index)%nat; simpl;
    intros H; try (right; now apply (IH _ _ H));
    destruct H as [H|H]; auto; right; now apply (IH _ _ H).
Qed.

(** Whatever the form holds, the value that [parseRuleValue] returns for
    its operator makes a well-formed rule. *)
Lemma parsed_rule_well_formed (f : RuleForm) :
  well_formed
    (Watchers.rule_of_form f
       (Watchers.parseRuleValue parseInt parseFloat
          (or_else (form_operator f) "") (form_value f))).
Proof.
  unfold well_formed, Watchers.rule_of_form, Watchers.parseRuleValue. simpl.
  destruct (is_list_operator (or_else (form_operator f) "")).
  - now exists (String_of_raw (form_value f)).
  - destruct (form_value f) as [s|]; [|reflexivity].
    now destruct (JS.includes s ".").
Qed.

Lemma watchers_step_ok (st : Watchers.State) (a : Watchers.action) :
  Watchers.slots_ok (Watchers.validation_rules (Watchers.videoConfig st)) ->
  Watchers.slots_ok (Watchers.validation_rules
              (Watchers.videoConfig
                 (Watchers.step parseInt parseFloat ToNumber st a))).
Proof.
  intros Hok.
  destruct a as [f|f| |index|index| | |b|b|[| |] f|f|index]; simpl;
    try exact Hok.
  - unfold Watchers.addValidationRule.
    destruct (_ || _ || _); [exact Hok|].
    destruct (_ && _ && _); [exact Hok|]. simpl.
    intros r. rewrite in_app_iff. intros [H|[H|[]]].
    + apply Hok. now apply spread_items.
    + injection H as <-. apply parsed_rule_well_formed.
  - intros r H. apply Hok. unfold Watchers.filter_index in H.
    now apply filter_from_items in H.
  - unfold Watchers.startEditRule.
    now destruct (_ !! index) as [[| |r]|].
  - unfold Watchers.saveEditRule.
    destruct (Watchers.editingIndex st) as [index|]; [|exact Hok].
    destruct (Watchers.editRule st) as [f|]; [|exact Hok].
    destruct (_ || _ || _); [exact Hok|].
    destruct (_ && _ && _); [exact Hok|]. simpl.
    intros r H. apply assign_items in H as [H|H].
    + apply Hok. now apply spread_items.
    + injection H as ->. apply parsed_rule_well_formed.
Qed.

Lemma watchers_run_ok (actions : list Watchers.action) :
  forall st,
    Watchers.slots_ok (Watchers.validation_rules (Watchers.videoConfig st)) ->
    Watchers.slots_ok (Watchers.validation_rules
                (Watchers.videoConfig
                   (foldl (Watchers.step parseInt parseFloat ToNumber)
                      st actions))).
Proof.
  induction actions as [|a actions IH]; intros st Hok; simpl; [exact Hok|].
  apply IH. now apply watchers_step_ok.
Qed.

(** *** [WatcherCreate.tsx] *)

Lemma remove_at_In {A : Type} (l : list A) (x : A) :
  forall idx, In x (remove_at idx l) -> In x l.
Proof.
  induction l as [|y l IH]; intros [|idx]; simpl; try tauto.
  intros [H|H]; [now left|right]. now apply (IH idx).
Qed.

Lemma create_parsed_well_formed (fld op : string) (raw : option string)
    (act : string) (d : option string) :
  well_formed
    {| field := fld; operator := op;
       value := WatcherCreate.parseRuleValue parseInt parseFloat fld op raw;
       action := act; description := d |}.
Proof.
  unfold well_formed, WatcherCreate.parseRuleValue. simpl.
  destruct (is_list_operator op).
  - now exists (String_of_raw raw).
  - destruct (WatcherCreate.isNumericField fld);
      [destruct (isNaN _)|]; try reflexivity; now destruct raw.
Qed.

Lemma create_step_ok (st : WatcherCreate.State) (a : WatcherCreate.action) :
  Forall well_formed
    (WatcherCreate.validation_rules (WatcherCreate.videoConfig st)) ->
  Forall well_formed
    (WatcherCreate.validation_rules
       (WatcherCreate.videoConfig
          (WatcherCreate.step parseInt parseFloat st a))).
Proof.
  intros Hok. destruct a as [f| |idx|b|b|h|d|[| |] f|f|idx]; simpl;
    try exact Hok.
  - unfold WatcherCreate.addValidationRule.
    destruct (_ || _ || _); [exact Hok|].
    destruct (_ && _); [exact Hok|]. simpl.
    apply Forall_app. split; [exact Hok|].
    constructor; [apply create_parsed_well_formed|constructor].
  - rewrite List.Forall_forall in *. intros r H. apply Hok.
    now apply remove_at_In in H.
Qed.

Lemma create_run_ok (actions : list WatcherCreate.action) :
  forall st,
    Forall well_formed
      (WatcherCreate.validation_rules (WatcherCreate.videoConfig st)) ->
    Forall well_formed
      (WatcherCreate.validation_rules
         (WatcherCreate.videoConfig
            (WatcherCreate.run parseInt parseFloat st actions))).
Proof.
  unfold WatcherCreate.run.
  induction actions as [|a actions IH]; intros st Hok; simpl; [exact Hok|].
  apply IH. now apply create_step_ok.
Qed.

(** C4, as amended. After any sequence of the handlers of the rule forms
    of [Watchers.tsx] and [WatcherCreate.tsx], every stored rule holds a
    list under [in] and [not_in], the text of the input split on commas
    with each element trimmed, and a scalar under every other operator.
    The JSON editor of [WatcherEdit.tsx] is not one of these forms: it
    stores what was typed. *)
Theorem stored_rules_well_formed :
  (forall actions r,
      In (Watchers.Item r)
        (Watchers.validation_rules
           (Watchers.videoConfig
              (Watchers.run parseInt parseFloat ToNumber actions))) ->
      well_formed r)
  /\ (forall actions r,
        In r (WatcherCreate.validation_rules
                (WatcherCreate.videoConfig
                   (WatcherCreate.run parseInt parseFloat
                      WatcherCreate.initial actions))) ->
        well_formed r)
  /\ (forall fld op raw,
        is_list_operator op = true ->
        Watchers.parseRuleValue parseInt parseFloat op raw
        = JArray (map JS.trim (JS.split "," (String_of_raw raw)))
        /\ WatcherCreate.parseRuleValue parseInt parseFloat fld op raw
           = JArray (map JS.trim (JS.split "," (String_of_raw raw))))
  /\ (forall fld op raw,
        is_list_operator op = false ->
        isArray (Watchers.parseRuleValue parseInt parseFloat op raw) = false
        /\ isArray (WatcherCreate.parseRuleValue parseInt parseFloat fld op raw)
           = false).
Proof.
  split; [|split; [|split]].
  - intros actions. apply watchers_run_ok. intros r [].
  - intros actions r.
    assert (H : Forall well_formed
                  (WatcherCreate.validation_rules
                     (WatcherCreate.videoConfig
                        (WatcherCreate.run parseInt parseFloat
                           WatcherCreate.initial actions)))).
    { apply create_run_ok. constructor. }
    rewrite List.Forall_forall in H. apply H.
  - intros fld op raw Hop.
    unfold Watchers.parseRuleValue, WatcherCreate.parseRuleValue.
    now rewrite Hop.
  - intros fld op raw Hop.
    unfold Watchers.parseRuleValue, WatcherCreate.parseRuleValue.
    rewrite Hop. split.
    + destruct raw as [s|]; [|reflexivity]. now destruct (JS.includes s ".").
    + destruct (WatcherCreate.isNumericField fld);
        [destruct (isNaN _)|]; try reflexivity; now destruct raw.
Qed.

End StoredRules.

(** A list rule and a numeric rule entered in the form of [Watchers.tsx]. *)
Definition sample_form (fld op text : string) : Types.RuleForm :=
  {| Types.form_field := Some fld; Types.form_operator := Some op;
     Types.form_value := Some text; Types.form_action := Some "reject";
     Types.form_description := Some "" |}.

Definition sample_actions : list Watchers.action :=
  [ Watchers.SetNewRule (sample_form "general_format_name" "in" "MP4, AVI ,MKV");
    Watchers.AddValidationRule;
    Watchers.SetNewRule (sample_form "video_height" ">" "1080");
    Watchers.AddValidationRule;
    Watchers.SetNewRule (sample_form "video_width" ">" "wide");
    Watchers.AddValidationRule ].

Definition sample_rules : list Watchers.slot :=
  Watchers.validation_rules
    (Watchers.videoConfig
       (Watchers.run JSNumber.parseInt10 JSNumber.parseFloat10
          JSNumber.parseFloat10 sample_actions)).

Lemma stored_rules_well_formed_witness :
  sample_rules
  = [ Watchers.Item
        {| Types.field := "general_format_name"; Types.operator := "in";
           Types.value := JSValue.JArray ["MP4"; "AVI"; "MKV"];
           Types.action := "reject"; Types.description := Some "" |};
      Watchers.Item
        {| Types.field := "video_height"; Types.operator := ">";
           Types.value := JSValue.JNumber (JSNumber.of_Z 1080);
           Types.action := "reject"; Types.description := Some "" |} ]
  /\ forall r, In (Watchers.Item r) sample_rules -> Types.well_formed r.
Proof.
  split; [vm_compute; reflexivity|].
  exact (proj1 (stored_rules_well_formed JSNumber.parseInt10
                  JSNumber.parseFloat10 JSNumber.parseFloat10) sample_actions).
Defined.

(** On the creation page a list rule on a numeric field is refused, and a
    list rule on a text field is stored as a list. *)
Example create_page_rules :
  WatcherCreate.validation_rules
    (WatcherCreate.videoConfig
       (WatcherCreate.run JSNumber.parseInt10 JSNumber.parseFloat10
          WatcherCreate.initial
          [ WatcherCreate.SetNewRule (sample_form "video_height" "in" "720,1080");
            WatcherCreate.AddValidationRule;
            WatcherCreate.SetNewRule
              (sample_form "general_format_name" "not_in" "MOV , WMV");
            WatcherCreate.AddValidationRule;
            WatcherCreate.SetNewRule (sample_form "video_codec_name" "==" "H.264");
            WatcherCreate.AddValidationRule ]))
  = [ {| Types.field := "general_format_name"; Types.operator := "not_in";
         Types.value := JSValue.JArray ["MOV"; "WMV"];
         Types.action := "reject"; Types.description := Some "" |};
      {| Types.field := "video_codec_name"; Types.operator := "==";
         Types.value := JSValue.JString "H.264";
         Types.action := "reject"; Types.description := Some "" |} ].
Proof. vm_compute. reflexivity. Qed.

(** A save at an index that went stale extends the array over a hole. *)
Example saveEditRule_stale_index :
  Watchers.validation_rules
    (Watchers.videoConfig
       (Watchers.run JSNumber.parseInt10 JSNumber.parseFloat10
          JSNumber.parseFloat10
          [ Watchers.SetNewRule (sample_form "video_height" ">" "1080");
            Watchers.AddValidationRule;
            Watchers.SetNewRule (sample_form "video_width" "<" "640");
            Watchers.AddValidationRule;
            Watchers.StartEditRule 1;
            Watchers.RemoveValidationRule 0;
            Watchers.RemoveValidationRule 0;
            Watchers.SaveEditRule ]))
  = [ Watchers.Hole;
      Watchers.Item
        {| Types.field := "video_width"; Types.operator := "<";
           Types.value := JSValue.JNumber (JSNumber.of_Z 640);
           Types.action := "reject"; Types.description := Some "" |} ].
Proof. vm_compute. reflexivity. Qed.

(** ** The JSON editor of [WatcherEdit.tsx] *)

(** A text with its double quotes written as single ones. *)
Fixpoint double_quotes (s : string) : string :=
  match s with
  | EmptyString => EmptyString
  | String c s' =>
      String (if Ascii.eqb c "'" then ascii_of_N 34 else c) (double_quotes s')
  end.

Definition clips_to_edit : WatcherEdit.Watcher :=
  {| WatcherEdit.id := 3; WatcherEdit.name := "clips";
     WatcherEdit.path := "/media/clips";
     WatcherEdit.config := WatcherEdit.Obj [];
     WatcherEdit.video_config := None |}.

Definition typed_video_config : string :=
  double_quotes
    "{'extract_video_metadata': true, 'enable_validation': true,
      'validation_rules': [
        {'field': 'general_format_name', 'operator': 'in',
         'value': 'MP4', 'action': 'reject'}]}".

(** The watcher is loaded and the text is typed into Video Config. *)
Definition edited : WatcherEdit.State :=
  WatcherEdit.run WatcherEdit.parse
    [ WatcherEdit.Loaded clips_to_edit;
      WatcherEdit.ChangeVideoConfig typed_video_config ].

(** The edit page stores and sends a rule whose operator is [in] and whose
    value is the scalar "MP4": the editor checks that the text is JSON and
    nothing else. *)
Lemma json_editor_scalar_under_in_counterexample :
  WatcherEdit.error edited = ""
  /\ WatcherEdit.sent_rules edited
     = [ WatcherEdit.Obj
           [ ("field", WatcherEdit.Str "general_format_name");
             ("operator", WatcherEdit.Str "in");
             ("value", WatcherEdit.Str "MP4");
             ("action", WatcherEdit.Str "reject") ] ]
  /\ map WatcherEdit.as_rule (WatcherEdit.sent_rules edited)
     = [ Some {| Types.field := "general_format_name";
                 Types.operator := "in";
                 Types.value := JSValue.JString "MP4";
                 Types.action := "reject";
                 Types.description := None |} ]
  /\ ~ Types.well_formed
         {| Types.field := "general_format_name"; Types.operator := "in";
            Types.value := JSValue.JString "MP4"; Types.action := "reject";
            Types.description := None |}.
Proof.
  split; [vm_compute; reflexivity|].
  split; [vm_compute; reflexivity|].
  split; [vm_compute; reflexivity|].
  unfold Types.well_formed. simpl. intros [raw H]. discriminate H.
Qed.

(** The stand-in reads lists and numbers, and refuses what is not JSON. *)
Example parse_examples :
  WatcherEdit.parse (double_quotes "{'value': ['MP4', 'AVI'], 'n': -12}")
  = Some (WatcherEdit.Obj
            [ ("value", WatcherEdit.Arr [WatcherEdit.Str "MP4";
                                         WatcherEdit.Str "AVI"]);
              ("n", WatcherEdit.Num (JSNumber.of_Z (-12))) ])
  /\ WatcherEdit.parse "{field: 1}" = None
  /\ WatcherEdit.parse (double_quotes "{'a': 1,}") = None
  /\ WatcherEdit.error
       (WatcherEdit.run WatcherEdit.parse
          [ WatcherEdit.Loaded clips_to_edit;
            WatcherEdit.ChangeVideoConfig "{field: 1}" ])
     = "Invalid JSON in Video Config".
Proof. repeat split; vm_compute; reflexivity. Qed.

(** ** Numeric fields and the coercion of rule values *)
Section NumericFields.

Import JSNumber JSValue Types.

Lemma prefix_app_includes (a b : string) :
  forall s, String.prefix (a +:+ b) s = true -> JS.includes s b = true.
Proof.
  induction a as [|c a IH]; intros s.
  - change ("" +:+ b) with b. intros H.
    destruct s as [|d s]; unfold JS.includes; fold JS.includes;
      rewrite H; reflexivity.
  - change (String c a +:+ b) with (String c (a +:+ b)).
    destruct s as [|d s]; simpl; [discriminate|].
    destruct (ascii_dec c d); [|discriminate].
    intros H. rewrite (IH s H). apply orb_true_r.
Qed.

(** A string that contains [a ++ b] contains [b]. *)
Lemma includes_app_r (a b : string) :
  forall s, JS.includes s (a +:+ b) = true -> JS.includes s b = true.
Proof.
  induction s as [|c s IH].
  - intros H.
    change (JS.includes "" (a +:+ b))
      with (String.prefix (a +:+ b) "" || false) in H.
    rewrite orb_false_r in H. now apply (prefix_app_includes a b).
  - intros H. change (JS.includes (String c s) (a +:+ b))
      with (String.prefix (a +:+ b) (String c s) || JS.includes s (a +:+ b)) in H.
    apply orb_true_iff in H as [H|H].
    + now apply (prefix_app_includes a b).
    + change (JS.includes (String c s) b)
        with (String.prefix b (String c s) || JS.includes s b).
      rewrite (IH H). apply orb_true_r.
Qed.

Lemma isNumericField_names_iff (fld : string) :
  WatcherCreate.isNumericField fld = true
  <-> fld <> ""
      /\ Exists (fun h => JS.includes (JS.toLowerCase fld) h = true)
           WatcherCreate.numeric_names.
Proof.
  unfold WatcherCreate.isNumericField.
  destruct fld as [|c fld]; simpl JS.truthy; simpl negb; cbv iota.
  - split; [discriminate|]. intros [H _]. now destruct H.
  - set (k := JS.toLowerCase (String c fld)).
    rewrite existsb_exists. split.
    + intros (h & Hin & Hh). split; [discriminate|].
      apply List.Exists_exists.
      destruct (String.eqb_spec h "overall_bit_rate") as [->|Hne].
      * exists "bit_rate". split; [simpl; tauto|].
        now apply (includes_app_r "overall_" "bit_rate").
      * exists h. split; [|exact Hh].
        unfold WatcherCreate.numericHints in Hin. unfold WatcherCreate.numeric_names.
        simpl in *. intuition congruence.
    + intros [_ H]. apply List.Exists_exists in H as (h & Hin & Hh).
      exists h. split; [|exact Hh].
      unfold WatcherCreate.numericHints. unfold WatcherCreate.numeric_names in Hin.
      simpl in *. intuition congruence.
Qed.

Variable parseInt : string -> number.
Variable parseFloat : string -> number.

(** X20. The rule form of [WatcherCreate.tsx] coerces the value of a rule
    to a number exactly when the lower-cased field name contains one of
    duration, width, height, bit_rate, frame_rate, sample_rate, channels,
    file_size, bit_depth, level or count, and the text is a number; for
    every other field it keeps the text as it was typed. *)
Theorem form_coercion :
  (forall fld,
      WatcherCreate.isNumericField fld = true
      <-> fld <> ""
          /\ Exists (fun h => JS.includes (JS.toLowerCase fld) h = true)
               WatcherCreate.numeric_names)
  /\ (forall fld op raw,
        is_list_operator op = false ->
        (is_number (WatcherCreate.parseRuleValue parseInt parseFloat fld op raw)
         = true
         <-> WatcherCreate.isNumericField fld = true
             /\ isNaN (if JS.includes (String_of_raw raw) "."
                       then parseFloat (String_of_raw raw)
                       else parseInt (String_of_raw raw))
                = false)
        /\ (WatcherCreate.isNumericField fld = false ->
            WatcherCreate.parseRuleValue parseInt parseFloat fld op raw
            = WatcherCreate.raw_value raw))
  /\ (forall st st',
        WatcherCreate.addValidationRule parseInt parseFloat st
        = (st', WatcherCreate.Done) ->
        is_list_operator (or_else (form_operator (WatcherCreate.newRule st)) "")
        = false ->
        exists r,
          WatcherCreate.validation_rules (WatcherCreate.videoConfig st')
          = (WatcherCreate.validation_rules (WatcherCreate.videoConfig st)
             ++ [r])%list
          /\ is_number (value r)
             = WatcherCreate.isNumericField (field r)).
Proof.
  split; [exact isNumericField_names_iff|].
  split.
  - intros fld op raw Hop. unfold WatcherCreate.parseRuleValue. rewrite Hop.
    cbv zeta. destruct (WatcherCreate.isNumericField fld).
    + split; [|discriminate].
      destruct (isNaN _); simpl.
      * split; [|intros [_ H]; discriminate H].
        destruct raw; discriminate.
      * tauto.
    + split; [|reflexivity]. split; [|intros [H _]; discriminate H].
      destruct raw; discriminate.
  - intros st st' Hadd Hop. unfold WatcherCreate.addValidationRule in Hadd.
    revert Hadd.
    destruct (falsy _ || falsy _ || bool_decide _); [discriminate|].
    destruct (WatcherCreate.isNumericField _ && _) eqn:Hguard; [discriminate|].
    intros Hadd. injection Hadd as <-. simpl. eexists. split; [reflexivity|]. simpl.
    destruct (WatcherCreate.isNumericField _) eqn:Hnum; simpl in Hguard.
    + now apply negb_false_iff in Hguard.
    + unfold WatcherCreate.parseRuleValue. rewrite Hop, Hnum.
      now destruct (form_value (WatcherCreate.newRule st)).
Qed.

End NumericFields.

(** The field [video_level] matches none of the fields that the
    specification lists, and the form coerces the value of its rule. *)
Example form_coerces_level :
  Runtime.known_numeric_field "video_level" = false
  /\ WatcherCreate.isNumericField "video_level" = true
  /\ WatcherCreate.parseRuleValue JSNumber.parseInt10 JSNumber.parseFloat10
       "video_level" ">" (Some "41")
     = JSValue.JNumber (JSNumber.of_Z 41).
Proof. repeat split; vm_compute; reflexivity. Qed.

(** ** The coercion of the engine *)
Section Coercion.

Import Runtime.











End Coercion.


(** ** The validation engine *)
Section Engine.

Import Runtime.

(** One round of the loop, in terms of [rule_fails]. *)
Lemma check_round (md : gmap string Measured) (acc : ValidationResult)
    (r : ValidationRule) :
  valid (check md acc r) = valid acc && negb (rule_fails md r)
  /\ failed_rules (check md acc r) = (failed_rules acc ++ failure md r)%list
  /\ rules_checked (check md acc r)
     = (rules_checked acc + if resolvable md r then 1 else 0)%nat.
Proof.
  unfold check, failure, rule_fails, comparison, resolvable.
  destruct (md !! field r) as [actual|] eqn:Hlook; simpl.
  - destruct (condition _ _ _ actual) as [holds|]; simpl.
    + destruct (fails (action r) holds); simpl.
      * rewrite andb_false_r. repeat split. lia.
      * rewrite andb_true_r, app_nil_r. repeat split. lia.
    + rewrite andb_true_r, app_nil_r. repeat split. lia.
  - rewrite andb_true_r, app_nil_r. repeat split. lia.
Qed.

(** The loop from any accumulator. *)
Lemma foldl_check (md : gmap string Measured) (rules : list ValidationRule) :
  forall acc,
    valid (foldl (check md) acc rules)
    = valid acc && forallb (fun r => negb (rule_fails md r)) rules
    /\ failed_rules (foldl (check md) acc rules)
       = (failed_rules acc ++ flat_map (failure md) rules)%list
    /\ rules_checked (foldl (check md) acc rules)
       = (rules_checked acc + length (List.filter (resolvable md) rules))%nat.
Proof.
  induction rules as [|r rules IH]; intros acc; simpl.
  - rewrite andb_true_r, app_nil_r. repeat split. lia.
  - destruct (IH (check md acc r)) as (Hv & Hf & Hc).
    destruct (check_round md acc r) as (Hv1 & Hf1 & Hc1).
    rewrite Hv, Hf, Hc, Hv1, Hf1, Hc1.
    rewrite andb_assoc, <- app_assoc. repeat split.
    destruct (resolvable md r); simpl; lia.
Qed.

Lemma failure_nil (md : gmap string Measured) (r : ValidationRule) :
  failure md r = [] <-> rule_fails md r = false.
Proof.
  unfold failure, rule_fails, comparison.
  destruct (md !! field r) as [actual|]; simpl; [|tauto].
  destruct (condition _ _ _ actual) as [holds|]; simpl; [|tauto].
  destruct (fails (action r) holds); split; congruence.
Qed.

Lemma flat_map_failure_nil (md : gmap string Measured)
    (rules : list ValidationRule) :
  flat_map (failure md) rules = []
  <-> forallb (fun r => negb (rule_fails md r)) rules = true.
Proof.
  induction rules as [|r rules IH]; simpl; [tauto|].
  rewrite andb_true_iff, negb_true_iff, <- IH, <- failure_nil.
  split.
  - intros H. now apply app_eq_nil in H.
  - intros [-> ->]. reflexivity.
Qed.

Lemma parses_iff {A : Type} (o : option A) :
  bool_decide (is_Some o) = false <-> o = None.
Proof.
  destruct o as [a|].
  - rewrite bool_decide_eq_false. split; [|discriminate].
    intros H. exfalso. apply H. now exists a.
  - rewrite bool_decide_eq_false. split; [reflexivity|].
    intros _ [a H]. discriminate.
Qed.

Lemma all_some_none (l : list string) :
  all_some (map parse_number l) = None
  <-> exists s, In s l /\ parse_number s = None.
Proof.
  induction l as [|s l IH]; simpl.
  - split; [discriminate|]. intros (s & [] & _).
  - destruct (parse_number s) as [q|] eqn:Hs.
    + destruct (all_some (map parse_number l)) as [qs|]; simpl.
      * split; [discriminate|].
        intros (t & [<-|Hin] & Ht); [congruence|].
        assert (H : Some qs = None) by (apply IH; now exists t).
        discriminate H.
      * split; [|reflexivity]. intros _.
        destruct (proj1 IH eq_refl) as (t & Hin & Ht).
        exists t. split; [now right|exact Ht].
    + split; [|reflexivity]. intros _. exists s. split; [now left|exact Hs].
Qed.

Lemma forallb_parses (l : list string) :
  forallb (fun s => bool_decide (is_Some (parse_number s))) l = false
  <-> exists s, In s l /\ parse_number s = None.
Proof.
  induction l as [|s l IH]; simpl.
  - split; [discriminate|]. intros (s & [] & _).
  - rewrite andb_false_iff, IH, parses_iff. split.
    + intros [Hs|(t & Hin & Ht)].
      * exists s. split; [now left|exact Hs].
      * exists t. split; [now right|exact Ht].
    + intros (t & [<-|Hin] & Ht); [now left|].
      right. now exists t.
Qed.

Lemma membership_iff (op : Operator) :
  (is_membership op = true <-> op = OpIn \/ op = OpNotIn)
  /\ (is_membership op = false <-> op <> OpIn /\ op <> OpNotIn).
Proof.
  destruct op; simpl; (split; split);
    try (intros [H|H]; discriminate); try discriminate;
    try (intros _; split; discriminate); try tauto;
    try (intros [H1 H2]; congruence).
Qed.

(** What a malformed value is. *)
Lemma malformed_iff (f : string) (op : Operator) (v : RuleValue) :
  malformed f op v = true
  <-> match v with
      | Single x =>
          op = OpIn \/ op = OpNotIn
          \/ (known_numeric_field f = true /\ to_number x = None)
      | Many l =>
          (op <> OpIn /\ op <> OpNotIn)
          \/ (known_numeric_field f = true
              /\ exists s, In s l /\ parse_number s = None)
      end.
Proof.
  destruct (membership_iff op) as [Hyes Hno].
  unfold malformed. destruct v as [x|l].
  - rewrite orb_true_iff, andb_true_iff, negb_true_iff, parses_iff, Hyes.
    tauto.
  - rewrite orb_true_iff, andb_true_iff, !negb_true_iff, forallb_parses, Hno.
    tauto.
Qed.

(** The comparison is made for every rule whose value is well formed, and
    for no other. *)
Lemma condition_none_iff (f : string) (op : Operator) (v : RuleValue)
    (actual : Measured) :
  condition f op v actual = None <-> malformed f op v = true.
Proof.
  unfold condition, malformed. destruct v as [x|l].
  - destruct (is_membership op); simpl; [tauto|].
    destruct (known_numeric_field f); simpl; [|split; discriminate].
    rewrite negb_true_iff, parses_iff.
    destruct (to_number x); simpl; split; congruence.
  - destruct (is_membership op); simpl; [|tauto].
    destruct (known_numeric_field f); simpl; [|split; discriminate].
    rewrite negb_true_iff, forallb_parses, <- all_some_none.
    destruct (all_some (map parse_number l)); simpl; split; congruence.
Qed.

(** C1, as amended. [evaluate] returns [valid = true] if and only if no
    rule failed.  A rule is evaluated when its field is in the metadata and
    its value is well formed (a list under [in] and [not_in], a scalar
    under every other operator, numbers under a numeric field); then it
    fails, as a reject rule, exactly when its comparison holds and, as an
    accept rule, exactly when its comparison does not hold.  A rule whose
    field is absent or whose value is malformed is not evaluated and does
    not fail.  The MOV file under the rule that accepts MP4, AVI, MKV is
    not valid, with one failed rule. *)
Theorem evaluate_valid_iff_no_rule_failed (md : gmap string Measured)
    (rules : list ValidationRule) :
  (valid (evaluate md rules) = true
   <-> forall r, In r rules -> rule_fails md r = false)
  /\ (valid (evaluate md rules) = true <-> failed_rules (evaluate md rules) = [])
  /\ failed_rules (evaluate md rules) = flat_map (failure md) rules
  /\ rules_checked (evaluate md rules)
     = length (List.filter (resolvable md) rules)
  /\ (forall r,
        rule_fails md r = true
        <-> (action r = Reject /\ comparison md r = Some true)
            \/ (action r = Accept /\ comparison md r = Some false))
  /\ (forall r,
        comparison md r = None
        <-> md !! field r = None
            \/ malformed (field r) (operator r) (value r) = true)
  /\ (forall f op v,
        malformed f op v = true
        <-> match v with
            | Single x =>
                op = OpIn \/ op = OpNotIn
                \/ (known_numeric_field f = true /\ to_number x = None)
            | Many l =>
                (op <> OpIn /\ op <> OpNotIn)
                \/ (known_numeric_field f = true
                    /\ exists s, In s l /\ parse_number s = None)
            end)
  /\ (forall r actual,
        md !! field r = Some actual ->
        malformed (field r) (operator r) (value r) = false ->
        exists holds,
          comparison md r = Some holds
          /\ condition (field r) (operator r) (value r) actual = Some holds
          /\ (rule_fails md r = true
              <-> (action r = Reject /\ holds = true)
                  \/ (action r = Accept /\ holds = false)))
  /\ (forall r,
        md !! field r = None
        \/ malformed (field r) (operator r) (value r) = true ->
        rule_fails md r = false /\ failure md r = [])
  /\ evaluate mov_metadata [accepted_formats]
     = {| valid := false; rules_checked := 1;
          failed_rules :=
            [ {| outcome_field := "general_format_name";
                 outcome_operator := OpIn;
                 outcome_value := Many ["MP4"; "AVI"; "MKV"];
                 actual_value := SStr "MOV";
                 outcome_action := Accept;
                 outcome_description := None |} ] |}.
Proof.
  unfold evaluate.
  destruct (foldl_check md rules
              {| valid := true; rules_checked := 0; failed_rules := [] |})
    as (Hv & Hf & Hc).
  simpl in Hv, Hf, Hc.
  assert (Hall : forallb (fun r => negb (rule_fails md r)) rules = true
                 <-> forall r, In r rules -> rule_fails md r = false).
  { rewrite forallb_forall. split; intros H r Hin.
    - now apply negb_true_iff, H.
    - now apply negb_true_iff, H. }
  assert (Hnone : forall r,
             comparison md r = None
             <-> md !! field r = None
                 \/ malformed (field r) (operator r) (value r) = true).
  { intros r. unfold comparison.
    destruct (md !! field r) as [actual|]; simpl.
    - rewrite condition_none_iff. split; [tauto|].
      intros [H|H]; [discriminate|exact H].
    - tauto. }
  split; [|split; [|split; [|split; [|split; [|split; [|split; [|split;
    [|split]]]]]]]].
  - rewrite Hv. exact Hall.
  - rewrite Hv, Hf. symmetry. apply flat_map_failure_nil.
  - exact Hf.
  - exact Hc.
  - intros r. unfold rule_fails.
    destruct (comparison md r) as [[|]|]; destruct (action r); simpl;
      split; try discriminate; try tauto;
      try (intros [[H1 H2]|[H1 H2]]; discriminate);
      try (intros _; left; split; reflexivity);
      try (intros _; right; split; reflexivity).
  - exact Hnone.
  - exact malformed_iff.
  - intros r actual Hlook Hwell.
    destruct (condition (field r) (operator r) (value r) actual)
      as [holds|] eqn:Hcond.
    + exists holds. unfold rule_fails, comparison. rewrite Hlook. simpl.
      rewrite Hcond. split; [reflexivity|]. split; [reflexivity|].
      destruct holds; destruct (action r); simpl;
        split; try discriminate; try tauto;
        try (intros [[H1 H2]|[H1 H2]]; discriminate).
    + apply condition_none_iff in Hcond. congruence.
  - intros r Hnot. apply Hnone in Hnot.
    assert (Hfails : rule_fails md r = false)
      by (unfold rule_fails; now rewrite Hnot).
    split; [exact Hfails|]. now apply failure_nil.
  - vm_compute. reflexivity.
Qed.


End Engine.

(** Accept rules with a malformed value: one on the height whose value is
    not a number, one with a scalar under [in], one with a list under
    [==]. *)
Definition taller_than_tall : Runtime.ValidationRule :=
  {| Runtime.field := "video_height"; Runtime.operator := Runtime.OpGt;
     Runtime.value := Runtime.Single (Runtime.SStr "tall");
     Runtime.action := Runtime.Accept; Runtime.description := None |}.

Definition in_a_scalar : Runtime.ValidationRule :=
  {| Runtime.field := "general_format_name"; Runtime.operator := Runtime.OpIn;
     Runtime.value := Runtime.Single (Runtime.SStr "MP4");
     Runtime.action := Runtime.Accept; Runtime.description := None |}.

Definition equal_to_a_list : Runtime.ValidationRule :=
  {| Runtime.field := "general_format_name"; Runtime.operator := Runtime.OpEq;
     Runtime.value := Runtime.Many ["MP4"; "AVI"];
     Runtime.action := Runtime.Accept; Runtime.description := None |}.

Definition tall_metadata : gmap string Runtime.Measured :=
  {[ "video_height" := Runtime.Plain (Runtime.SNum 2160) ]}.

(** Accept rules that are not evaluated: the rule on the format name
    against the metadata of a file without one, and the three rules with a
    malformed value against metadata that has their field.  The comparison
    of none holds, since there is none, and none of the rules fails. *)
Lemma accept_rule_not_evaluated_counterexample :
  (Runtime.action Runtime.accepted_formats = Runtime.Accept
   /\ Runtime.comparison ∅ Runtime.accepted_formats = None
   /\ Runtime.rule_fails ∅ Runtime.accepted_formats = false
   /\ Runtime.evaluate ∅ [Runtime.accepted_formats]
      = {| Runtime.valid := true; Runtime.rules_checked := 0;
           Runtime.failed_rules := [] |})
  /\ (Runtime.action taller_than_tall = Runtime.Accept
      /\ Runtime.comparison tall_metadata taller_than_tall = None
      /\ Runtime.rule_fails tall_metadata taller_than_tall = false
      /\ Runtime.evaluate tall_metadata [taller_than_tall]
         = {| Runtime.valid := true; Runtime.rules_checked := 1;
              Runtime.failed_rules := [] |})
  /\ (Runtime.action in_a_scalar = Runtime.Accept
      /\ Runtime.comparison Runtime.mov_metadata in_a_scalar = None
      /\ Runtime.rule_fails Runtime.mov_metadata in_a_scalar = false
      /\ Runtime.evaluate Runtime.mov_metadata [in_a_scalar]
         = {| Runtime.valid := true; Runtime.rules_checked := 1;
              Runtime.failed_rules := [] |})
  /\ (Runtime.action equal_to_a_list = Runtime.Accept
      /\ Runtime.comparison Runtime.mov_metadata equal_to_a_list = None
      /\ Runtime.rule_fails Runtime.mov_metadata equal_to_a_list = false
      /\ Runtime.evaluate Runtime.mov_metadata [equal_to_a_list]
         = {| Runtime.valid := true; Runtime.rules_checked := 1;
              Runtime.failed_rules := [] |}).
Proof. repeat split; vm_compute; reflexivity. Qed.

(** An accept rule on the height against a height that is not a number is
    evaluated, and fails. *)
Example accept_rule_against_text :
  Runtime.evaluate {[ "video_height" := Runtime.Plain (Runtime.SStr "tall") ]}
    [ {| Runtime.field := "video_height"; Runtime.operator := Runtime.OpGt;
         Runtime.value := Runtime.Single (Runtime.SNum 1080);
         Runtime.action := Runtime.Accept; Runtime.description := None |} ]
  = {| Runtime.valid := false; Runtime.rules_checked := 1;
       Runtime.failed_rules :=
         [ {| Runtime.outcome_field := "video_height";
              Runtime.outcome_operator := Runtime.OpGt;
              Runtime.outcome_value := Runtime.Single (Runtime.SNum 1080);
              Runtime.actual_value := Runtime.SStr "tall";
              Runtime.outcome_action := Runtime.Accept;
              Runtime.outcome_description := None |} ] |}.
Proof. vm_compute. reflexivity. Qed.


Example evaluate_rejects_and_accepts :
  Runtime.valid
    (Runtime.evaluate
       {[ "video_height" := Runtime.Plain (Runtime.SStr "2160");
          "general_format_name" := Runtime.Plain (Runtime.SStr "MP4") ]}
       [ {| Runtime.field := "video_height"; Runtime.operator := Runtime.OpGt;
            Runtime.value := Runtime.Single (Runtime.SNum 1080);
            Runtime.action := Runtime.Reject; Runtime.description := None |};
         Runtime.accepted_formats ])
  = false
  /\ Runtime.evaluate
       {[ "general_format_name" := Runtime.Plain (Runtime.SStr "MP4") ]}
       [ {| Runtime.field := "video_height"; Runtime.operator := Runtime.OpGt;
            Runtime.value := Runtime.Single (Runtime.SNum 1080);
            Runtime.action := Runtime.Accept; Runtime.description := None |};
         Runtime.accepted_formats ]
     = {| Runtime.valid := true; Runtime.rules_checked := 1;
          Runtime.failed_rules := [] |}.
Proof. split; vm_compute; reflexivity. Qed.

(** What the session hands to the engine: a duration that the tool
    expresses in milliseconds goes as such, every other value plain. *)
Example measured_durations :
  Runtime.measure (fun _ => true) "general_duration" (Runtime.SNum 45000)
  = Runtime.Milliseconds (Runtime.SNum 45000)
  /\ Runtime.measure (fun _ => true) "video_height" (Runtime.SStr "2160")
     = Runtime.Plain (Runtime.SStr "2160")
  /\ Runtime.measure (fun _ => false) "general_duration" (Runtime.SNum 45)
     = Runtime.Plain (Runtime.SNum 45).
Proof. repeat split. Qed.

(** ** The session: filtering, extraction and validation *)
Section Session.

Import Runtime.

Variable in_milliseconds : Q -> bool.
Variable extract : string -> VideoConfig -> option (gmap string Scalar).
Variable relocate : FileSystem -> string -> option string
                    -> option (FileSystem * string).

Local Abbreviation process := (Runtime.process in_milliseconds extract relocate).

Lemma process_without_extraction (w : Watcher) (fs : FileSystem) (p : string)
    (kind : Kind) :
  match video_config w with
  | Some vc => extract_metadata vc = false
  | None => True
  end ->
  process w fs p kind
  = let f := file_event_filter (config w) fs p kind in
    {| disk_after := disk f;
       log := match verdict f with Drop => logged f | Pass => [] end;
       recorded := match verdict f with
                   | Drop => []
                   | Pass => [plain_event w kind p]
                   end |}.
Proof.
  intros Hvc. unfold Runtime.process, plain_event, emit. cbv zeta.
  destruct (verdict _); [reflexivity|].
  destruct kind; try reflexivity;
    destruct (video_config w) as [vc|]; try reflexivity;
    now rewrite Hvc.
Qed.

Lemma filter_set_enable_validation (b : bool) (w : Watcher) :
  config (set_enable_validation b w) = config w
  /\ id (set_enable_validation b w) = id w
  /\ match video_config (set_enable_validation b w), video_config w with
     | Some vc', Some vc => extract_metadata vc' = extract_metadata vc
     | None, None => True
     | _, _ => False
     end.
Proof. unfold set_enable_validation. simpl. now destruct (video_config w). Qed.

(** C5. With [extract_metadata] false, validation is disabled whatever the
    stored [enable_validation]: the session validates nothing and behaves
    as it does for either stored value, and the Config column shows no
    rules; [submit] sends [video_config = null] for a watcher created with
    [extract_video_metadata] false. *)
Theorem validation_needs_extraction :
  (forall st,
      WatcherCreate.extract_video_metadata (WatcherCreate.videoConfig st)
      = false ->
      WatcherCreate.payload_video_config (WatcherCreate.submit st) = None)
  /\ (forall w vc,
        Watchers.video_config w = Some vc ->
        Watchers.listed_extract_video_metadata vc = false ->
        Watchers.configSummary w
        = Watchers.configSummary
            {| Watchers.watcher_key := Watchers.watcher_key w;
               Watchers.name := Watchers.name w;
               Watchers.path := Watchers.path w;
               Watchers.config := Watchers.config w;
               Watchers.video_config := None |})
  /\ (forall w vc fs p kind,
        video_config w = Some vc -> extract_metadata vc = false ->
        validation_enabled vc = false
        /\ (forall b,
              process (set_enable_validation b w) fs p kind
              = process w fs p kind)
        /\ (forall ev,
              In ev (recorded (process w fs p kind)) ->
              validation_result ev = None /\ event_type ev <> rejected)).
Proof.
  split; [|split].
  - intros st Hoff. unfold WatcherCreate.submit. simpl. now rewrite Hoff.
  - intros w vc Hvc Hoff.
    unfold Watchers.configSummary, Watchers.summary_parts. simpl.
    now rewrite Hvc, Hoff.
  - intros w vc fs p kind Hvc Hoff.
    split; [unfold validation_enabled; now rewrite Hoff|]. split.
    + intros b.
      destruct (filter_set_enable_validation b w) as (Hc & Hi & Hv).
      rewrite !process_without_extraction.
      * unfold plain_event. now rewrite Hc, Hi.
      * now rewrite Hvc.
      * destruct (video_config (set_enable_validation b w)) as [vc'|];
          [|exact I].
        rewrite Hvc in Hv. now rewrite Hv.
    + intros ev. rewrite process_without_extraction by now rewrite Hvc.
      cbv zeta. simpl recorded.
      destruct (verdict _); [intros []|].
      intros [<-|[]]. simpl. split; [reflexivity|].
      now destruct kind.
Qed.

(** C6, as amended. A notification of a kind that the watcher subscribes
    to, for a path that no include pattern matches or that an exclude
    pattern matches, with [auto_delete_excluded] set, the kind not
    [deleted] and the file on disk: no event is recorded and the
    notification is dropped; the file is removed unless its deletion
    fails, and a failure is logged. *)
Theorem excluded_file_deleted_without_event (w : Watcher) (fs : FileSystem)
    (p : string) (kind : Kind) :
  existsb (EventType_eqb (type_of_kind kind)) (event_types (config w)) = true ->
  isIncluded (config w) p = false \/ isExcluded (config w) p = true ->
  auto_delete_excluded (config w) = true ->
  kind <> KDeleted ->
  file_exists fs p = true ->
  recorded (process w fs p kind) = []
  /\ verdict (file_event_filter (config w) fs p kind) = Drop
  /\ (p ∉ undeletable fs ->
      files (disk_after (process w fs p kind)) = files fs ∖ {[p]}
      /\ file_exists (disk_after (process w fs p kind)) p = false
      /\ log (process w fs p kind) = [])
  /\ (p ∈ undeletable fs ->
      disk_after (process w fs p kind) = fs
      /\ log (process w fs p kind) = ["could not delete " +:+ p]).
Proof.
  intros Hsub Hout Hauto Hkind Hexists.
  assert (Hnd : EventType_eqb (type_of_kind kind) deleted = false)
    by now destruct kind.
  assert (Hcond : negb (isIncluded (config w) p) || isExcluded (config w) p
                  = true).
  { destruct Hout as [-> | ->]; [reflexivity|apply orb_true_r]. }
  unfold Runtime.process. cbv zeta.
  unfold file_event_filter.
  rewrite Hsub, Hcond, Hauto, Hnd, Hexists. simpl.
  unfold unlink. unfold file_exists in Hexists. rewrite Hexists. simpl.
  destruct (bool_decide (p ∈ undeletable fs)) eqn:Hlocked; simpl.
  - apply bool_decide_eq_true in Hlocked.
    split; [reflexivity|]. split; [reflexivity|]. split.
    + intros Hfree. contradiction.
    + intros _. split; reflexivity.
  - apply bool_decide_eq_false in Hlocked.
    split; [reflexivity|]. split; [reflexivity|]. split.
    + intros _. split; [reflexivity|]. split; [|reflexivity].
      unfold file_exists. simpl. apply bool_decide_eq_false.
      rewrite elem_of_difference, elem_of_singleton. tauto.
    + intros Hin. contradiction.
Qed.

End Session.

Lemma validation_needs_extraction_witness :
  WatcherCreate.payload_video_config (WatcherCreate.submit WatcherCreate.initial)
  = None
  /\ Runtime.process (fun _ => true) Runtime.no_metadata Runtime.no_move
       (Runtime.set_enable_validation false Runtime.clips_watcher)
       Runtime.clips_disk "/in/clip.MP4" Runtime.KCreated
     = Runtime.process (fun _ => true) Runtime.no_metadata Runtime.no_move
         Runtime.clips_watcher Runtime.clips_disk "/in/clip.MP4"
         Runtime.KCreated.
Proof.
  destruct (validation_needs_extraction (fun _ => true) Runtime.no_metadata
              Runtime.no_move) as (Hsubmit & _ & Hsession).
  split.
  - apply Hsubmit. reflexivity.
  - destruct (Hsession Runtime.clips_watcher _ Runtime.clips_disk
                "/in/clip.MP4" Runtime.KCreated eq_refl eq_refl)
      as (_ & Hsame & _).
    apply Hsame.
Defined.

Example session_records_plain_event :
  Runtime.recorded
    (Runtime.process (fun _ => true) Runtime.no_metadata Runtime.no_move
       Runtime.clips_watcher Runtime.clips_disk "/in/clip.MP4" Runtime.KCreated)
  = [ Runtime.plain_event Runtime.clips_watcher Runtime.KCreated "/in/clip.MP4" ].
Proof. vm_compute. reflexivity. Qed.

(** A created text file is excluded and deleted, without an event. *)
Lemma excluded_file_deleted_without_event_witness :
  Runtime.recorded
    (Runtime.process (fun _ => true) Runtime.no_metadata Runtime.no_move
       Runtime.clips_watcher Runtime.clips_disk "/in/notes.txt" Runtime.KCreated)
  = []
  /\ Runtime.file_exists
       (Runtime.disk_after
          (Runtime.process (fun _ => true) Runtime.no_metadata Runtime.no_move
             Runtime.clips_watcher Runtime.clips_disk "/in/notes.txt"
             Runtime.KCreated)) "/in/notes.txt"
     = false.
Proof.
  assert (Hkind : Runtime.KCreated <> Runtime.KDeleted) by discriminate.
  assert (Hfree : "/in/notes.txt" ∉ Runtime.undeletable Runtime.clips_disk).
  { intros Hin. apply (bool_decide_eq_true_2 _) in Hin.
    vm_compute in Hin. discriminate Hin. }
  destruct (excluded_file_deleted_without_event (fun _ => true)
              Runtime.no_metadata Runtime.no_move Runtime.clips_watcher
              Runtime.clips_disk "/in/notes.txt" Runtime.KCreated
              eq_refl (or_introl eq_refl) eq_refl Hkind eq_refl)
    as (Hnone & _ & Hgone & _).
  split; [exact Hnone|]. exact (proj1 (proj2 (Hgone Hfree))).
Defined.

(** The watcher subscribes to creations only: a modification of an excluded
    file is dropped at the first step and the file stays; and a file whose
    deletion fails stays as well. *)
Lemma excluded_file_kept_counterexample :
  Runtime.isIncluded Runtime.clips_config "/in/notes.txt" = false
  /\ Runtime.auto_delete_excluded Runtime.clips_config = true
  /\ Runtime.file_exists Runtime.clips_disk "/in/notes.txt" = true
  /\ Runtime.file_exists
       (Runtime.disk_after
          (Runtime.process (fun _ => true) Runtime.no_metadata Runtime.no_move
             Runtime.clips_watcher Runtime.clips_disk "/in/notes.txt"
             Runtime.KModified)) "/in/notes.txt"
     = true
  /\ Runtime.isIncluded Runtime.clips_config "/in/held.txt" = false
  /\ Runtime.file_exists Runtime.clips_disk "/in/held.txt" = true
  /\ Runtime.file_exists
       (Runtime.disk_after
          (Runtime.process (fun _ => true) Runtime.no_metadata Runtime.no_move
             Runtime.clips_watcher Runtime.clips_disk "/in/held.txt"
             Runtime.KCreated)) "/in/held.txt"
     = true.
Proof. repeat split; vm_compute; reflexivity. Qed.

(** ** The manager: start and stop *)
Section ManagerFacts.

Import Runtime.

Variable readable : string -> bool.

Local Abbreviation start := (Runtime.start readable).

Lemma isRunning_lookup (m : Manager) (i : nat) :
  isRunning m i = true <-> is_Some (registry m !! i).
Proof. unfold isRunning. apply bool_decide_eq_true. Qed.

Lemma sessions_of_app (i : nat) (s : Session) (l : list Session) :
  List.filter (fun s => Nat.eqb (serves s) i) (l ++ [s])
  = (List.filter (fun s => Nat.eqb (serves s) i) l
     ++ if Nat.eqb (serves s) i then [s] else [])%list.
Proof. rewrite List.filter_app. simpl. now destruct (Nat.eqb (serves s) i). Qed.

Lemma filter_filter_comm {A : Type} (f g : A -> bool) (l : list A) :
  List.filter f (List.filter g l) = List.filter g (List.filter f l).
Proof.
  induction l as [|x l IH]; simpl; [reflexivity|].
  destruct (f x) eqn:Hf, (g x) eqn:Hg; simpl; rewrite ?Hf, ?Hg, IH; reflexivity.
Qed.

(** A registered session is alive and serves the id it is registered under. *)
Lemma registered_alive (m : Manager) (i : nat) (s : Session) :
  coherent m -> registry m !! i = Some s -> In s (live m) /\ serves s = i.
Proof.
  intros (Hreg & _ & _) Hs. specialize (Hreg i). rewrite Hs in Hreg.
  assert (Hin : In s (sessions_of i m)) by (rewrite Hreg; now left).
  unfold sessions_of in Hin. apply filter_In in Hin as [Hin Heq].
  split; [exact Hin|]. now apply Nat.eqb_eq.
Qed.

Lemma coherent_empty (watchers : gmap nat Watcher) :
  coherent (empty_manager watchers).
Proof.
  unfold coherent, empty_manager, sessions_of. simpl.
  split; [|split]; try (intros; contradiction).
  intros i. now rewrite lookup_empty.
Qed.

Lemma start_running (m : Manager) (i : nat) :
  isRunning m i = true -> start i m = (m, Success).
Proof. intros H. unfold Runtime.start. now rewrite H. Qed.

Lemma start_coherent (m : Manager) (i : nat) :
  coherent m -> coherent (fst (start i m)).
Proof.
  intros Hm. unfold Runtime.start.
  destruct (isRunning m i) eqn:Hr; [exact Hm|].
  destruct (storage m !! i) as [w|]; [|exact Hm].
  destruct (readable (path w)); [|exact Hm]. simpl.
  assert (Hnone : registry m !! i = None).
  { destruct (registry m !! i) eqn:E; [|reflexivity].
    assert (isRunning m i = true) by (apply isRunning_lookup; rewrite E; eauto).
    congruence. }
  destruct Hm as (Hreg & Hbound & Huniq).
  set (s := {| handle := created_sessions m; serves := i; snapshot := w |}).
  split; [|split].
  - intros j. unfold sessions_of. simpl. rewrite sessions_of_app.
    fold (sessions_of j m). rewrite Hreg. simpl.
    destruct (Nat.eqb_spec i j) as [<-|Hne].
    + rewrite lookup_insert_eq, Hnone. reflexivity.
    + rewrite lookup_insert_ne by exact Hne. apply app_nil_r.
  - simpl. intros s' Hin. apply in_app_iff in Hin as [Hin|[<-|[]]].
    + specialize (Hbound s' Hin). lia.
    + simpl. lia.
  - simpl. intros s1 s2 H1 H2 Heq.
    apply in_app_iff in H1 as [H1|[<-|[]]];
      apply in_app_iff in H2 as [H2|[<-|[]]].
    + now apply Huniq.
    + specialize (Hbound s1 H1). simpl in Heq. lia.
    + specialize (Hbound s2 H2). simpl in Heq. lia.
    + reflexivity.
Qed.

Lemma stop_coherent (m : Manager) (i : nat) :
  coherent m -> coherent (fst (stop i m)).
Proof.
  intros Hm. unfold stop.
  destruct (registry m !! i) as [s|] eqn:Hs; [|exact Hm]. simpl.
  destruct (registered_alive m i s Hm Hs) as [Hin Hserves].
  pose proof Hm as (Hreg & Hbound & Huniq).
  split; [|split].
  - intros j. unfold sessions_of. simpl.
    rewrite filter_filter_comm. fold (sessions_of j m). rewrite Hreg.
    destruct (Nat.eq_dec i j) as [<-|Hne].
    + rewrite lookup_delete_eq, Hs. simpl. now rewrite Nat.eqb_refl.
    + rewrite lookup_delete_ne by exact Hne.
      destruct (registry m !! j) as [s'|] eqn:Hs'; [|reflexivity]. simpl.
      destruct (registered_alive m j s' Hm Hs') as [Hin' Hserves'].
      destruct (Nat.eqb_spec (handle s') (handle s)) as [Heq|_];
        [|reflexivity].
      assert (s' = s) by now apply Huniq. subst s'. congruence.
  - simpl. intros s' H. apply filter_In in H as [H _]. now apply Hbound.
  - simpl. intros s1 s2 H1 H2.
    apply filter_In in H1 as [H1 _]. apply filter_In in H2 as [H2 _].
    now apply Huniq.
Qed.

(** C7, as amended. On a coherent manager, [start] of a running id
    succeeds and changes nothing, so a second [start] in succession repeats
    the first and leaves exactly one live session when the first
    succeeded; [stop] of an id that is not running succeeds and changes
    nothing, so two [stop]s leave none. *)
Theorem start_stop_idempotent (m : Manager) (i : nat) :
  coherent m ->
  (isRunning m i = true -> start i m = (m, Success))
  /\ start i (fst (start i m)) = start i m
  /\ (snd (start i m) = Success ->
      length (sessions_of i (fst (start i (fst (start i m))))) = 1
      /\ isRunning (fst (start i (fst (start i m)))) i = true
      /\ created_sessions (fst (start i (fst (start i m))))
         = created_sessions (fst (start i m)))
  /\ (isRunning m i = false -> stop i m = (m, Success))
  /\ snd (stop i m) = Success
  /\ stop i (fst (stop i m)) = (fst (stop i m), Success)
  /\ sessions_of i (fst (stop i (fst (stop i m)))) = []
  /\ isRunning (fst (stop i (fst (stop i m)))) i = false.
Proof.
  intros Hm.
  assert (Hstart2 : start i (fst (start i m)) = start i m).
  { unfold Runtime.start at 2 3.
    destruct (isRunning m i) eqn:Hr; simpl.
    - now apply start_running.
    - destruct (storage m !! i) as [w|] eqn:Hw; simpl.
      + destruct (readable (path w)) eqn:Hp; simpl.
        * rewrite start_running; [reflexivity|].
          apply isRunning_lookup. simpl. rewrite lookup_insert_eq. eauto.
        * unfold Runtime.start. now rewrite Hr, Hw, Hp.
      + unfold Runtime.start. now rewrite Hr, Hw. }
  assert (Hstopped : registry (fst (stop i m)) !! i = None).
  { unfold stop. destruct (registry m !! i) eqn:Hs; simpl;
      [apply lookup_delete_eq|exact Hs]. }
  assert (Hstop2 : stop i (fst (stop i m)) = (fst (stop i m), Success)).
  { unfold stop at 1. now rewrite Hstopped. }
  split; [apply start_running|]. split; [exact Hstart2|]. split.
  - intros Hok. rewrite Hstart2.
    pose proof (start_coherent m i Hm) as (Hreg & _ & _).
    assert (Hrun : is_Some (registry (fst (start i m)) !! i)).
    { revert Hok. unfold Runtime.start.
      destruct (isRunning m i) eqn:Hr; simpl.
      - intros _. now apply isRunning_lookup.
      - destruct (storage m !! i) as [w|]; simpl; [|discriminate].
        destruct (readable (path w)); simpl; [|discriminate].
        intros _. rewrite lookup_insert_eq. eauto. }
    split; [|split; [now apply isRunning_lookup|reflexivity]].
    rewrite Hreg. now destruct Hrun as [s ->].
  - split.
    { intros Hr. unfold stop.
      destruct (registry m !! i) eqn:Hs; [|reflexivity].
      assert (isRunning m i = true) by (apply isRunning_lookup; rewrite Hs; eauto).
      congruence. }
    split; [unfold stop; now destruct (registry m !! i)|].
    split; [exact Hstop2|].
    rewrite Hstop2. simpl.
    pose proof (stop_coherent m i Hm) as (Hreg & _ & _).
    split.
    + rewrite Hreg, Hstopped. reflexivity.
    + unfold isRunning. apply bool_decide_eq_false. rewrite Hstopped.
      now intros [x Hx].
Qed.

End ManagerFacts.

(** One stored watcher, every path readable. *)
Definition clips_manager : Runtime.Manager :=
  Runtime.empty_manager {[ 3 := Runtime.clips_watcher ]}.

Lemma start_stop_idempotent_witness :
  length
    (Runtime.sessions_of 3
       (fst (Runtime.start (fun _ => true) 3
               (fst (Runtime.start (fun _ => true) 3 clips_manager)))))
  = 1
  /\ Runtime.sessions_of 3
       (fst (Runtime.stop 3
               (fst (Runtime.stop 3
                       (fst (Runtime.start (fun _ => true) 3 clips_manager))))))
     = [].
Proof.
  split.
  - apply (start_stop_idempotent (fun _ => true) clips_manager 3
             (coherent_empty _)).
    reflexivity.
  - apply (start_stop_idempotent (fun _ => true)
             (fst (Runtime.start (fun _ => true) 3 clips_manager)) 3).
    apply start_coherent, coherent_empty.
Defined.

(** A watcher whose path cannot be read does not start: two calls in
    succession fail and leave no live session. *)
Lemma start_unreadable_path_counterexample :
  Runtime.start (fun _ => false) 3
    (fst (Runtime.start (fun _ => false) 3 clips_manager))
  = (clips_manager, Runtime.Failed "path is not readable")
  /\ length (Runtime.sessions_of 3
               (fst (Runtime.start (fun _ => false) 3
                       (fst (Runtime.start (fun _ => false) 3 clips_manager)))))
     = 0.
Proof. split; reflexivity. Qed.

(** * Further properties of the pages

    What the handlers of the pages do besides what the specification
    claims: the rule forms, the list editors, the event table, the users
    page and the token. *)

(** ** White space, separators and the list text of a rule *)
Section TrimAndSplit.

Import JSValue Types.

(** No character of [s] is [sep]. *)
Fixpoint free (sep : ascii) (s : string) : Prop :=
  match s with
  | EmptyString => True
  | String c s' => c <> sep /\ free sep s'
  end.

Lemma trimEnd_cons (c : ascii) (s : string) :
  JS.trimEnd (String c s)
  = match JS.trimEnd s with
    | EmptyString => if JS.is_space c then EmptyString else String c EmptyString
    | t => String c t
    end.
Proof. reflexivity. Qed.

Lemma trimEnd_idem (s : string) : JS.trimEnd (JS.trimEnd s) = JS.trimEnd s.
Proof.
  induction s as [|c s IH]; [reflexivity|].
  rewrite trimEnd_cons. destruct (JS.trimEnd s) as [|a t] eqn:E.
  - destruct (JS.is_space c) eqn:Ec; [reflexivity|].
    rewrite trimEnd_cons. simpl. now rewrite Ec.
  - rewrite trimEnd_cons, IH. reflexivity.
Qed.

Lemma trimEnd_head (c : ascii) (s : string) :
  JS.is_space c = false -> exists t, JS.trimEnd (String c s) = String c t.
Proof.
  intros Hc. rewrite trimEnd_cons. destruct (JS.trimEnd s) as [|a t].
  - rewrite Hc. now exists "".
  - now exists (String a t).
Qed.

Lemma trimStart_cases (s : string) :
  JS.trimStart s = ""
  \/ exists c t, JS.trimStart s = String c t /\ JS.is_space c = false.
Proof.
  induction s as [|c s IH]; [now left|]. simpl.
  destruct (JS.is_space c) eqn:Ec; [exact IH|]. right. now exists c, s.
Qed.

Lemma trimStart_trim (s : string) : JS.trimStart (JS.trim s) = JS.trim s.
Proof.
  unfold JS.trim. destruct (trimStart_cases s) as [-> | (c & t & -> & Hc)];
    [reflexivity|].
  destruct (trimEnd_head c t Hc) as [u ->]. simpl. now rewrite Hc.
Qed.

Lemma trim_idem (s : string) : JS.trim (JS.trim s) = JS.trim s.
Proof.
  unfold JS.trim at 1. rewrite trimStart_trim. unfold JS.trim.
  apply trimEnd_idem.
Qed.

Lemma trimStart_free (sep : ascii) (s : string) :
  free sep s -> free sep (JS.trimStart s).
Proof.
  induction s as [|c s IH]; simpl; [tauto|].
  intros [Hc Hs]. destruct (JS.is_space c); simpl; auto.
Qed.

Lemma trimEnd_free (sep : ascii) (s : string) :
  free sep s -> free sep (JS.trimEnd s).
Proof.
  induction s as [|c s IH]; [tauto|].
  intros [Hc Hs]. rewrite trimEnd_cons. specialize (IH Hs).
  destruct (JS.trimEnd s) as [|a t].
  - destruct (JS.is_space c); simpl; auto.
  - simpl. simpl in IH. tauto.
Qed.

Lemma trim_free (sep : ascii) (s : string) : free sep s -> free sep (JS.trim s).
Proof. intros H. now apply trimEnd_free, trimStart_free. Qed.

Lemma split_nonempty (sep : ascii) (s : string) : JS.split sep s <> [].
Proof.
  induction s as [|c s IH]; simpl; [discriminate|].
  destruct (Ascii.eqb c sep); [discriminate|].
  now destruct (JS.split sep s).
Qed.

Lemma split_free (sep : ascii) (s : string) : Forall (free sep) (JS.split sep s).
Proof.
  induction s as [|c s IH]; simpl; [now repeat constructor|].
  destruct (Ascii.eqb c sep) eqn:Ec; [now constructor|].
  apply Ascii.eqb_neq in Ec.
  destruct (JS.split sep s) as [|f fs]; [now repeat constructor|].
  inversion IH; subst. constructor; simpl; auto.
Qed.

Lemma split_of_free (sep : ascii) (s : string) :
  free sep s -> JS.split sep s = [s].
Proof.
  induction s as [|c s IH]; simpl; [reflexivity|].
  intros [Hc Hs]. apply Ascii.eqb_neq in Hc. rewrite Hc, (IH Hs). reflexivity.
Qed.

Lemma split_app_sep (sep : ascii) (a b : string) :
  free sep a -> JS.split sep (a +:+ String sep b) = a :: JS.split sep b.
Proof.
  induction a as [|c a IH].
  - intros _. change ("" +:+ String sep b) with (String sep b). simpl.
    now rewrite Ascii.eqb_refl.
  - intros [Hc Ha].
    change (String c a +:+ String sep b) with (String c (a +:+ String sep b)).
    simpl. apply Ascii.eqb_neq in Hc. rewrite Hc, (IH Ha). reflexivity.
Qed.

Lemma split_trim_space (s : string) :
  split_trim (String " " s) = split_trim s.
Proof.
  unfold split_trim. simpl.
  destruct (JS.split "," s) as [|f fs] eqn:E.
  - now apply split_nonempty in E.
  - reflexivity.
Qed.

Lemma split_trim_sep (a b : string) :
  free "," a -> split_trim (a +:+ String "," b) = JS.trim a :: split_trim b.
Proof. intros Ha. unfold split_trim. now rewrite (split_app_sep _ _ _ Ha). Qed.

(** The elements of a list that went through [trim] and hold no comma come
    back from the text that [join(', ')] makes of them. *)
Lemma split_trim_join (l : list string) :
  l <> [] -> Forall (free ",") l -> Forall (fun x => JS.trim x = x) l ->
  split_trim (join ", " l) = l.
Proof.
  induction l as [|x l IH]; [congruence|]. intros _ Hfree Htrim.
  inversion Hfree as [|? ? Hx Hl]; subst.
  inversion Htrim as [|? ? Tx Tl]; subst.
  destruct l as [|y rest].
  - simpl. unfold split_trim. rewrite (split_of_free _ _ Hx). simpl.
    now rewrite Tx.
  - change (join ", " (x :: y :: rest))
      with (x +:+ (", " +:+ join ", " (y :: rest))).
    change (", " +:+ join ", " (y :: rest))
      with (String "," (String " " (join ", " (y :: rest)))).
    rewrite (split_trim_sep _ _ Hx), Tx, split_trim_space. f_equal.
    apply IH; [discriminate|assumption|assumption].
Qed.

Lemma split_trim_round_trip (raw : string) :
  split_trim (join ", " (split_trim raw)) = split_trim raw.
Proof.
  apply split_trim_join.
  - unfold split_trim. intros H. apply map_eq_nil in H.
    now apply split_nonempty in H.
  - apply List.Forall_forall. intros x Hin. unfold split_trim in Hin.
    apply in_map_iff in Hin as (y & <- & Hy). apply trim_free.
    pose proof (split_free "," raw) as Hf.
    rewrite List.Forall_forall in Hf. now apply Hf.
  - apply List.Forall_forall. intros x Hin. unfold split_trim in Hin.
    apply in_map_iff in Hin as (y & <- & Hy). apply trim_idem.
Qed.

End TrimAndSplit.

(** ** The rule table of [Watchers.tsx]: what a stored rule holds, and the
    edit of a list rule *)
Section WatchersRules.

Import JSNumber JSValue Types.

Variable parseInt : string -> number.
Variable parseFloat : string -> number.
Variable ToNumber : string -> number.

(** What the two handlers that store a rule guarantee besides its shape. *)
Definition complete (r : ValidationRule) : Prop :=
  field r <> "" /\ operator r <> "" /\ action r <> ""
  /\ description r <> None
  /\ (is_list_operator (operator r) = false ->
      exists x, value r = JNumber x /\ isNaN x = false).

Lemma or_else_filled (x : option string) (d : string) :
  falsy x = false -> or_else x d <> "" /\ x = Some (or_else x d).
Proof.
  destruct x as [s|]; simpl; [|discriminate].
  destruct s; simpl; [discriminate|]. intros _. split; [discriminate|reflexivity].
Qed.

Lemma or_else_default (x : option string) (d : string) :
  d <> "" -> or_else x d <> "".
Proof.
  intros Hd. destruct x as [[|c s]|]; simpl; try exact Hd. discriminate.
Qed.

Lemma rule_of_form_complete (f : RuleForm) :
  falsy (form_field f) = false -> falsy (form_operator f) = false ->
  Watchers.global_isNaN ToNumber
    (Watchers.parseRuleValue parseInt parseFloat
       (or_else (form_operator f) "") (form_value f))
  && negb (String.eqb (or_else (form_operator f) "") "in")
  && negb (String.eqb (or_else (form_operator f) "") "not_in") = false ->
  complete
    (Watchers.rule_of_form f
       (Watchers.parseRuleValue parseInt parseFloat
          (or_else (form_operator f) "") (form_value f))).
Proof.
  intros Hf Ho Hnan. unfold complete, Watchers.rule_of_form. simpl.
  split; [apply (or_else_filled _ _ Hf)|].
  split; [apply (or_else_filled _ _ Ho)|].
  split; [apply or_else_default; discriminate|].
  split; [discriminate|].
  intros Hop. unfold is_list_operator in Hop.
  apply orb_false_iff in Hop as [Hin Hnot_in].
  rewrite Hin, Hnot_in, !andb_true_r in Hnan.
  unfold Watchers.parseRuleValue, is_list_operator in *.
  rewrite Hin, Hnot_in in *. simpl in *.
  destruct (form_value f) as [s|]; [|discriminate Hnan].
  destruct (JS.includes s "."); simpl in Hnan; eauto.
Qed.

Lemma watchers_step_complete (st : Watchers.State) (a : Watchers.action) :
  (forall r, In (Watchers.Item r)
               (Watchers.validation_rules (Watchers.videoConfig st)) ->
             complete r) ->
  forall r, In (Watchers.Item r)
              (Watchers.validation_rules
                 (Watchers.videoConfig
                    (Watchers.step parseInt parseFloat ToNumber st a))) ->
            complete r.
Proof.
  intros Hok.
  destruct a as [f|f| |index|index| | |b|b|[| |] f|f|index]; simpl;
    try exact Hok.
  - unfold Watchers.addValidationRule.
    destruct (falsy (form_field (Watchers.newRule st))) eqn:Hf; [exact Hok|].
    destruct (falsy (form_operator (Watchers.newRule st))) eqn:Ho;
      [exact Hok|].
    simpl. destruct (bool_decide _); [exact Hok|].
    destruct (_ && _ && _) eqn:Hnan; [exact Hok|]. simpl.
    intros r. rewrite in_app_iff. intros [H|[H|[]]].
    + apply Hok. now apply spread_items.
    + injection H as <-. now apply rule_of_form_complete.
  - intros r H. apply Hok. unfold Watchers.filter_index in H.
    now apply filter_from_items in H.
  - unfold Watchers.startEditRule.
    now destruct (_ !! index) as [[| |r]|].
  - unfold Watchers.saveEditRule.
    destruct (Watchers.editingIndex st) as [index|]; [|exact Hok].
    destruct (Watchers.editRule st) as [f|]; [|exact Hok].
    destruct (falsy (form_field f)) eqn:Hf; [exact Hok|].
    destruct (falsy (form_operator f)) eqn:Ho; [exact Hok|].
    simpl. destruct (bool_decide _); [exact Hok|].
    destruct (_ && _ && _) eqn:Hnan; [exact Hok|]. simpl.
    intros r H. apply assign_items in H as [H|H].
    + apply Hok. now apply spread_items.
    + injection H as ->. now apply rule_of_form_complete.
Qed.

Lemma watchers_run_complete (actions : list Watchers.action) :
  forall st,
    (forall r, In (Watchers.Item r)
                 (Watchers.validation_rules (Watchers.videoConfig st)) ->
               complete r) ->
    forall r, In (Watchers.Item r)
                (Watchers.validation_rules
                   (Watchers.videoConfig
                      (foldl (Watchers.step parseInt parseFloat ToNumber)
                         st actions))) ->
              complete r.
Proof.
  induction actions as [|a actions IH]; intros st Hok; simpl; [exact Hok|].
  apply IH. now apply watchers_step_complete.
Qed.

(** X1. After any sequence of the handlers of the page, every rule of the table
    has a field, an operator, an action and a description, and a rule whose
    operator is not [in] or [not_in] holds a Number that is not NaN: a text
    that does not parse is refused, by [addValidationRule] and by
    [saveEditRule]. *)
Theorem watchers_rules_complete (actions : list Watchers.action)
    (r : ValidationRule) :
  In (Watchers.Item r)
    (Watchers.validation_rules
       (Watchers.videoConfig
          (Watchers.run parseInt parseFloat ToNumber actions))) ->
  field r <> "" /\ operator r <> "" /\ action r <> ""
  /\ description r <> None
  /\ (is_list_operator (operator r) = false ->
      exists x, value r = JNumber x /\ isNaN x = false).
Proof.
  intros H. apply (watchers_run_complete actions Watchers.initial); [|exact H].
  intros r' [].
Qed.

Lemma spread_lookup (a : list Watchers.slot) (r : ValidationRule) :
  forall index,
    a !! index = Some (Watchers.Item r) ->
    Watchers.spread a !! index = Some (Watchers.Item r).
Proof.
  induction a as [|s a IH]; intros [|index]; simpl; try discriminate.
  - now intros [= ->].
  - apply IH.
Qed.

Lemma assign_same (a : list Watchers.slot) (index : nat) (x : Watchers.slot) :
  a !! index = Some x -> Watchers.assign a index x = a.
Proof.
  intros H. unfold Watchers.assign.
  pose proof (lookup_lt_Some _ _ _ H) as Hlt.
  apply Nat.ltb_lt in Hlt. rewrite Hlt. now apply list_insert_id.
Qed.

Lemma truthy_filled (s : string) : s <> "" -> JS.truthy s = true.
Proof. now destruct s. Qed.

(** X2. Edit and Save on a list rule, with nothing typed in between, store the
    rule that was there: the text that [startEditRule] shows,
    [value.join(', ')], splits back into the same list. *)
Theorem edit_list_rule_unchanged (actions : list Watchers.action)
    (index : nat) (r : ValidationRule) :
  let st := Watchers.run parseInt parseFloat ToNumber actions in
  Watchers.validation_rules (Watchers.videoConfig st) !! index
  = Some (Watchers.Item r) ->
  is_list_operator (operator r) = true ->
  exists st1 st2,
    Watchers.startEditRule index st = (st1, Watchers.Done)
    /\ Watchers.saveEditRule parseInt parseFloat ToNumber st1
       = (st2, Watchers.Done)
    /\ Watchers.validation_rules (Watchers.videoConfig st2)
       = Watchers.spread (Watchers.validation_rules (Watchers.videoConfig st))
    /\ Watchers.validation_rules (Watchers.videoConfig st2) !! index
       = Some (Watchers.Item r)
    /\ Watchers.editingIndex st2 = None /\ Watchers.editRule st2 = None.
Proof.
  intros st Hlook Hop.
  assert (Hin : In (Watchers.Item r)
                  (Watchers.validation_rules (Watchers.videoConfig st))).
  { apply list_elem_of_In. eapply list_elem_of_lookup_2. exact Hlook. }
  pose proof (watchers_run_complete actions Watchers.initial
                (fun r' (H : In _ []) => match H with end) r Hin)
    as (Hf & Ho & Ha & Hd & _).
  pose proof (watchers_run_ok parseInt parseFloat ToNumber actions
                Watchers.initial
                (fun r' (H : In _ []) => match H with end) r Hin) as Hwf.
  unfold well_formed in Hwf. rewrite Hop in Hwf. destruct Hwf as [raw Hraw].
  unfold Watchers.startEditRule. rewrite Hlook.
  eexists _, _. split; [reflexivity|].
  unfold Watchers.saveEditRule. simpl.
  rewrite (truthy_filled _ Hf), (truthy_filled _ Ho). simpl.
  unfold Watchers.parseRuleValue. rewrite Hop.
  assert (Hguard : negb (String.eqb (operator r) "in")
                   && negb (String.eqb (operator r) "not_in") = false).
  { unfold is_list_operator in Hop.
    destruct (String.eqb (operator r) "in"); [reflexivity|].
    simpl in Hop. now rewrite Hop. }
  rewrite <- andb_assoc, Hguard, andb_false_r.
  assert (Hrule :
    Watchers.rule_of_form
      {| form_field := Some (field r); form_operator := Some (operator r);
         form_value := Some (Watchers.edit_text (value r));
         form_action := Some (action r);
         form_description :=
           Some (match description r with Some d => d | None => "" end) |}
      (JArray (split_trim (String_of_raw (Some (Watchers.edit_text (value r))))))
    = r).
  { unfold Watchers.rule_of_form. simpl.
    rewrite (truthy_filled _ Hf), (truthy_filled _ Ho), (truthy_filled _ Ha).
    rewrite Hraw. simpl. rewrite split_trim_round_trip.
    destruct r as [fld op v act [d|]]; simpl in *; [|congruence].
    subst v. f_equal. now destruct d. }
  rewrite Hrule. simpl.
  rewrite (assign_same _ _ _ (spread_lookup _ _ _ Hlook)).
  repeat split. now apply spread_lookup.
Qed.

End WatchersRules.

(** The two rules that [sample_actions] leave in the table. *)
Definition sample_list_rule : Types.ValidationRule :=
  {| Types.field := "general_format_name"; Types.operator := "in";
     Types.value := JSValue.JArray ["MP4"; "AVI"; "MKV"];
     Types.action := "reject"; Types.description := Some "" |}.

Definition sample_number_rule : Types.ValidationRule :=
  {| Types.field := "video_height"; Types.operator := ">";
     Types.value := JSValue.JNumber (JSNumber.of_Z 1080);
     Types.action := "reject"; Types.description := Some "" |}.

Definition sample_state : Watchers.State :=
  Watchers.run JSNumber.parseInt10 JSNumber.parseFloat10 JSNumber.parseFloat10
    sample_actions.

Lemma watchers_rules_complete_witness :
  In (Watchers.Item sample_number_rule)
    (Watchers.validation_rules (Watchers.videoConfig sample_state))
  /\ Types.field sample_number_rule <> ""
  /\ exists x, Types.value sample_number_rule = JSValue.JNumber x
               /\ JSNumber.isNaN x = false.
Proof.
  assert (Hin : In (Watchers.Item sample_number_rule)
                  (Watchers.validation_rules
                     (Watchers.videoConfig sample_state))).
  { vm_compute. right. left. reflexivity. }
  split; [exact Hin|].
  destruct (watchers_rules_complete JSNumber.parseInt10 JSNumber.parseFloat10
              JSNumber.parseFloat10 sample_actions sample_number_rule Hin)
    as (Hf & _ & _ & _ & Hnum).
  split; [exact Hf|]. apply Hnum. reflexivity.
Defined.

Lemma edit_list_rule_unchanged_witness :
  exists st1 st2,
    Watchers.startEditRule 0 sample_state = (st1, Watchers.Done)
    /\ Watchers.saveEditRule JSNumber.parseInt10 JSNumber.parseFloat10
         JSNumber.parseFloat10 st1 = (st2, Watchers.Done)
    /\ Watchers.validation_rules (Watchers.videoConfig st2)
       = Watchers.spread
           (Watchers.validation_rules (Watchers.videoConfig sample_state))
    /\ Watchers.validation_rules (Watchers.videoConfig st2) !! 0%nat
       = Some (Watchers.Item sample_list_rule)
    /\ Watchers.editingIndex st2 = None /\ Watchers.editRule st2 = None.
Proof.
  apply (edit_list_rule_unchanged JSNumber.parseInt10 JSNumber.parseFloat10
           JSNumber.parseFloat10 sample_actions 0 sample_list_rule).
  - vm_compute. reflexivity.
  - reflexivity.
Defined.

(** ** The Remove button of the rule table of [Watchers.tsx] *)
Section RemoveRule.

Import Types Watchers.

Lemma filter_from_no_hole (a : list slot) :
  forall i index, ~ In Hole (filter_from i index a).
Proof.
  induction a as [|s a IH]; intros i index; simpl; [tauto|].
  destruct s; try apply IH; destruct (i =? index)%nat; simpl;
    try apply IH; intros [H|H]; try discriminate; now apply IH in H.
Qed.

Lemma filter_from_above (a : list slot) :
  ~ In Hole a ->
  forall i index, (index < i)%nat -> filter_from i index a = a.
Proof.
  induction a as [|s a IH]; intros Hno i index Hlt; simpl; [reflexivity|].
  assert (Hne : (i =? index)%nat = false) by (apply Nat.eqb_neq; lia).
  assert (Hrest : filter_from (S i) index a = a).
  { apply IH; [|lia]. intros H. apply Hno. now right. }
  rewrite Hne, Hrest.
  destruct s; try reflexivity. exfalso. apply Hno. now left.
Qed.

Lemma filter_from_remove_at (a : list slot) :
  ~ In Hole a ->
  forall i index, filter_from i (i + index) a = remove_at index a.
Proof.
  induction a as [|s a IH]; intros Hno i index; simpl;
    [now destruct index|].
  assert (Hno' : ~ In Hole a) by (intros H; apply Hno; now right).
  assert (Hs : s <> Hole) by (intros ->; apply Hno; now left).
  destruct index as [|index].
  - rewrite Nat.add_0_r, Nat.eqb_refl.
    rewrite (filter_from_above a Hno' (S i) i) by lia.
    now destruct s.
  - assert (Hne : (i =? i + S index)%nat = false)
      by (apply Nat.eqb_neq; lia).
    rewrite Hne. replace (i + S index)%nat with (S i + index)%nat by lia.
    rewrite (IH Hno' (S i) index). now destruct s.
Qed.

(** X3. The Remove button of a rule leaves an array without holes, whose rules
    were all in the array before; on an array without holes it removes
    the rule at its index and keeps the others in their order. *)
Theorem removeValidationRule_compacts (index : nat) (st : State) :
  let before := validation_rules (videoConfig st) in
  let after := validation_rules (videoConfig (removeValidationRule index st)) in
  ~ In Hole after
  /\ (forall r, In (Item r) after -> In (Item r) before)
  /\ (~ In Hole before -> after = remove_at index before)
  /\ newRule (removeValidationRule index st) = newRule st
  /\ editingIndex (removeValidationRule index st) = editingIndex st.
Proof.
  intros before after. unfold after, before. simpl. unfold filter_index.
  split; [apply filter_from_no_hole|].
  split; [intros r; apply filter_from_items|].
  split; [|split; reflexivity].
  intros Hno. apply (filter_from_remove_at _ Hno 0 index).
Qed.

End RemoveRule.

(** ** A row removed while another row is being edited ([Watchers.tsx]) *)
Section StaleEdit.

Import JSNumber JSValue Types Watchers.

Variable parseInt : string -> number.
Variable parseFloat : string -> number.
Variable ToNumber : string -> number.

Lemma remove_at_delete {A : Type} (l : list A) :
  forall idx, remove_at idx l = delete idx l.
Proof.
  induction l as [|x l IH]; intros [|idx]; simpl; try reflexivity.
  now rewrite IH.
Qed.

Lemma spread_no_hole (a : list slot) : ~ In Hole a -> spread a = a.
Proof.
  induction a as [|s a IH]; intros Hno; simpl; [reflexivity|].
  rewrite IH by (intros H; apply Hno; now right).
  destruct s; try reflexivity. exfalso. apply Hno. now left.
Qed.

(** X4. The edit of a rule is kept by index.  When a row above the edited one
    is removed, the rules move up and the form stays at its index, now over
    the rule that followed: Save then replaces that rule by the content of
    the form, and the rule that was being edited stays as it was, one row
    up. *)
Theorem save_after_remove (st st' : State) (i j : nat) (r : ValidationRule)
    (f : RuleForm) :
  let rules := validation_rules (videoConfig st) in
  let saved :=
    Item (rule_of_form f
            (parseRuleValue parseInt parseFloat (or_else (form_operator f) "")
               (form_value f))) in
  ~ In Hole rules ->
  rules !! i = Some (Item r) -> (j < i)%nat -> (S i < length rules)%nat ->
  saveEditRule parseInt parseFloat ToNumber
    (step parseInt parseFloat ToNumber
       (step parseInt parseFloat ToNumber (fst (startEditRule i st))
          (RemoveValidationRule j))
       (SetEditRule f))
  = (st', Done) ->
  validation_rules (videoConfig st') = <[i := saved]> (remove_at j rules)
  /\ validation_rules (videoConfig st') !! (i - 1)%nat = Some (Item r)
  /\ validation_rules (videoConfig st') !! i = Some saved
  /\ (forall k, (i < k)%nat ->
        validation_rules (videoConfig st') !! k = rules !! S k)
  /\ editingIndex st' = None.
Proof.
  intros rules saved Hno Hi Hj Hlen.
  unfold startEditRule. fold rules. rewrite Hi. simpl.
  unfold filter_index. fold rules.
  pose proof (filter_from_remove_at rules Hno 0 j) as Hrm.
  change (0 + j)%nat with j in Hrm. rewrite Hrm.
  unfold saveEditRule. simpl.
  destruct (_ || _ || _); [discriminate|].
  destruct (_ && _ && _); [discriminate|].
  intros [= <-]. simpl.
  assert (Hno' : ~ In Hole (remove_at j rules)).
  { intros H. apply Hno. now apply remove_at_In in H. }
  rewrite (spread_no_hole _ Hno').
  assert (Hlen' : (i < length (remove_at j rules))%nat).
  { rewrite remove_at_delete, length_delete; [lia|].
    apply lookup_lt_is_Some. lia. }
  unfold assign. apply Nat.ltb_lt in Hlen' as Hltb. rewrite Hltb.
  fold saved. split; [reflexivity|]. split; [|split; [|split]].
  - rewrite list_lookup_insert_ne by lia.
    rewrite remove_at_delete, list_lookup_delete_ge by lia.
    replace (S (i - 1)) with i by lia. exact Hi.
  - now apply list_lookup_insert_eq.
  - intros k Hk. rewrite list_lookup_insert_ne by lia.
    rewrite remove_at_delete. apply list_lookup_delete_ge. lia.
  - reflexivity.
Qed.

End StaleEdit.

(** Three rules of the table, the second being edited when the first is
    removed. *)
Definition three_rules : list Watchers.action :=
  [ Watchers.SetNewRule (sample_form "video_height" ">" "1080");
    Watchers.AddValidationRule;
    Watchers.SetNewRule (sample_form "video_width" "<" "640");
    Watchers.AddValidationRule;
    Watchers.SetNewRule (sample_form "audio_channels" "==" "2");
    Watchers.AddValidationRule ].

Definition three_rules_state : Watchers.State :=
  Watchers.run JSNumber.parseInt10 JSNumber.parseFloat10 JSNumber.parseFloat10
    three_rules.

Definition rule_of (fld op : string) (n : Z) : Types.ValidationRule :=
  {| Types.field := fld; Types.operator := op;
     Types.value := JSValue.JNumber (JSNumber.of_Z n);
     Types.action := "reject"; Types.description := Some "" |}.

Lemma save_after_remove_witness :
  exists st',
    Watchers.saveEditRule JSNumber.parseInt10 JSNumber.parseFloat10
      JSNumber.parseFloat10
      (Watchers.step JSNumber.parseInt10 JSNumber.parseFloat10
         JSNumber.parseFloat10
         (Watchers.step JSNumber.parseInt10 JSNumber.parseFloat10
            JSNumber.parseFloat10
            (fst (Watchers.startEditRule 1 three_rules_state))
            (Watchers.RemoveValidationRule 0))
         (Watchers.SetEditRule (sample_form "video_width" "<" "720")))
    = (st', Watchers.Done)
    /\ Watchers.validation_rules (Watchers.videoConfig st')
       = [ Watchers.Item (rule_of "video_width" "<" 640);
           Watchers.Item (rule_of "video_width" "<" 720) ].
Proof.
  eexists. split; [vm_compute; reflexivity|].
  match goal with
  | |- Watchers.validation_rules (Watchers.videoConfig ?s) = _ =>
      destruct (save_after_remove JSNumber.parseInt10 JSNumber.parseFloat10
                  JSNumber.parseFloat10 three_rules_state s 1 0
                  (rule_of "video_width" "<" 640)
                  (sample_form "video_width" "<" "720")) as (Heq & _)
  end.
  - vm_compute. intros [H|[H|[H|[]]]]; discriminate H.
  - vm_compute. reflexivity.
  - lia.
  - vm_compute. lia.
  - vm_compute. reflexivity.
  - rewrite Heq. vm_compute. reflexivity.
Defined.

(** ** The rule row of [WatcherCreate.tsx] *)
Section RuleRowFacts.

Import JSNumber JSValue Types.

Variable parseInt : string -> number.
Variable parseFloat : string -> number.

(** What the controls keep true of the form. *)
Definition form_ok (f : RuleForm) : Prop :=
  (exists fld op,
      form_field f = Some fld /\ form_operator f = Some op
      /\ (fld = "" \/ In op (RuleRow.validOps fld)))
  /\ (exists v, form_value f = Some v)
  /\ (exists a, form_action f = Some a /\ In a RuleRow.actionOptions)
  /\ form_description f = Some "".

(** What the controls keep true of a stored rule. *)
Definition row_rule (r : ValidationRule) : Prop :=
  field r <> ""
  /\ In (operator r) (RuleRow.validOps (field r))
  /\ (if WatcherCreate.isNumericField (field r)
      then exists x, value r = JNumber x /\ isNaN x = false
      else exists s, value r = JString s /\ s <> "")
  /\ In (action r) RuleRow.actionOptions
  /\ description r = Some "".

Lemma validOps_comparison (fld op : string) :
  In op (RuleRow.validOps fld) -> In op RuleRow.comparisons.
Proof.
  unfold RuleRow.validOps. destruct (WatcherCreate.isNumericField fld);
    [tauto|]. simpl. tauto.
Qed.

Lemma comparison_scalar (op : string) :
  In op RuleRow.comparisons -> is_list_operator op = false /\ op <> "".
Proof.
  simpl. intros H.
  repeat (destruct H as [<-|H]; [split; [reflexivity|discriminate]|]).
  destruct H.
Qed.

Lemma existsb_eqb_In (x : string) (l : list string) :
  existsb (String.eqb x) l = true -> In x l.
Proof.
  rewrite existsb_exists. intros (y & Hy & Heq).
  apply String.eqb_eq in Heq. now subst.
Qed.

Lemma selectField_ok (fieldVal : string) (f : RuleForm) :
  form_ok f -> form_ok (RuleRow.selectField fieldVal f).
Proof.
  intros (_ & Hv & Ha & Hd). unfold RuleRow.selectField.
  split; [|now repeat split].
  eexists _, _. split; [reflexivity|]. split; [reflexivity|]. right.
  unfold RuleRow.validOps.
  destruct (existsb _ _) eqn:E; [now apply existsb_eqb_In|].
  destruct (WatcherCreate.isNumericField fieldVal); simpl; tauto.
Qed.

Lemma selectOperator_ok (k : nat) (f : RuleForm) :
  form_ok f -> form_ok (RuleRow.selectOperator k f).
Proof.
  intros Hf. unfold RuleRow.selectOperator.
  destruct (_ !! k) as [op|] eqn:E; [|exact Hf].
  destruct Hf as ((fld & op0 & Hfld & _ & _) & Hv & Ha & Hd).
  split; [|now repeat split]. simpl.
  exists fld, op. split; [exact Hfld|]. split; [reflexivity|]. right.
  unfold RuleRow.field_key in E. rewrite Hfld in E.
  apply list_elem_of_In. eapply list_elem_of_lookup_2. exact E.
Qed.

Lemma selectAction_ok (k : nat) (f : RuleForm) :
  form_ok f -> form_ok (RuleRow.selectAction k f).
Proof.
  intros Hf. unfold RuleRow.selectAction.
  destruct (_ !! k) as [a|] eqn:E; [|exact Hf].
  destruct Hf as (Hfo & Hv & _ & Hd).
  split; [exact Hfo|]. split; [exact Hv|]. split; [|exact Hd].
  exists a. split; [reflexivity|].
  apply list_elem_of_In. eapply list_elem_of_lookup_2. exact E.
Qed.

Lemma empty_form_ok : form_ok empty_form.
Proof.
  split; [|split; [|split]]; simpl.
  - exists "", ">". auto.
  - now exists "".
  - exists "reject". auto.
  - reflexivity.
Qed.

(** The rule that the Add button stores from a form the controls made. *)
Lemma added_rule_ok (st st' : WatcherCreate.State) :
  form_ok (WatcherCreate.newRule st) ->
  WatcherCreate.addValidationRule parseInt parseFloat st
  = (st', WatcherCreate.Done) ->
  exists r,
    WatcherCreate.validation_rules (WatcherCreate.videoConfig st')
    = (WatcherCreate.validation_rules (WatcherCreate.videoConfig st) ++ [r])%list
    /\ row_rule r /\ WatcherCreate.newRule st' = empty_form.
Proof.
  intros ((fld & op & Hfld & Hop & Hvalid) & (v & Hv) & (a & Ha & Hact) & Hd).
  unfold WatcherCreate.addValidationRule.
  rewrite Hfld, Hop, Hv, Ha, Hd. simpl.
  destruct fld as [|c fld]; [simpl; discriminate|].
  destruct Hvalid as [Hvalid|Hvalid]; [discriminate|].
  destruct (comparison_scalar op (validOps_comparison _ _ Hvalid))
    as [Hscalar Hne].
  destruct op as [|c' op]; [congruence|]. simpl.
  destruct (bool_decide (Some v = Some "")) eqn:Hempty; [discriminate|].
  assert (Hvne : v <> "").
  { intros ->. now rewrite bool_decide_eq_true_2 in Hempty. }
  unfold WatcherCreate.parseRuleValue. rewrite Hscalar. simpl String_of_raw.
  assert (Haction : (if JS.truthy a then a else "reject") = a).
  { simpl in Hact. destruct Hact as [<-|[<-|[]]]; reflexivity. }
  destruct (WatcherCreate.isNumericField (String c fld)) eqn:Hnum.
  - destruct (isNaN _) eqn:Hnan; simpl; [discriminate|].
    intros [= <-]. eexists. split; [reflexivity|]. split; [|reflexivity].
    unfold row_rule. simpl. rewrite Hnum, Haction.
    repeat split; try assumption; try discriminate. eauto.
  - simpl. intros [= <-]. eexists. split; [reflexivity|].
    split; [|reflexivity].
    unfold row_rule. simpl. rewrite Hnum, Haction.
    repeat split; try assumption; try discriminate. eauto.
Qed.

Lemma added_form_ok (st : WatcherCreate.State) :
  form_ok (WatcherCreate.newRule st) ->
  form_ok (WatcherCreate.newRule
             (fst (WatcherCreate.addValidationRule parseInt parseFloat st))).
Proof.
  intros Hf. unfold WatcherCreate.addValidationRule.
  destruct (_ || _ || _); [exact Hf|].
  destruct (_ && _); [exact Hf|]. apply empty_form_ok.
Qed.

Lemma control_ok (st : WatcherCreate.State) (i : RuleRow.input) :
  form_ok (WatcherCreate.newRule st)
  /\ Forall row_rule
       (WatcherCreate.validation_rules (WatcherCreate.videoConfig st)) ->
  form_ok (WatcherCreate.newRule (RuleRow.control parseInt parseFloat st i))
  /\ Forall row_rule
       (WatcherCreate.validation_rules
          (WatcherCreate.videoConfig (RuleRow.control parseInt parseFloat st i))).
Proof.
  intros [Hf Hr]. unfold RuleRow.control.
  destruct i as [fieldVal|k|text|k| |idx|b|b|k|d]; simpl;
    try (split; [exact Hf|exact Hr]).
  - split; [now apply selectField_ok|exact Hr].
  - split; [now apply selectOperator_ok|exact Hr].
  - split; [|exact Hr]. destruct Hf as (Hfo & _ & Ha & Hd).
    split; [exact Hfo|]. split; [now exists text|]. now split.
  - split; [now apply selectAction_ok|exact Hr].
  - split; [now apply added_form_ok|].
    destruct (WatcherCreate.addValidationRule parseInt parseFloat st)
      as [st' [|msg]] eqn:E.
    + destruct (added_rule_ok st st' Hf E) as (r & Hadd & Hrule & _).
      simpl. rewrite Hadd. apply Forall_app. split; [exact Hr|].
      constructor; [exact Hrule|constructor].
    + simpl. revert E. unfold WatcherCreate.addValidationRule.
      destruct (_ || _ || _); [now intros [= <-]|].
      destruct (_ && _); [now intros [= <-]|]. discriminate.
  - split; [exact Hf|]. rewrite List.Forall_forall in *.
    intros r H. apply Hr. now apply remove_at_In in H.
  - destruct (RuleRow.rejectOptions !! k); simpl; now split.
Qed.

Lemma use_ok (inputs : list RuleRow.input) :
  forall st,
    form_ok (WatcherCreate.newRule st)
    /\ Forall row_rule
         (WatcherCreate.validation_rules (WatcherCreate.videoConfig st)) ->
    Forall row_rule
      (WatcherCreate.validation_rules
         (WatcherCreate.videoConfig
            (foldl (RuleRow.control parseInt parseFloat) st inputs))).
Proof.
  induction inputs as [|i inputs IH]; intros st Hst; simpl; [apply Hst|].
  apply IH. now apply control_ok.
Qed.

(** X5. Whatever the user does with the controls of the creation page, every
    stored rule has a field, one of the operators that the operator select
    offers for that field (so never [in] or [not_in]), the action reject or
    accept and the empty description; on a numeric field its value is a
    Number that is not NaN, on any other field it is the text that was
    typed, which is not empty. *)
Theorem rule_row_rules (inputs : list RuleRow.input) (r : ValidationRule) :
  In r (WatcherCreate.validation_rules
          (WatcherCreate.videoConfig (RuleRow.use parseInt parseFloat inputs))) ->
  field r <> ""
  /\ In (operator r) (RuleRow.validOps (field r))
  /\ is_list_operator (operator r) = false
  /\ (if WatcherCreate.isNumericField (field r)
      then exists x, value r = JNumber x /\ isNaN x = false
      else (operator r = "==" \/ operator r = "!=")
           /\ exists s, value r = JString s /\ s <> "")
  /\ (action r = "reject" \/ action r = "accept")
  /\ description r = Some "".
Proof.
  intros Hin.
  assert (H : Forall row_rule
                (WatcherCreate.validation_rules
                   (WatcherCreate.videoConfig
                      (RuleRow.use parseInt parseFloat inputs)))).
  { apply use_ok. split; [apply empty_form_ok|constructor]. }
  rewrite List.Forall_forall in H.
  destruct (H r Hin) as (Hf & Hop & Hval & Hact & Hd).
  split; [exact Hf|]. split; [exact Hop|].
  split; [apply (comparison_scalar _ (validOps_comparison _ _ Hop))|].
  split; [|split; [destruct Hact as [<-|[<-|[]]]; auto|exact Hd]].
  unfold RuleRow.validOps in Hop.
  destruct (WatcherCreate.isNumericField (field r)); [exact Hval|].
  split; [destruct Hop as [<-|[<-|[]]]; auto|exact Hval].
Qed.

End RuleRowFacts.

(** A numeric rule entered with the controls of the creation page. *)
Definition sample_inputs : list RuleRow.input :=
  [ RuleRow.SelectField "video_height"; RuleRow.TypeValue "1080";
    RuleRow.ClickAddRule;
    RuleRow.SelectField "general_format_name"; RuleRow.SelectOperator 1;
    RuleRow.TypeValue "MOV"; RuleRow.SelectAction 1; RuleRow.ClickAddRule ].

Definition sample_text_rule : Types.ValidationRule :=
  {| Types.field := "general_format_name"; Types.operator := "!=";
     Types.value := JSValue.JString "MOV";
     Types.action := "accept"; Types.description := Some "" |}.

Lemma rule_row_rules_witness :
  WatcherCreate.validation_rules
    (WatcherCreate.videoConfig
       (RuleRow.use JSNumber.parseInt10 JSNumber.parseFloat10 sample_inputs))
  = [sample_number_rule; sample_text_rule]
  /\ In (Types.operator sample_text_rule)
       (RuleRow.validOps (Types.field sample_text_rule))
  /\ Types.is_list_operator (Types.operator sample_text_rule) = false.
Proof.
  assert (Hrules :
    WatcherCreate.validation_rules
      (WatcherCreate.videoConfig
         (RuleRow.use JSNumber.parseInt10 JSNumber.parseFloat10 sample_inputs))
    = [sample_number_rule; sample_text_rule]).
  { vm_compute. reflexivity. }
  split; [exact Hrules|].
  assert (Hin : In sample_text_rule
                  (WatcherCreate.validation_rules
                     (WatcherCreate.videoConfig
                        (RuleRow.use JSNumber.parseInt10 JSNumber.parseFloat10
                           sample_inputs)))).
  { rewrite Hrules. right. left. reflexivity. }
  destruct (rule_row_rules JSNumber.parseInt10 JSNumber.parseFloat10
              sample_inputs sample_text_rule Hin) as (_ & Hop & Hscalar & _).
  split; [exact Hop|exact Hscalar].
Defined.

(** ** The two rule forms on the same input *)
Section TwoForms.

Import JSNumber JSValue Types.

Variable parseInt : string -> number.
Variable parseFloat : string -> number.
Variable ToNumber : string -> number.

(** X6. On a form whose value was typed, the rule form of the table page and
    that of the creation page do the same when the field is numeric and the
    operator compares, and when the field is not numeric and the operator
    is [in] or [not_in]: both refuse, or both append the same rule. *)
Theorem forms_agree (f : RuleForm) (text : string) (stW : Watchers.State)
    (stC : WatcherCreate.State) :
  Watchers.newRule stW = f -> WatcherCreate.newRule stC = f ->
  form_value f = Some text ->
  WatcherCreate.isNumericField (or_else (form_field f) "")
  = negb (is_list_operator (or_else (form_operator f) "")) ->
  match Watchers.addValidationRule parseInt parseFloat ToNumber stW,
        WatcherCreate.addValidationRule parseInt parseFloat stC with
  | (stW', Watchers.Done), (stC', WatcherCreate.Done) =>
      exists r,
        Watchers.validation_rules (Watchers.videoConfig stW')
        = (Watchers.spread (Watchers.validation_rules (Watchers.videoConfig stW))
           ++ [Watchers.Item r])%list
        /\ WatcherCreate.validation_rules (WatcherCreate.videoConfig stC')
           = (WatcherCreate.validation_rules (WatcherCreate.videoConfig stC)
              ++ [r])%list
  | (stW', Watchers.Alert _), (stC', WatcherCreate.Alert _) =>
      stW' = stW /\ stC' = stC
  | _, _ => False
  end.
Proof.
  intros HW HC Hv Hkind.
  unfold Watchers.addValidationRule, WatcherCreate.addValidationRule.
  rewrite HW, HC.
  destruct (falsy (form_field f) || falsy (form_operator f)
            || bool_decide (form_value f = Some "")); [now split|].
  unfold Watchers.parseRuleValue, WatcherCreate.parseRuleValue.
  rewrite Hkind, Hv. unfold is_list_operator in *.
  destruct (String.eqb (or_else (form_operator f) "") "in") eqn:Ein;
    [simpl; rewrite andb_false_r; simpl; eexists; split; reflexivity|].
  destruct (String.eqb (or_else (form_operator f) "") "not_in") eqn:Enot;
    [simpl; rewrite andb_false_r; simpl; eexists; split; reflexivity|].
  simpl. rewrite !andb_true_r.
  destruct (JS.includes text "."); simpl;
    destruct (isNaN _); simpl; try (now split);
    eexists; split; reflexivity.
Qed.

End TwoForms.

Definition sample_table_state : Watchers.State :=
  Watchers.step JSNumber.parseInt10 JSNumber.parseFloat10 JSNumber.parseFloat10
    Watchers.initial
    (Watchers.SetNewRule (sample_form "video_height" ">" "1080")).

Definition sample_create_state : WatcherCreate.State :=
  WatcherCreate.step JSNumber.parseInt10 JSNumber.parseFloat10
    WatcherCreate.initial
    (WatcherCreate.SetNewRule (sample_form "video_height" ">" "1080")).

Lemma forms_agree_witness :
  match Watchers.addValidationRule JSNumber.parseInt10 JSNumber.parseFloat10
          JSNumber.parseFloat10 sample_table_state,
        WatcherCreate.addValidationRule JSNumber.parseInt10
          JSNumber.parseFloat10 sample_create_state with
  | (stW', Watchers.Done), (stC', WatcherCreate.Done) =>
      exists r,
        Watchers.validation_rules (Watchers.videoConfig stW')
        = (Watchers.spread
             (Watchers.validation_rules (Watchers.videoConfig sample_table_state))
           ++ [Watchers.Item r])%list
        /\ WatcherCreate.validation_rules (WatcherCreate.videoConfig stC')
           = (WatcherCreate.validation_rules
                (WatcherCreate.videoConfig sample_create_state) ++ [r])%list
  | (stW', Watchers.Alert _), (stC', WatcherCreate.Alert _) =>
      stW' = sample_table_state /\ stC' = sample_create_state
  | _, _ => False
  end.
Proof.
  apply (forms_agree JSNumber.parseInt10 JSNumber.parseFloat10
           JSNumber.parseFloat10 (sample_form "video_height" ">" "1080")
           "1080" sample_table_state sample_create_state);
    reflexivity.
Defined.

(** ** The list editors of the two pages *)
Section FilterIndex.

Context {A : Type}.

Lemma filter_index_above (l : list A) :
  forall k index,
    (index < k)%nat ->
    map snd (List.filter (fun ip => negb (fst ip =? index)%nat)
               (imap (fun i x => ((k + i)%nat, x)) l)) = l.
Proof.
  induction l as [|x l IH]; intros k index Hlt; [reflexivity|].
  rewrite imap_cons. simpl.
  assert (Hne : (k + 0 =? index)%nat = false) by (apply Nat.eqb_neq; lia).
  rewrite Hne. simpl. f_equal.
  rewrite <- (IH (S k) index) at 2 by lia.
  f_equal. f_equal. apply imap_ext. intros i y _. simpl. f_equal. lia.
Qed.

Lemma filter_index_from (l : list A) :
  forall k index,
    map snd (List.filter (fun ip => negb (fst ip =? k + index)%nat)
               (imap (fun i x => ((k + i)%nat, x)) l))
    = Types.remove_at index l.
Proof.
  induction l as [|x l IH]; intros k index; [now destruct index|].
  rewrite imap_cons. simpl. destruct index as [|index].
  - rewrite Nat.eqb_refl. simpl.
    rewrite <- (filter_index_above l (S k) (k + 0)) at 2 by lia.
    f_equal. f_equal. apply imap_ext. intros i y _. simpl. f_equal. lia.
  - assert (Hne : (k + 0 =? k + S index)%nat = false)
      by (apply Nat.eqb_neq; lia).
    rewrite Hne. simpl. f_equal. rewrite <- (IH (S k) index).
    replace (S k + index)%nat with (k + S index)%nat by lia.
    f_equal. f_equal. apply imap_ext. intros i y _. simpl. f_equal. lia.
Qed.

Lemma filter_not_index_remove_at (index : nat) (l : list A) :
  PatternEditor.filter_not_index index l = Types.remove_at index l.
Proof.
  unfold PatternEditor.filter_not_index. rewrite <- (filter_index_from l 0 index).
  reflexivity.
Qed.

End FilterIndex.

Section Lists.

Import Types.

Lemma includes_In (l : list string) (x : string) :
  PatternEditor.includes l x = true <-> In x l.
Proof.
  unfold PatternEditor.includes. rewrite existsb_exists. split.
  - intros (y & Hy & Heq). apply String.eqb_eq in Heq. now subst.
  - intros H. exists x. split; [exact H|apply String.eqb_refl].
Qed.

Lemma toggle_In (f x : string) (l : list string) :
  In x (toggle f l) <-> (if String.eqb x f then ~ In f l else In x l).
Proof.
  unfold toggle. fold (PatternEditor.includes l f).
  destruct (PatternEditor.includes l f) eqn:E.
  - apply includes_In in E. rewrite filter_In.
    destruct (String.eqb x f) eqn:Ex; simpl.
    + apply String.eqb_eq in Ex. subst. split; [intros [_ H]; discriminate|tauto].
    + tauto.
  - assert (Hn : ~ In f l).
    { intros H. apply includes_In in H. congruence. }
    rewrite in_app_iff. simpl.
    destruct (String.eqb x f) eqn:Ex.
    + apply String.eqb_eq in Ex. subst. tauto.
    + apply String.eqb_neq in Ex. split; [intros [H|[H|[]]]; congruence|tauto].
Qed.

Lemma NoDup_filter_keep {A : Type} (p : A -> bool) (l : list A) :
  List.NoDup l -> List.NoDup (List.filter p l).
Proof.
  induction 1 as [|x l Hx Hl IH]; simpl; [constructor|].
  destruct (p x); [|exact IH]. constructor; [|exact IH].
  rewrite filter_In. tauto.
Qed.

(** X7. A click on a check box of the event types or of the video, audio and
    general fields flips that box and leaves every other box as it was; a
    list without duplicates stays without duplicates, and a second click
    brings back the same boxes. *)
Theorem toggle_flips (f : string) (l : list string) :
  PatternEditor.includes (toggle f l) f = negb (PatternEditor.includes l f)
  /\ (forall x, x <> f ->
        PatternEditor.includes (toggle f l) x = PatternEditor.includes l x)
  /\ (forall x, PatternEditor.includes (toggle f (toggle f l)) x
                = PatternEditor.includes l x)
  /\ (List.NoDup l -> List.NoDup (toggle f l))
  /\ (PatternEditor.includes l f = false -> toggle f (toggle f l) = l).
Proof.
  assert (Hflip : forall l', PatternEditor.includes (toggle f l') f
                             = negb (PatternEditor.includes l' f)).
  { intros l'. apply eq_true_iff_eq. rewrite includes_In, toggle_In.
    rewrite String.eqb_refl, negb_true_iff, <- not_true_iff_false.
    now rewrite includes_In. }
  assert (Hother : forall l' x, x <> f ->
            PatternEditor.includes (toggle f l') x = PatternEditor.includes l' x).
  { intros l' x Hx. apply eq_true_iff_eq. rewrite !includes_In, toggle_In.
    apply String.eqb_neq in Hx. now rewrite Hx. }
  split; [apply Hflip|]. split; [apply Hother|].
  split; [|split].
  - intros x. destruct (String.eqb x f) eqn:Ex.
    + apply String.eqb_eq in Ex. subst x. rewrite !Hflip. apply negb_involutive.
    + apply String.eqb_neq in Ex. now rewrite !Hother.
  - intros Hnd. unfold toggle. destruct (existsb _ l) eqn:E.
    + now apply NoDup_filter_keep.
    + apply NoDup_ListNoDup, NoDup_app. split; [now apply NoDup_ListNoDup|].
      split; [|apply NoDup_singleton].
      intros x Hx Hf. apply list_elem_of_singleton in Hf. subst x.
      apply list_elem_of_In, includes_In in Hx.
      unfold PatternEditor.includes in Hx. congruence.
  - intros Hno. unfold toggle at 2. unfold PatternEditor.includes in Hno.
    rewrite Hno. unfold toggle.
    assert (Hin : existsb (String.eqb f) (l ++ [f]) = true).
    { rewrite existsb_app. simpl. now rewrite String.eqb_refl, orb_true_r. }
    rewrite Hin, List.filter_app. simpl. rewrite String.eqb_refl. simpl.
    rewrite app_nil_r.
    assert (Hall : forall x, In x l -> negb (String.eqb x f) = true).
    { intros x Hx. apply negb_true_iff, String.eqb_neq. intros ->.
      apply includes_In in Hx. unfold PatternEditor.includes in Hx. congruence. }
    clear Hno Hin Hflip Hother. induction l as [|y l IH]; [reflexivity|].
    simpl. rewrite (Hall y (or_introl eq_refl)). f_equal.
    apply IH. intros x Hx. apply Hall. now right.
Qed.

(** X8. The row buttons of the pattern lists, of the custom fields and of the
    rules remove the element at their index and keep the others in their
    order; an index past the end removes nothing. *)
Theorem remove_by_index {A : Type} (idx : nat) (l : list A) :
  let l' := PatternEditor.filter_not_index idx l in
  l' = (take idx l ++ drop (S idx) l)%list
  /\ (forall i, (i < idx)%nat -> l' !! i = l !! i)
  /\ (forall i, (idx <= i)%nat -> l' !! i = l !! S i)
  /\ ((idx < length l)%nat -> S (length l') = length l)
  /\ ((length l <= idx)%nat -> l' = l)
  /\ remove_at idx l = l'.
Proof.
  intros l'.
  assert (Heq : l' = delete idx l).
  { unfold l'. rewrite filter_not_index_remove_at.
    clear l'. revert idx. induction l as [|x l IH]; intros [|idx]; simpl;
      try reflexivity. now rewrite IH. }
  split; [rewrite Heq; apply delete_take_drop|].
  split; [intros i Hi; rewrite Heq; now apply list_lookup_delete_lt|].
  split; [intros i Hi; rewrite Heq; now apply list_lookup_delete_ge|].
  split; [|split].
  - intros Hlt. rewrite Heq, length_delete; [lia|].
    now apply lookup_lt_is_Some.
  - intros Hge. rewrite Heq. apply list_eq. intros i.
    destruct (decide (i < idx)%nat) as [Hi|Hi].
    + now apply list_lookup_delete_lt.
    + rewrite list_lookup_delete_ge by lia.
      rewrite !lookup_ge_None_2 by lia. reflexivity.
  - unfold l'. symmetry. apply filter_not_index_remove_at.
Qed.

Lemma imap_update {A : Type} (value : A) (l : list A) :
  forall index,
    imap (fun i p => if (i =? index)%nat then value else p) l
    = <[index := value]> l.
Proof.
  induction l as [|x l IH]; intros index; [reflexivity|].
  rewrite imap_cons. destruct index as [|index]; simpl.
  - f_equal. rewrite <- (list_fmap_id l) at 2. rewrite <- (imap_const id l).
    apply imap_ext. reflexivity.
  - f_equal. rewrite <- IH. apply imap_ext. reflexivity.
Qed.

(** X9. Typing in the input of a pattern row replaces the pattern of that row
    and no other, whatever is typed (the text is not trimmed, and may be
    empty); the list keeps its length and the other list is untouched. *)
Theorem updatePattern_spec (k : PatternEditor.kind) (index : nat)
    (value : string) (st : PatternEditor.State) :
  let old := PatternEditor.patterns k (PatternEditor.config st) in
  let new := PatternEditor.patterns k
               (PatternEditor.config
                  (PatternEditor.updatePattern k index value st)) in
  new = <[index := value]> old
  /\ length new = length old
  /\ ((index < length old)%nat -> new !! index = Some value)
  /\ (forall i, i <> index -> new !! i = old !! i)
  /\ ((length old <= index)%nat -> new = old)
  /\ (forall k', k' <> k ->
        PatternEditor.patterns k'
          (PatternEditor.config (PatternEditor.updatePattern k index value st))
        = PatternEditor.patterns k' (PatternEditor.config st)).
Proof.
  intros old new.
  assert (Heq : new = <[index := value]> old).
  { unfold new, old. destruct k; simpl; apply imap_update. }
  split; [exact Heq|]. rewrite Heq.
  split; [apply length_insert|].
  split; [intros H; now apply list_lookup_insert_eq|].
  split; [intros i Hi; apply list_lookup_insert_ne; congruence|].
  split; [intros H; now apply list_insert_ge|].
  intros k' Hk. destruct k, k'; try congruence; reflexivity.
Qed.

(** A string has no white space at either end. *)
Definition tight (s : string) : Prop :=
  forall c rest,
    (s = String c rest -> JS.is_space c = false)
    /\ (s = rest +:+ String c "" -> JS.is_space c = false).

Lemma trimEnd_last (s : string) :
  forall rest c,
    JS.trimEnd s = rest +:+ String c "" -> JS.is_space c = false.
Proof.
  induction s as [|a s IH]; intros rest c.
  - destruct rest; discriminate.
  - rewrite trimEnd_cons. destruct (JS.trimEnd s) as [|b t] eqn:E.
    + destruct (JS.is_space a) eqn:Ea; [destruct rest; discriminate|].
      destruct rest as [|a' rest].
      * now intros [= <-].
      * intros [= _ H]. destruct rest; discriminate.
    + destruct rest as [|a' rest]; [discriminate|].
      intros [= _ H]. now apply (IH rest c).
Qed.

Lemma trim_tight (s : string) : tight (JS.trim s).
Proof.
  intros c rest. split.
  - unfold JS.trim.
    destruct (trimStart_cases s) as [-> | (a & t & -> & Ha)];
      [discriminate|].
    destruct (trimEnd_head a t Ha) as [u ->]. now intros [= <- _].
  - apply trimEnd_last.
Qed.

(** X10. The Add button of a pattern editor appends the trimmed text of its
    input and empties the input; a text that is empty or only white space
    adds nothing.  So a pattern that it adds is never empty and has no white
    space at either end. *)
Theorem addPattern_trimmed (k : PatternEditor.kind) (st : PatternEditor.State) :
  let pattern := JS.trim (PatternEditor.input k st) in
  let st' := PatternEditor.addPattern k st in
  (pattern = "" -> st' = st)
  /\ (pattern <> "" ->
      PatternEditor.patterns k (PatternEditor.config st')
      = (PatternEditor.patterns k (PatternEditor.config st) ++ [pattern])%list
      /\ PatternEditor.input k st' = "")
  /\ (forall k', k' <> k ->
        PatternEditor.patterns k' (PatternEditor.config st')
        = PatternEditor.patterns k' (PatternEditor.config st)
        /\ PatternEditor.input k' st' = PatternEditor.input k' st)
  /\ (forall p, In p (PatternEditor.patterns k (PatternEditor.config st')) ->
        In p (PatternEditor.patterns k (PatternEditor.config st))
        \/ (p <> "" /\ tight p)).
Proof.
  intros pattern st'. unfold st', PatternEditor.addPattern. fold pattern.
  destruct (JS.truthy pattern) eqn:E; simpl.
  - assert (Hne : pattern <> "") by (intros H; rewrite H in E; discriminate).
    split; [congruence|].
    split; [intros _; destruct k; split; reflexivity|].
    split; [intros k' Hk; destruct k, k'; try congruence; split; reflexivity|].
    intros p Hp.
    assert (Hp' : In p (PatternEditor.patterns k (PatternEditor.config st)
                        ++ [pattern])%list) by (destruct k; exact Hp).
    apply in_app_iff in Hp' as [H|[<-|[]]]; [now left|right].
    split; [exact Hne|apply trim_tight].
  - apply truthy_empty in E.
    split; [reflexivity|]. split; [congruence|].
    split; [intros k' _; split; reflexivity|]. intros p Hp. now left.
Qed.

End Lists.

(** ** The expanded rows and the Clear buttons of [Events.tsx] *)
Section EventsViewFacts.

Import JSNumber JSValue Events JSString EventsView.

Variable getTime : string -> number.

(** X11. A click on Show or Hide changes the state of that event only, and a
    second click undoes the first; clicks on different events commute. *)
Theorem toggleEventExpansion_flips (eventId : Z) (expandedEvents : gset Z) :
  (forall x, x ∈ toggleEventExpansion eventId expandedEvents
             <-> (if bool_decide (x = eventId) then x ∉ expandedEvents
                  else x ∈ expandedEvents))
  /\ toggleEventExpansion eventId (toggleEventExpansion eventId expandedEvents)
     = expandedEvents
  /\ (forall other,
        toggleEventExpansion eventId (toggleEventExpansion other expandedEvents)
        = toggleEventExpansion other
            (toggleEventExpansion eventId expandedEvents))
  /\ (button (toggleEventExpansion eventId expandedEvents) eventId = "Hide"
      <-> button expandedEvents eventId = "Show").
Proof.
  assert (Hmem : forall (i : Z) (s : gset Z) x,
             x ∈ toggleEventExpansion i s
             <-> (if bool_decide (x = i) then x ∉ s else x ∈ s)).
  { intros i s x. unfold toggleEventExpansion.
    destruct (bool_decide (i ∈ s)) eqn:E.
    - apply bool_decide_eq_true in E.
      rewrite elem_of_difference, elem_of_singleton.
      destruct (bool_decide (x = i)) eqn:Ex.
      + apply bool_decide_eq_true in Ex. subst. tauto.
      + apply bool_decide_eq_false in Ex. tauto.
    - apply bool_decide_eq_false in E.
      rewrite elem_of_union, elem_of_singleton.
      destruct (bool_decide (x = i)) eqn:Ex.
      + apply bool_decide_eq_true in Ex. subst. tauto.
      + apply bool_decide_eq_false in Ex. tauto. }
  split; [apply Hmem|]. split; [|split].
  - apply set_eq. intros x. rewrite Hmem.
    destruct (bool_decide (x = eventId)) eqn:Ex; rewrite Hmem, Ex; [|tauto].
    destruct (decide (x ∈ expandedEvents)); tauto.
  - intros other. apply set_eq. intros x.
    rewrite (Hmem eventId (toggleEventExpansion other expandedEvents)).
    rewrite (Hmem other (toggleEventExpansion eventId expandedEvents)).
    destruct (bool_decide (x = eventId)) eqn:Ex;
      destruct (bool_decide (x = other)) eqn:Eo;
      rewrite ?Hmem, ?Ex, ?Eo; tauto.
  - unfold button.
    destruct (bool_decide (eventId ∈ expandedEvents)) eqn:E;
      destruct (bool_decide (eventId ∈ toggleEventExpansion _ _)) eqn:E';
      try (split; congruence).
    + apply bool_decide_eq_true in E, E'. apply Hmem in E'.
      rewrite bool_decide_eq_true_2 in E' by reflexivity. contradiction.
    + apply bool_decide_eq_false in E, E'. exfalso. apply E'. apply Hmem.
      now rewrite bool_decide_eq_true_2 by reflexivity.
Qed.

Lemma filter_keep_all {A : Type} (p : A -> bool) (l : list A) :
  (forall x, In x l -> p x = true) -> List.filter p l = l.
Proof.
  induction l as [|x l IH]; intros H; simpl; [reflexivity|].
  rewrite (H x (or_introl eq_refl)). f_equal. apply IH.
  intros y Hy. apply H. now right.
Qed.

(** X12. A filter whose four texts are empty or white space and whose bounds are
    empty shows every event, so the two Clear buttons together do; each
    Clear button only adds rows to the table, and the two commute. *)
Theorem clear_shows_more (f : Filters) (items : list Event) :
  (JS.trim (filter_id f) = "" -> JS.trim (filter_watcher f) = "" ->
   JS.trim (filter_type f) = "" -> JS.trim (filter_path f) = "" ->
   filter_start f = "" -> filter_end f = "" ->
   filteredItems getTime f items = items)
  /\ filteredItems getTime (clearColumns (clearRange f)) items = items
  /\ (forall e, In e (filteredItems getTime f items) ->
                In e (filteredItems getTime (clearRange f) items))
  /\ (forall e, In e (filteredItems getTime f items) ->
                In e (filteredItems getTime (clearColumns f) items))
  /\ clearColumns (clearRange f) = clearRange (clearColumns f).
Proof.
  assert (Hall : forall g,
            JS.trim (filter_id g) = "" -> JS.trim (filter_watcher g) = "" ->
            JS.trim (filter_type g) = "" -> JS.trim (filter_path g) = "" ->
            filter_start g = "" -> filter_end g = "" ->
            filteredItems getTime g items = items).
  { intros g Hi Hw Ht Hp Hs He. unfold filteredItems.
    apply filter_keep_all. intros e _. unfold keep.
    now rewrite Hi, Hw, Ht, Hp, Hs, He. }
  split; [apply Hall|]. split; [now apply Hall|].
  split; [|split; [|reflexivity]].
  - intros e. unfold filteredItems. rewrite !filter_In, !keep_conjunction.
    rewrite !andb_true_iff. intros (Hin & (((Hi & Hw) & Ht) & Hp) & _).
    repeat split; assumption.
  - intros e. unfold filteredItems. rewrite !filter_In, !keep_conjunction.
    rewrite !andb_true_iff. intros (Hin & _ & Hd).
    repeat split; assumption.
Qed.

End EventsViewFacts.

(** ** The metadata card of [Events.tsx] and the labels of the fields *)
Section MetadataCard.

Import JSNumber JSValue Events JSString EventsView.

Lemma append_cons (c : ascii) (a b : string) :
  String c a +:+ b = String c (a +:+ b).
Proof. reflexivity. Qed.

Lemma append_empty (b : string) : "" +:+ b = b.
Proof. reflexivity. Qed.

Lemma prefix_iff (p s : string) :
  String.prefix p s = true <-> exists rest, s = p +:+ rest.
Proof.
  revert s. induction p as [|a p IH]; intros s.
  - split; [intros _; now exists s|intros _; now destruct s].
  - destruct s as [|b s]; simpl.
    + split; [discriminate|]. intros [rest H]. rewrite append_cons in H.
      discriminate.
    + destruct (ascii_dec a b) as [<-|Hne].
      * rewrite IH. split; intros [rest H]; exists rest.
        -- rewrite append_cons. now f_equal.
        -- rewrite append_cons in H. now injection H.
      * split; [discriminate|]. intros [rest H]. rewrite append_cons in H.
        injection H as H _. congruence.
Qed.

Lemma drop_prefix (p rest : string) : drop (String.length p) (p +:+ rest) = rest.
Proof.
  induction p as [|a p IH]; simpl.
  - rewrite append_empty. now destruct rest.
  - exact IH.
Qed.

Lemma replace_unfold (pat rep s : string) :
  replace pat rep s
  = if String.prefix pat s then rep +:+ drop (String.length pat) s
    else match s with
         | EmptyString => EmptyString
         | String c s' => String c (replace pat rep s')
         end.
Proof. now destruct s. Qed.

(** Removing a prefix with [replace]: the first occurrence is the prefix. *)
Lemma replace_prefix (p rest : string) : replace p "" (p +:+ rest) = rest.
Proof.
  rewrite replace_unfold.
  assert (H : String.prefix p (p +:+ rest) = true).
  { apply prefix_iff. now exists rest. }
  now rewrite H, drop_prefix, append_empty.
Qed.

(** The prefix of the keys of a category. *)
Definition prefixes : list (string * string) :=
  [ ("Video", "video_"); ("Audio", "audio_"); ("General", "general_");
    ("Custom", "custom_") ].

Definition line_of (m : metadata) (p rest : string) : line :=
  {| line_key := p +:+ rest;
     label := replace "_" " " rest;
     shown := formatMetadataValue (get m (p +:+ rest)) |}.

Lemma category_lines (m : metadata) (category p : string) (c : string)
    (lines : list line) :
  JS.toLowerCase category +:+ "_" = p ->
  In (c, lines)
    (match List.filter (fun key => startsWith key p) (keys m) with
     | [] => []
     | _ =>
         [ (category,
            map (fun field =>
                   {| line_key := field;
                      label := replace "_" " "
                                 (replace (JS.toLowerCase category +:+ "_") ""
                                    field);
                      shown := formatMetadataValue (get m field) |})
              (List.filter (fun key => startsWith key p) (keys m))) ]
     end) ->
  c = category /\ lines <> []
  /\ forall l, In l lines
               <-> exists rest, In (p +:+ rest) (keys m) /\ l = line_of m p rest.
Proof.
  intros Hp. rewrite Hp.
  destruct (List.filter _ (keys m)) as [|k ks] eqn:E; [intros []|].
  rewrite <- E. intros [[= <- <-]|[]].
  split; [reflexivity|]. split; [rewrite E; discriminate|].
  intros l. rewrite in_map_iff. split.
  - intros (field & <- & Hin). apply filter_In in Hin as [Hin Hpre].
    apply prefix_iff in Hpre as [rest ->]. exists rest.
    split; [exact Hin|]. unfold line_of. now rewrite replace_prefix.
  - intros (rest & Hin & ->). exists (p +:+ rest).
    split; [unfold line_of; now rewrite replace_prefix|].
    apply filter_In. split; [exact Hin|]. apply prefix_iff. now exists rest.
Qed.

(** X13. The card of an event shows a key of its metadata under the category
    whose prefix the key starts with, and under no other; a key with none of
    the four prefixes is not shown.  The label of a line is the key without
    the prefix, its first underscore replaced by a space. *)
Theorem card_lines (m : metadata) :
  (forall category lines,
      In (category, lines) (renderVideoMetadata m) ->
      lines <> []
      /\ exists p,
           In (category, p) prefixes
           /\ forall l, In l lines
                        <-> exists rest,
                              In (p +:+ rest) (keys m) /\ l = line_of m p rest)
  /\ (forall key,
        In key (keys m) ->
        (exists category lines l,
            In (category, lines) (renderVideoMetadata m)
            /\ In l lines /\ line_key l = key)
        <-> exists category p, In (category, p) prefixes
                               /\ startsWith key p = true)
  /\ (forall c1 lines1 l1 c2 lines2 l2,
        In (c1, lines1) (renderVideoMetadata m) -> In l1 lines1 ->
        In (c2, lines2) (renderVideoMetadata m) -> In l2 lines2 ->
        line_key l1 = line_key l2 -> c1 = c2).
Proof.
  assert (Hcat : forall category lines,
      In (category, lines) (renderVideoMetadata m) ->
      lines <> []
      /\ exists p,
           In (category, p) prefixes
           /\ forall l, In l lines
                        <-> exists rest,
                              In (p +:+ rest) (keys m) /\ l = line_of m p rest).
  { intros category lines Hin. unfold renderVideoMetadata in Hin.
    apply in_flat_map in Hin as ([c fields] & Hc & Hin).
    unfold categories in Hc. simpl in Hc.
    destruct Hc as [[= <- <-]|[[= <- <-]|[[= <- <-]|[[= <- <-]|[]]]]];
      apply category_lines in Hin as (-> & Hne & Hl); try reflexivity;
      (split; [exact Hne|]); eexists; (split; [|exact Hl]); simpl; auto. }
  split; [exact Hcat|]. split.
  - intros key Hkey. split.
    + intros (category & lines & l & Hin & Hl & <-).
      destruct (Hcat _ _ Hin) as (_ & p & Hp & Hiff).
      apply Hiff in Hl. destruct Hl as (rest & _ & Heq). subst l.
      exists category, p.
      split; [exact Hp|]. apply prefix_iff. now exists rest.
    + intros (category & p & Hp & Hpre).
      assert (Hfield : In key (List.filter (fun k => startsWith k p) (keys m))).
      { apply filter_In. now split. }
      pose (g := fun field =>
                   {| line_key := field;
                      label := replace "_" " "
                                 (replace (JS.toLowerCase category +:+ "_") ""
                                    field);
                      shown := formatMetadataValue (get m field) |}).
      exists category,
        (map g (List.filter (fun k => startsWith k p) (keys m))), (g key).
      split; [|split; [now apply in_map|reflexivity]].
      unfold renderVideoMetadata. apply in_flat_map.
      exists (category, List.filter (fun k => startsWith k p) (keys m)).
      split.
      * unfold categories. simpl in Hp. simpl.
        destruct Hp as [[= <- <-]|[[= <- <-]|[[= <- <-]|[[= <- <-]|[]]]]];
          auto.
      * destruct (List.filter _ (keys m)) as [|k ks] eqn:E; [destruct Hfield|].
        left. reflexivity.
  - intros c1 lines1 l1 c2 lines2 l2 H1 Hl1 H2 Hl2 Hkey.
    destruct (Hcat _ _ H1) as (_ & p1 & Hp1 & Hiff1).
    destruct (Hcat _ _ H2) as (_ & p2 & Hp2 & Hiff2).
    apply Hiff1 in Hl1. destruct Hl1 as (rest1 & _ & Heq1). subst l1.
    apply Hiff2 in Hl2. destruct Hl2 as (rest2 & _ & Heq2). subst l2.
    simpl in Hkey, Hp1, Hp2.
    destruct Hp1 as [[= <- <-]|[[= <- <-]|[[= <- <-]|[[= <- <-]|[]]]]];
      destruct Hp2 as [[= <- <-]|[[= <- <-]|[[= <- <-]|[[= <- <-]|[]]]]];
      try reflexivity; rewrite !append_cons in Hkey; discriminate Hkey.
Qed.

End MetadataCard.

Section Labels.

Import JSValue JSString.

Lemma join_split_cons (c : ascii) (s : string) :
  join " " (JS.split "_" (String c s))
  = String (if Ascii.eqb c "_" then " "%char else c)
      (join " " (JS.split "_" s)).
Proof.
  simpl. pose proof (split_nonempty "_" s) as Hne.
  destruct (Ascii.eqb c "_").
  - destruct (JS.split "_" s) as [|f fs]; [congruence|]. reflexivity.
  - destruct (JS.split "_" s) as [|f fs]; [congruence|].
    destruct fs; reflexivity.
Qed.

Lemma replace_cons (c : ascii) (s : string) :
  replace "_" " " (String c s)
  = if Ascii.eqb c "_" then String " " s
    else String c (replace "_" " " s).
Proof.
  rewrite replace_unfold.
  assert (Hp : String.prefix "_" (String c s) = Ascii.eqb c "_").
  { cbn [String.prefix]. destruct (ascii_dec "_" c) as [<-|Hne].
    - rewrite Ascii.eqb_refl. now destruct s.
    - symmetry. apply Ascii.eqb_neq. congruence. }
  rewrite Hp. destruct (Ascii.eqb c "_"); reflexivity.
Qed.

Lemma join_split_fixed (s : string) :
  join " " (JS.split "_" s) = s <-> count "_" s = 0%nat.
Proof.
  induction s as [|c s IH]; [simpl; tauto|].
  rewrite join_split_cons. simpl count.
  destruct (Ascii.eqb c "_") eqn:E.
  - apply Ascii.eqb_eq in E. subst c. split; [intros [= _]|]; discriminate.
  - simpl. rewrite <- IH. split; [now intros [= ->]|now intros ->].
Qed.

(** X14. The labels of a field name.  The creation page writes
    [f.split('_').join(' ')], which replaces every underscore; the table
    page and the event card write [f.replace('_', ' ')], which replaces the
    first one.  The two agree exactly on the names with at most one
    underscore. *)
Theorem labels_agree (s : string) :
  count "_" (join " " (JS.split "_" s)) = 0%nat
  /\ count "_" (replace "_" " " s) = Nat.pred (count "_" s)
  /\ (replace "_" " " s = join " " (JS.split "_" s)
      <-> (count "_" s <= 1)%nat).
Proof.
  split; [|split].
  - induction s as [|c s IH]; [reflexivity|].
    rewrite join_split_cons. simpl. rewrite IH.
    destruct (Ascii.eqb c "_") eqn:E; [reflexivity|]. now rewrite E.
  - induction s as [|c s IH]; [reflexivity|].
    rewrite replace_cons. simpl.
    destruct (Ascii.eqb c "_") eqn:E; [reflexivity|]. simpl.
    now rewrite E, IH.
  - induction s as [|c s IH]; [simpl; split; [lia|reflexivity]|].
    rewrite replace_cons, join_split_cons. simpl count.
    destruct (Ascii.eqb c "_") eqn:E.
    + split.
      * intros [= H]. symmetry in H. apply join_split_fixed in H. lia.
      * intros H. f_equal. symmetry. apply join_split_fixed. lia.
    + simpl. rewrite <- IH. split; [now intros [= ->]|now intros ->].
Qed.

(** X15. The names that the rule-field select of the table page offers are the
    configured fields behind the prefix of their list, and the text of an
    option only turns the underscore of the prefix into a space. *)
Theorem available_field_labels (vc : Watchers.VideoMetadataConfig)
    (fld : string) :
  In fld (WatchersFields.getAvailableFields vc)
  <-> exists p f,
        fld = p +:+ "_" +:+ f
        /\ WatchersFields.option_label fld = p +:+ " " +:+ f
        /\ ((p = "video" /\ In f (Watchers.video_fields vc))
            \/ (p = "audio" /\ In f (Watchers.audio_fields vc))
            \/ (p = "general" /\ In f (Watchers.general_fields vc))
            \/ (p = "custom" /\ In f (Watchers.custom_fields vc))).
Proof.
  unfold WatchersFields.getAvailableFields.
  rewrite !in_app_iff, !in_map_iff. split.
  - intros [(f & <- & Hf)|[(f & <- & Hf)|[(f & <- & Hf)|(f & <- & Hf)]]];
      [exists "video", f|exists "audio", f|exists "general", f
      |exists "custom", f];
      (split; [reflexivity|]); (split; [|tauto]);
      unfold WatchersFields.option_label;
      rewrite !append_cons, !append_empty, !replace_cons; reflexivity.
  - intros (p & f & -> & _ & [[-> H]|[[-> H]|[[-> H]|[-> H]]]]);
      [left|right; left|right; right; left|right; right; right];
      exists f; (split; [reflexivity|exact H]).
Qed.

End Labels.

(** ** The Config column of [Watchers.tsx] *)
Section ConfigSummary.

Import JSValue Watchers.

Lemma append_nil (s : string) : s +:+ "" = s.
Proof. induction s as [|c s IH]; [reflexivity|]. now rewrite append_cons, IH. Qed.

Lemma join_cons (sep x : string) (l : list string) :
  exists rest, join sep (x :: l) = x +:+ rest.
Proof.
  destruct l as [|y l].
  - exists "". simpl. now rewrite append_nil.
  - now exists (sep +:+ join sep (y :: l)).
Qed.

Lemma summary_some (w : Watcher) (x : string) (l : list string) :
  x <> "" -> summary_parts w = x :: l ->
  exists rest, configSummary w = Some (x +:+ rest).
Proof.
  intros Hx Hparts. unfold configSummary. rewrite Hparts.
  destruct (join_cons " | " x l) as [rest ->]. exists rest.
  destruct x as [|c x]; [congruence|]. reflexivity.
Qed.

(** X16. The Config column shows the dash exactly for a watcher that has no
    [config] and no metadata extraction; with a [config], the summary starts
    with Recursive or Non-recursive. *)
Theorem configSummary_dash (w : Watcher) :
  (configSummary w = None
   <-> config w = None
       /\ match video_config w with
          | Some vc => listed_extract_video_metadata vc = false
          | None => True
          end)
  /\ (forall c, config w = Some c ->
        exists rest,
          configSummary w
          = Some ((if recursive c then "Recursive" else "Non-recursive")
                  +:+ rest)).
Proof.
  assert (Hconfig : forall c, config w = Some c ->
            exists rest,
              configSummary w
              = Some ((if recursive c then "Recursive" else "Non-recursive")
                      +:+ rest)).
  { intros c Hc.
    assert (Hparts : exists l,
              summary_parts w
              = (if recursive c then "Recursive" else "Non-recursive") :: l).
    { unfold summary_parts. rewrite Hc. simpl. now eexists. }
    destruct Hparts as [l Hl].
    apply (summary_some w _ l); [|exact Hl]. now destruct (recursive c). }
  split; [|exact Hconfig].
  destruct (config w) as [c|] eqn:Ec.
  - destruct (Hconfig c eq_refl) as [rest ->].
    split; [discriminate|]. intros [H _]. discriminate.
  - destruct (video_config w) as [vc|] eqn:Ev.
    + destruct (listed_extract_video_metadata vc) eqn:Ex.
      * assert (Hparts : exists x, summary_parts w = [x] /\ x <> "").
        { unfold summary_parts. rewrite Ec, Ev, Ex. simpl. eexists.
          split; [reflexivity|]. rewrite !append_cons. discriminate. }
        destruct Hparts as (x & Hparts & Hx).
        destruct (summary_some w x [] Hx Hparts) as [rest ->].
        split; [discriminate|]. intros [_ H]. discriminate.
      * unfold configSummary, summary_parts. rewrite Ec, Ev, Ex. simpl.
        tauto.
    + unfold configSummary, summary_parts. rewrite Ec, Ev. simpl. tauto.
Qed.

End ConfigSummary.

(** ** The users page and the token *)
Section UsersFacts.

Import Users.

Lemma removeEmpty_lookup (data : UserUpdate) (key k : string) :
  removeEmpty data key !! k
  = if bool_decide (k = key /\ data !! k = Some "") then None else data !! k.
Proof.
  unfold removeEmpty.
  destruct (bool_decide (data !! key = Some "")) eqn:E; cbv iota.
  - apply bool_decide_eq_true in E.
    destruct (decide (k = key)) as [->|Hne].
    + rewrite lookup_delete_eq.
      now rewrite bool_decide_eq_true_2 by (split; [reflexivity|exact E]).
    + rewrite lookup_delete_ne by congruence.
      now rewrite bool_decide_eq_false_2 by tauto.
  - apply bool_decide_eq_false in E.
    rewrite bool_decide_eq_false_2; [reflexivity|].
    intros [-> H]. contradiction.
Qed.

Lemma fold_removeEmpty_lookup (keys : list string) :
  forall (data : UserUpdate) (k : string),
    foldl removeEmpty data keys !! k
    = if bool_decide (k ∈ keys /\ data !! k = Some "") then None
      else data !! k.
Proof.
  induction keys as [|key keys IH]; intros data k.
  - change (foldl removeEmpty data []) with data.
    rewrite bool_decide_eq_false_2; [reflexivity|].
    intros [H _]. now apply not_elem_of_nil in H.
  - change (foldl removeEmpty data (key :: keys))
      with (foldl removeEmpty (removeEmpty data key) keys).
    rewrite IH, removeEmpty_lookup.
    destruct (decide (k = key /\ data !! k = Some "")) as [[-> He]|Hno].
    + rewrite (bool_decide_eq_true_2 (key = key /\ _)) by now split.
      rewrite (bool_decide_eq_true_2 (key ∈ key :: keys /\ _));
        [|split; [apply list_elem_of_here|exact He]].
      now destruct (bool_decide _).
    + rewrite (bool_decide_eq_false_2 (k = key /\ _)) by exact Hno.
      destruct (decide (k ∈ keys /\ data !! k = Some "")) as [[Hin He]|Hno'].
      * rewrite !bool_decide_eq_true_2; [reflexivity| |now split].
        split; [now apply list_elem_of_further|exact He].
      * rewrite !bool_decide_eq_false_2; [reflexivity| |exact Hno'].
        intros [Hin He]. apply elem_of_cons in Hin as [->|Hin]; tauto.
Qed.

Lemma updateData_lookup (form : UserUpdate) (k : string) :
  updateData form !! k
  = if bool_decide (form !! k = Some "") then None else form !! k.
Proof.
  unfold updateData. rewrite fold_removeEmpty_lookup.
  destruct (decide (form !! k = Some "")) as [He|Hne].
  - rewrite !bool_decide_eq_true_2; [reflexivity|exact He|].
    split; [|exact He]. unfold Object_keys.
    apply list_elem_of_fmap. exists (k, ""). split; [reflexivity|].
    now apply elem_of_map_to_list.
  - rewrite !bool_decide_eq_false_2; [reflexivity|exact Hne|tauto].
Qed.

Lemma change_password (inputs : list input) :
  forall st,
    updateForm st !! "password" = None ->
    updateForm (foldl change st inputs) !! "password" = None.
Proof.
  induction inputs as [|i inputs IH]; intros st H; simpl; [exact H|].
  apply IH. destruct i as [text|text|k]; simpl.
  - now rewrite lookup_insert_ne.
  - now rewrite lookup_insert_ne.
  - destruct (roleOptions !! k); [now rewrite lookup_insert_ne|exact H].
Qed.

(** X17. The body of the update request holds the fields of the form that are
    not empty, with the text of the form, and no other key.  So an input
    that was emptied sends nothing for its field, and the edit row, which
    has no password input, never sends a password. *)
Theorem updateUser_body (form : UserUpdate) :
  (forall key, updateData form !! key
               = if bool_decide (form !! key = Some "") then None
                 else form !! key)
  /\ (forall key, updateData form !! key <> Some "")
  /\ (forall user inputs id body,
        updateUser (foldl change (startEdit user) inputs) = Some (id, body) ->
        id = Users.id user
        /\ body !! "password" = None
        /\ (forall key, body !! key <> Some ""))
  /\ (forall user inputs,
        updateUser (change (foldl change (startEdit user) inputs)
                      (TypeUsername ""))
        = Some (Users.id user,
                delete "username"
                  (updateData (updateForm (foldl change (startEdit user) inputs))))).
Proof.
  assert (Hne : forall f key, updateData f !! key <> Some "").
  { intros f key. rewrite updateData_lookup.
    destruct (bool_decide (f !! key = Some "")) eqn:E; [discriminate|].
    now apply bool_decide_eq_false in E. }
  assert (Huser : forall user inputs,
            editingUser (foldl change (startEdit user) inputs) = Some user).
  { intros user inputs.
    assert (H : forall st, editingUser (foldl change st inputs)
                           = editingUser st).
    { induction inputs as [|i inputs IH]; intros st; [reflexivity|].
      simpl. now rewrite IH. }
    now rewrite H. }
  split; [apply updateData_lookup|]. split; [apply Hne|]. split.
  - intros user inputs id body. unfold updateUser. rewrite Huser.
    intros [= <- <-]. split; [reflexivity|]. split; [|apply Hne].
    rewrite updateData_lookup, change_password; [|reflexivity].
    now destruct (bool_decide _).
  - intros user inputs. unfold updateUser. simpl. rewrite Huser.
    f_equal. f_equal. apply map_eq. intros k.
    rewrite updateData_lookup.
    destruct (decide (k = "username")) as [->|Hk].
    + rewrite lookup_insert_eq, lookup_delete_eq.
      now rewrite bool_decide_eq_true_2.
    + rewrite lookup_insert_ne, lookup_delete_ne by congruence.
      now rewrite updateData_lookup.
Qed.

End UsersFacts.

Section AuthFacts.

Import Auth.

(** What every handler keeps true of the browser. *)
Definition browser_ok (b : Browser) : Prop :=
  stored b <> Some ""
  /\ forall h, authorization b = Some h -> exists t, t <> "" /\ h = bearer t.

Lemma setToken_header (token : option string) (b : Browser) (h : string) :
  authorization (setToken token b) = Some h -> exists t, t <> "" /\ h = bearer t.
Proof.
  unfold setToken. simpl. destruct token as [[|c t]|]; simpl; try discriminate.
  intros [= <-]. now exists (String c t).
Qed.

Lemma auth_step_ok (b : Browser) (e : event) : browser_ok b -> browser_ok (step b e).
Proof.
  intros [Hs Ha]. destruct e as [|access_token|]; simpl.
  - unfold load. simpl. destruct (truthy (stored b)) eqn:E.
    + split; [exact Hs|]. apply setToken_header.
    + split; [exact Hs|]. simpl. discriminate.
  - unfold login. split; [|apply setToken_header].
    simpl. destruct access_token as [[|c t]|]; simpl; discriminate.
  - split; [discriminate|exact Ha].
Qed.

Lemma run_ok (events : list event) : browser_ok (run events).
Proof.
  unfold run.
  assert (H : forall b0, browser_ok b0 -> browser_ok (foldl step b0 events)).
  { induction events as [|e events IH]; intros b0 H0; simpl; [exact H0|].
    apply IH. now apply auth_step_ok. }
  apply H. split; [discriminate|]. intros h Hh. discriminate Hh.
Qed.

(** X18. Whatever the sequence of page loads, logins and logouts, the stored
    token is never the empty string and the default header, when set, is
    [Bearer] followed by a token that is not empty; and whenever [Protected]
    lets a page through, the requests of that page carry the stored
    token. *)
Theorem requests_carry_stored_token (events : list event) :
  let b := run events in
  stored b <> Some ""
  /\ (forall h, authorization b = Some h -> exists t, t <> "" /\ h = bearer t)
  /\ (Protected b = true <-> exists t, stored b = Some t)
  /\ (forall t, stored b = Some t -> request b = Some (bearer t)).
Proof.
  intros b.
  assert (Hok : browser_ok b) by apply run_ok.
  destruct Hok as [Hs Ha]. split; [exact Hs|]. split; [exact Ha|]. split.
  - unfold Protected, truthy. destruct (stored b) as [[|c t]|]; simpl.
    + congruence.
    + split; [intros _; now eexists|reflexivity].
    + split; [discriminate|intros [t H]; discriminate].
  - intros t Ht. unfold request, interceptor. rewrite Ht.
    destruct t as [|c t]; [congruence|reflexivity].
Qed.

(** X19. After a login the pages are shown and the requests carry the new token.
    A logout removes the stored token, so the protected pages are no longer
    shown, but it leaves the default header in place: until the next load of
    the application the requests still carry the token of the session that
    was closed. *)
Theorem logout_keeps_default_header (b : Browser) (token : string) :
  token <> "" ->
  let b1 := login (Some token) b in
  Protected b1 = true
  /\ request b1 = Some (bearer token)
  /\ Protected (handleLogout b1) = false
  /\ request (handleLogout b1) = Some (bearer token)
  /\ request (load (handleLogout b1)) = None
  /\ (forall other, other <> "" ->
        request (login (Some other) (handleLogout b1)) = Some (bearer other)).
Proof.
  intros Hne. destruct token as [|c t]; [congruence|]. simpl.
  repeat split. intros [|c' t'] Ho; [congruence|reflexivity].
Qed.

End AuthFacts.

Lemma logout_keeps_default_header_witness :
  Auth.Protected (Auth.handleLogout (Auth.login (Some "t0k3n") Auth.fresh))
  = false
  /\ Auth.request (Auth.handleLogout (Auth.login (Some "t0k3n") Auth.fresh))
     = Some "Bearer t0k3n"
  /\ Auth.request
       (Auth.load (Auth.handleLogout (Auth.login (Some "t0k3n") Auth.fresh)))
     = None.
Proof.
  destruct (logout_keeps_default_header Auth.fresh "t0k3n")
    as (_ & _ & Hp & Hr & Hl & _); [discriminate|].
  split; [exact Hp|]. split; [exact Hr|exact Hl].
Defined.
